(** * Decision Transformer pipeline: evaluation loop, dataset preparation and
      model wiring, embedded from the Python sources

    - [src/decision_transformer/dt_evaluation.py]: [get_trajectory],
      [get_returns], [make_action], [experiment];
    - [src/data/download_dataset.py]: the two episode construction loops;
    - [src/decision_transformer/dt_model_pretrained.py]:
      [MaskedCausalAttention], [Block], [DecisionTransformer].

    Conventions.  Python [int] is [Z]; rewards (floats that the code only adds,
    subtracts and divides) are exact rationals [Q]; the activations of the
    network are real numbers [R] (float32 idealised, dropout in evaluation
    mode); Python lists and the leading axes of tensors are [list]; a raised
    exception is the left injection of [result]. *)

From Stdlib Require Import String.
From Stdlib Require Import List ZArith QArith Lia Lqa Bool.
From Stdlib Require Import Reals Lra Psatz.
Import ListNotations.
Open Scope string_scope.
Open Scope list_scope.

Set Implicit Arguments.

(* ================================================================== *)
(** * Part I.  Definitions                                             *)
(* ================================================================== *)

(** ** Python runtime: exceptions, indexing, slicing *)

Inductive exn : Type :=
| IndexError
| ZeroDivisionError
| AssertionError (msg : string)
| ValueError (msg : string)
| RuntimeError (msg : string).

Definition result (A : Type) : Type := (exn + A)%type.

Definition Ok {A : Type} (a : A) : result A := inr a.
Definition Raise {A : Type} (e : exn) : result A := inl e.

Definition bind {A B : Type} (r : result A) (k : A -> result B) : result B :=
  match r with
  | inl e => inl e
  | inr a => k a
  end.

Notation "x <- r ;; k" := (bind r (fun x => k))
  (at level 61, r at next level, right associativity).
Notation "' pat <- r ;; k" := (bind r (fun pat => k))
  (at level 61, pat pattern, r at next level, right associativity).

Definition is_ok {A : Type} (r : result A) : bool :=
  match r with inr _ => true | inl _ => false end.

(** [xs[k]] for a list or a one-dimensional array: negative [k] counts from
    the end, anything outside [-len, len) raises [IndexError]. *)
Definition py_index {A : Type} (xs : list A) (k : Z) : result A :=
  let n := Z.of_nat (length xs) in
  let pos := if (k <? 0)%Z then (n + k)%Z else k in
  if ((0 <=? pos) && (pos <? n))%Z
  then match nth_error xs (Z.to_nat pos) with
       | Some x => Ok x
       | None => Raise IndexError
       end
  else Raise IndexError.

(** [xs[k:]]: slices never raise; a negative start counts from the end and is
    clipped at the front of the list.  Note that [xs[-0:]] is [xs[0:]]. *)
Definition py_slice_from {A : Type} (xs : list A) (k : Z) : list A :=
  let n := Z.of_nat (length xs) in
  let start := if (k <? 0)%Z then Z.max 0 (n + k) else k in
  skipn (Z.to_nat start) xs.

(** [len(xs)] *)
Definition len {A : Type} (xs : list A) : Z := Z.of_nat (length xs).

(** In-place element update [xs[i] = v] of an array (in range at every use). *)
Fixpoint list_set {A : Type} (xs : list A) (i : nat) (v : A) : list A :=
  match xs, i with
  | [], _ => []
  | _ :: tl, O => v :: tl
  | x :: tl, S i' => x :: list_set tl i' v
  end.

(** [Tensor.reshape(dims)] on a tensor of [numel] elements, as far as success
    is concerned: one entry may be [-1] (inferred), the others must be
    non-negative, and the element counts must agree. *)
Definition prodZ (dims : list Z) : Z := fold_right Z.mul 1%Z dims.

Definition reshape_ok (numel : Z) (dims : list Z) : bool :=
  let known := filter (fun d => negb (d =? -1)%Z) dims in
  let holes := (length dims - length known)%nat in
  if negb (forallb (fun d => (0 <=? d)%Z) known) then false
  else match holes with
       | O => (prodZ known =? numel)%Z
       | S O => negb (prodZ known =? 0)%Z && (numel mod prodZ known =? 0)%Z
       | _ => false
       end.

(* ------------------------------------------------------------------ *)
(** ** dt_evaluation.py *)

Section Evaluation.

(** One observation: a stack of 4 frames of 84 x 84 pixels scaled to [0,1]
    (its pixels play no part in the bookkeeping below). *)
Variable Obs : Type.

(** The trajectory dictionary has exactly the four keys below. *)
Record Trajectory : Type := mkTrajectory {
  observations : list Obs;
  actions : list Z;
  rewards : list Q;
  steps : list Z
}.

(** def get_trajectory(trajectory, observation, action, reward, step) *)
Definition get_trajectory (trajectory : Trajectory)
    (observation : Obs) (action : Z) (reward : Q) (step : Z) : Trajectory :=
  {| observations := observations trajectory ++ [observation];
     actions := actions trajectory ++ [action];
     rewards := rewards trajectory ++ [reward];
     steps := steps trajectory ++ [step] |}.

(** def get_returns(rewards, target_return = 200): the two nested [for]
    loops, updating [returns_to_go] in place. *)
Definition get_returns_inner (rewards : list Q) (i : nat)
    (returns_to_go : list Q) : list Q :=
  fold_left
    (fun rtg j => list_set rtg i (nth i rtg 0 + nth j rewards 0)%Q)
    (seq 0 i) returns_to_go.

Definition get_returns (rewards : list Q) (target_return : Q) : list Q :=
  fold_left
    (fun returns_to_go i =>
       let returns_to_go := get_returns_inner rewards i returns_to_go in
       list_set returns_to_go i (target_return - nth i returns_to_go 0)%Q)
    (seq 0 (length rewards))
    (repeat 0%Q (length rewards)).

Definition default_target_return : Q := 200%Q.

(** The tensors handed to [model.forward]. *)
Record Query : Type := mkQuery {
  q_states : list Obs;      (* reshape(1, context_len, 4, 84, 84)   *)
  q_actions : list Z;       (* reshape(1, context_len - 1, 1)       *)
  q_timesteps : Z;          (* reshape(1, 1, 1)                     *)
  q_rtgs : list Q           (* reshape(1, context_len, 1)           *)
}.

(** [np.random.randint(0, 3)] and the sampled output of the network
    ([model.forward], softmax over the last position, [torch.multinomial]):
    both are outside this file and random, so they enter as oracles. *)
Variable random_action : Z.
Variable model_sample : Query -> Z.

Definition state_dim : Z := 84%Z.
Definition frame_stack : Z := 4%Z.

Definition reshape_check (numel : Z) (dims : list Z) : result unit :=
  if reshape_ok numel dims then Ok tt
  else Raise (RuntimeError "shape is invalid for input size").

(** The [else] arm of [make_action] up to the call of the model, as a
    state transformer on the trajectory: the three assignments of the
    sliding-window arm happen before any tensor is built, so they persist
    when a later line raises.  The conversions of the actions and of the
    step to int64 tensors succeed on the integers the decision loop
    produces (sampled actions, steps below 10000); a Python [int] outside
    the int64 range, which torch refuses, is outside this model. *)
Definition make_action_query (trajectory : Trajectory) (context_len : Z)
  : Trajectory * result Query :=
  if (len (observations trajectory) <? context_len)%Z then
    let context_len := len (observations trajectory) in
    (trajectory,
     _ <- reshape_check
            (len (observations trajectory) * (frame_stack * state_dim * state_dim))
            [1; context_len; frame_stack; state_dim; state_dim]%Z ;;
     _ <- reshape_check (len (actions trajectory)) [1; context_len - 1; 1]%Z ;;
     t0 <- py_index (steps trajectory) 0 ;;
     let rewards := get_returns (rewards trajectory) default_target_return in
     _ <- reshape_check (len rewards) [1; context_len; 1]%Z ;;
     Ok {| q_states := observations trajectory;
           q_actions := actions trajectory;
           q_timesteps := t0;
           q_rtgs := rewards |})
  else
    let trajectory :=
      {| observations := py_slice_from (observations trajectory) (- context_len);
         actions := py_slice_from (actions trajectory) (- context_len + 1);
         rewards := py_slice_from (rewards trajectory) (- context_len);
         steps := steps trajectory |} in
    (trajectory,
     let states := py_slice_from (observations trajectory) (- context_len) in
     _ <- reshape_check
            (len states * (frame_stack * state_dim * state_dim))
            [1; context_len; frame_stack; state_dim; state_dim]%Z ;;
     let acts := py_slice_from (actions trajectory) (- context_len + 1) in
     _ <- reshape_check (len acts) [1; context_len - 1; 1]%Z ;;
     t0 <- py_index (steps trajectory) (- context_len) ;;
     let rewards := get_returns (rewards trajectory) default_target_return in
     let rtgs := py_slice_from rewards (- context_len) in
     _ <- reshape_check (len rtgs) [1; context_len; 1]%Z ;;
     Ok {| q_states := states;
           q_actions := acts;
           q_timesteps := t0;
           q_rtgs := rtgs |}).

(** def make_action(trajectory, model, context_len, device): the trajectory
    after the call, and the action returned or the exception raised. *)
Definition make_action (trajectory : Trajectory) (context_len : Z)
  : Trajectory * result Z :=
  if (len (observations trajectory) =? 0)%Z then
    (trajectory, Ok random_action)
  else
    let '(trajectory, query) := make_action_query trajectory context_len in
    (trajectory, q <- query ;; Ok (model_sample q)).

(** The history the decision loop of [experiment] builds: the first
    environment step records an observation, a reward and step 0 but no
    action; every later step goes through [get_trajectory]. *)
Definition first_step (observation : Obs) (reward : Q) : Trajectory :=
  {| observations := [observation]; actions := [];
     rewards := [reward]; steps := [0%Z] |}.

(** What the data model calls a trajectory: as many rewards as
    observations, one action fewer, and a step for every observation (the
    list of steps is never cut, so it may be longer). *)
Definition well_formed (trajectory : Trajectory) : Prop :=
  length (rewards trajectory) = length (observations trajectory) /\
  (length (observations trajectory) <= length (steps trajectory))%nat /\
  S (length (actions trajectory)) = length (observations trajectory).

End Evaluation.

(** *** def experiment(device) *)

Section Experiment.

(** [env = AtariEnv(game='Breakout', stack=True)] comes from [utils]: its
    state is [Env], what [env.step] returns as observation is [Raw] (the
    fourth component, [info], is never read). *)
Variable Raw : Type.
Variable Obs : Type.
Variable Env : Type.
Variable env_reset : Env -> Env.
Variable env_step : Env -> Z -> Env * (Raw * Q * bool).
Variable env_render : Env -> Env.
Variable env_close : Env -> Env.

(** [np.array(observation) / 255.] *)
Variable scale : Raw -> Obs.

(** The random draws made in episode [i] when the step counter is [k]:
    [np.random.random()], [np.random.randint(0, 3)] and the action sampled
    from the loaded model. *)
Variable np_random_random : nat -> Z -> Q.
Variable np_random_randint : nat -> Z -> Z.
Variable model_sample : nat -> Z -> Query Obs -> Z.

Definition max_episodes : nat := 10.
Definition epsilon : Q := 5 # 100.
Definition max_steps : Z := 10000.
Definition eval_context_len : Z := 30.

Definition Qlt_bool (x y : Q) : bool := negb (Qle_bool y x).

(** The variables of the [while True] loop. *)
Record Play : Type := mkPlay {
  p_env : Env;
  p_trajectory : Trajectory Obs;
  p_step : Z;
  p_sum_reward : Q
}.

(** One turn of the loop: the variables after it, and whether it breaks. *)
Definition play_step (i : nat) (st : Play) : result (Play * bool) :=
  let step := p_step st in
  let '(trajectory, action) :=
    if Qlt_bool (np_random_random i step) epsilon
    then (p_trajectory st, Ok (np_random_randint i step))
    else make_action (np_random_randint i step) (model_sample i step)
                     (p_trajectory st) eval_context_len in
  action <- action ;;
  let '(env, (observation, reward, terminated)) := env_step (p_env st) action in
  let env := env_render env in
  let observation := scale observation in
  let trajectory := get_trajectory trajectory observation action reward step in
  let step := (step + 1)%Z in
  let sum_reward := (p_sum_reward st + reward)%Q in
  Ok ({| p_env := env; p_trajectory := trajectory; p_step := step;
         p_sum_reward := sum_reward |},
      terminated || (max_steps <=? step)%Z).

(** [while True: ... break], with a bound on the number of turns: [None]
    when the bound is reached before the loop breaks. *)
Fixpoint play_loop (fuel : nat) (i : nat) (st : Play) : result (option Play) :=
  match fuel with
  | O => Ok None
  | S fuel' =>
      '(st', stop) <- play_step i st ;;
      if stop : bool then Ok (Some st') else play_loop fuel' i st'
  end.

(** The body of [for i in range(max_episodes)]: the environment after the
    episode and the reward and step count it prints. *)
Definition play_episode (fuel : nat) (i : nat) (env : Env)
  : result (option (Env * Q * Z)) :=
  let env := env_reset env in
  let trajectory :=
    {| observations := []; actions := []; rewards := []; steps := [] |} in
  let '(trajectory, action) :=
    make_action (np_random_randint i 0) (model_sample i 0) trajectory
                eval_context_len in
  action <- action ;;
  let '(env, (observation, reward, terminated)) := env_step env action in
  let observation := scale observation in
  let trajectory :=
    {| observations := observations trajectory ++ [observation];
       actions := actions trajectory;
       rewards := rewards trajectory ++ [reward];
       steps := steps trajectory ++ [0%Z] |} in
  last <- play_loop fuel i
            {| p_env := env; p_trajectory := trajectory; p_step := 1;
               p_sum_reward := 0 |} ;;
  Ok (option_map (fun st => (p_env st, p_sum_reward st, p_step st)) last).

(** What a run prints: reward and steps of every episode, the cumulated
    reward and its average. *)
Record Report : Type := mkReport {
  episodes : list (Q * Z);
  cum_reward : Q;
  average_reward : Q
}.

Definition experiment_episodes (fuel : nat) (range : list nat) (env : Env)
  : result (option (Env * list (Q * Z) * Q)) :=
  fold_left
    (fun acc i =>
       acc <- acc ;;
       match acc with
       | None => Ok None
       | Some (env, printed, cum_reward) =>
           e <- play_episode fuel i env ;;
           Ok (option_map
                 (fun '(env, sum_reward, step) =>
                    (env, printed ++ [(sum_reward, step)],
                     (cum_reward + sum_reward)%Q))
                 e)
       end)
    range (Ok (Some (env, [], 0%Q))).

Definition experiment (fuel : nat) (env : Env) : result (option (Env * Report)) :=
  r <- experiment_episodes fuel (seq 0 max_episodes) env ;;
  Ok (option_map
        (fun '(env, printed, cum_reward) =>
           (env_close env,
            {| episodes := printed;
               cum_reward := cum_reward;
               average_reward :=
                 (cum_reward / inject_Z (Z.of_nat max_episodes))%Q |}))
        r).

End Experiment.

(* ------------------------------------------------------------------ *)
(** ** download_dataset.py *)

(** The value of a float after a division: numpy's true division does not
    raise on a zero divisor, it yields an infinity or NaN. *)
Inductive fnum : Type :=
| Finite (q : Q)
| PosInf
| NegInf
| NaN.

Definition is_finite (x : fnum) : bool :=
  match x with Finite _ => true | _ => false end.

(** [x / s] on floats (finite values exact). *)
Definition np_divide (x s : Q) : fnum :=
  if Qeq_bool s 0 then
    if Qeq_bool x 0 then NaN
    else if Qle_bool 0 x then PosInf else NegInf
  else Finite (x / s).

Section Dataset.

(** One observation of the D4RL dataset ([stack=False]: one frame). *)
Variable Frame : Type.

(** [dataset = env.get_dataset()]: a dictionary of parallel arrays; the key
    ['timeouts'] may be absent. *)
Record D4RL : Type := mkD4RL {
  d_observations : list Frame;
  d_actions : list Z;
  d_rewards : list Q;
  d_terminals : list bool;
  d_timeouts : option (list bool)
}.

(** [data_ = collections.defaultdict(list)], filled under five keys. *)
Record Buffer : Type := mkBuffer {
  b_observations : list Frame;
  b_next_observations : list Frame;
  b_actions : list Z;
  b_rewards : list Q;
  b_terminals : list bool
}.

Definition empty_buffer : Buffer :=
  {| b_observations := []; b_next_observations := []; b_actions := [];
     b_rewards := []; b_terminals := [] |}.

(** [episode_data]: the arrays of one finished episode; [Rw] is what a
    saved reward is ([Q] as read, [fnum] once divided). *)
Record Episode (Rw : Type) : Type := mkEpisode {
  e_observations : list Frame;
  e_next_observations : list Frame;
  e_actions : list Z;
  e_rewards : list Rw;
  e_terminals : list bool
}.

(** try: dataset['observations'][i+1]
    except IndexError: dataset['observations'][i] *)
Definition next_observation (dataset : D4RL) (i : Z) : result Frame :=
  match py_index (d_observations dataset) (i + 1) with
  | inr o => Ok o
  | inl IndexError => py_index (d_observations dataset) i
  | inl e => Raise e
  end.

(** The inner [for k in [...]] of both loops: one sample appended under
    each key, in the order of the key list. *)
Definition append_sample (dataset : D4RL) (i : Z) (data_ : Buffer)
  : result Buffer :=
  o <- py_index (d_observations dataset) i ;;
  o' <- next_observation dataset i ;;
  a <- py_index (d_actions dataset) i ;;
  r <- py_index (d_rewards dataset) i ;;
  t <- py_index (d_terminals dataset) i ;;
  Ok {| b_observations := b_observations data_ ++ [o];
        b_next_observations := b_next_observations data_ ++ [o'];
        b_actions := b_actions data_ ++ [a];
        b_rewards := b_rewards data_ ++ [r];
        b_terminals := b_terminals data_ ++ [t] |}.

(** [done_bool] and [final_timestep] of sample [i]. *)
Definition episode_ends (dataset : D4RL) (i : Z) (episode_step : Z)
  : result bool :=
  done_bool <- py_index (d_terminals dataset) i ;;
  final_timestep <-
    match d_timeouts dataset with
    | Some timeouts => py_index timeouts i
    | None => Ok (episode_step =? 4096)%Z
    end ;;
  Ok (done_bool || final_timestep).

(** [N = dataset['rewards'].shape[0]]; the loops run over [range(N//2)]. *)
Definition sample_range (dataset : D4RL) : list nat :=
  seq 0 (Z.to_nat (len (d_rewards dataset) / 2)).

(** *** [mix_games == False] *)

Record SepState : Type := mkSepState {
  s_data : Buffer;
  s_episode_step : Z;
  s_paths : list (Episode Q)
}.

Definition raw_episode (data_ : Buffer) : Episode Q :=
  {| e_observations := b_observations data_;
     e_next_observations := b_next_observations data_;
     e_actions := b_actions data_;
     e_rewards := b_rewards data_;
     e_terminals := b_terminals data_ |}.

Definition separate_step (dataset : D4RL) (st : SepState) (i : nat)
  : result SepState :=
  ends <- episode_ends dataset (Z.of_nat i) (s_episode_step st) ;;
  data_ <- append_sample dataset (Z.of_nat i) (s_data st) ;;
  if ends : bool then
    Ok {| s_data := empty_buffer;
          s_episode_step := 0 + 1;
          s_paths := s_paths st ++ [raw_episode data_] |}
  else
    Ok {| s_data := data_;
          s_episode_step := s_episode_step st + 1;
          s_paths := s_paths st |}.

Definition run_loop {St : Type} (step : St -> nat -> result St)
    (range : list nat) (init : St) : result St :=
  fold_left (fun acc i => st <- acc ;; step st i) range (Ok init).

Definition separate_init : SepState :=
  {| s_data := empty_buffer; s_episode_step := 0; s_paths := [] |}.

(** The loop over the samples of one dataset, in one turn of
    [for dataset_type in ['expert']]: the list [paths] it leaves, which the
    script pickles to [<name>-stacked.pkl] after printing its statistics
    (these are not modelled; they need at least one episode). *)
Definition separate_games (dataset : D4RL) : result (list (Episode Q)) :=
  st <- run_loop (separate_step dataset) (sample_range dataset) separate_init ;;
  Ok (s_paths st).

(** *** [mix_games == True] *)

Record MixState : Type := mkMixState {
  m_data : Buffer;
  m_episode_step : Z;
  m_sum_reward : Q;
  m_paths : list (Episode fnum)
}.

(** [np.array(data_['rewards']) / sum_reward], the other keys copied. *)
Definition normalized_episode (data_ : Buffer) (sum_reward : Q)
  : Episode fnum :=
  {| e_observations := b_observations data_;
     e_next_observations := b_next_observations data_;
     e_actions := b_actions data_;
     e_rewards := map (fun r => np_divide r sum_reward) (b_rewards data_);
     e_terminals := b_terminals data_ |}.

Definition mixed_step (dataset : D4RL) (st : MixState) (i : nat)
  : result MixState :=
  ends <- episode_ends dataset (Z.of_nat i) (m_episode_step st) ;;
  data_ <- append_sample dataset (Z.of_nat i) (m_data st) ;;
  r <- py_index (d_rewards dataset) (Z.of_nat i) ;;
  let sum_reward := (m_sum_reward st + r)%Q in
  if ends : bool then
    Ok {| m_data := empty_buffer;
          m_episode_step := 0 + 1;
          m_sum_reward := 0;
          m_paths := m_paths st ++ [normalized_episode data_ sum_reward] |}
  else
    Ok {| m_data := data_;
          m_episode_step := m_episode_step st + 1;
          m_sum_reward := sum_reward;
          m_paths := m_paths st |}.

Definition mixed_init (paths : list (Episode fnum)) : MixState :=
  {| m_data := empty_buffer; m_episode_step := 0; m_sum_reward := 0;
     m_paths := paths |}.

(** One turn of [for env_name in [...]]: [paths] is shared by the turns,
    the other variables start afresh. *)
Definition mixed_games_one (paths : list (Episode fnum)) (dataset : D4RL)
  : result (list (Episode fnum)) :=
  st <- run_loop (mixed_step dataset) (sample_range dataset) (mixed_init paths) ;;
  Ok (m_paths st).

(** The whole [else] arm: the list pickled to [synthetic_data.pkl]. *)
Definition mixed_games (datasets : list D4RL) : result (list (Episode fnum)) :=
  fold_left (fun acc dataset => paths <- acc ;; mixed_games_one paths dataset)
            datasets (Ok []).

End Dataset.

(* ------------------------------------------------------------------ *)
(** ** dt_model_pretrained.py: construction and tensor shapes *)

(** *** The torch modules the file instantiates, by their sizes

    A module is described by the sizes it is built with; allocating a
    parameter tensor with a negative dimension is refused by torch. *)

Definition shape : Type := list Z.

Definition torch_empty (dims : shape) : result unit :=
  if forallb (fun d => (0 <=? d)%Z) dims then Ok tt
  else Raise (RuntimeError "Trying to create tensor with negative dimension").

Record Linear_ : Type := mkLinear { in_features : Z; out_features : Z }.
Record Embedding_ : Type := mkEmbedding { num_embeddings : Z; embedding_dim : Z }.
Record Conv2d_ : Type := mkConv2d {
  in_channels : Z; out_channels : Z; kernel_size : Z; stride : Z
}.
Record LayerNorm_ : Type := mkLayerNorm { normalized_shape : Z }.

Definition nn_Linear (i o : Z) : result Linear_ :=
  _ <- torch_empty [o; i] ;; Ok (mkLinear i o).

Definition nn_Embedding (n d : Z) : result Embedding_ :=
  _ <- torch_empty [n; d] ;; Ok (mkEmbedding n d).

Definition nn_Conv2d (i o k s : Z) : result Conv2d_ :=
  _ <- torch_empty [o; i; k; k] ;; Ok (mkConv2d i o k s).

Definition nn_LayerNorm (h : Z) : result LayerNorm_ :=
  _ <- torch_empty [h] ;; Ok (mkLayerNorm h).

Definition nn_Dropout (p : Q) : result unit :=
  if Qle_bool 0 p && Qle_bool p 1 then Ok tt
  else Raise (ValueError "dropout probability has to be between 0 and 1").

(** *** class GPTConfig *)

Record GPTConfig : Type := mkGPTConfig {
  cfg_state_dim : Z;
  cfg_act_dim : Z;
  cfg_context_len : Z;
  cfg_n_blocks : Z;
  cfg_embed_dim : Z;
  cfg_n_heads : Z;
  cfg_dropout_p : Q
}.

Definition GPTConfig_default : GPTConfig :=
  {| cfg_state_dim := 84; cfg_act_dim := 4; cfg_context_len := 30;
     cfg_n_blocks := 12; cfg_embed_dim := 768; cfg_n_heads := 12;
     cfg_dropout_p := 1 # 10 |}.

(** *** class MaskedCausalAttention: __init__ *)

Record MaskedCausalAttention : Type := mkAttention {
  attn_n_heads : Z;
  attn_h_dim : Z;
  attn_max_T : Z;
  attn_c_attn : Linear_;
  attn_c_proj : Linear_
}.

Definition divisible_msg : string :=
  "hidden dimension must be divisible by number of heads".

(** [h_dim % n_heads] on Python integers: floored remainder (the sign of the
    divisor, as [Z.modulo]); a zero divisor raises before the comparison. *)
Definition py_mod (a b : Z) : result Z :=
  if (b =? 0)%Z then Raise ZeroDivisionError else Ok (a mod b)%Z.

(** [a // b] on Python integers: floored quotient. *)
Definition py_floordiv (a b : Z) : result Z :=
  if (b =? 0)%Z then Raise ZeroDivisionError else Ok (a / b)%Z.

Definition py_assert (cond : bool) (msg : string) : result unit :=
  if cond then Ok tt else Raise (AssertionError msg).

Definition MaskedCausalAttention_init (h_dim max_T n_heads : Z) (drop_p : Q)
  : result MaskedCausalAttention :=
  r <- py_mod h_dim n_heads ;;
  _ <- py_assert (r =? 0)%Z divisible_msg ;;
  c_attn <- nn_Linear h_dim (3 * h_dim) ;;
  c_proj <- nn_Linear h_dim h_dim ;;
  _ <- nn_Dropout drop_p ;;
  _ <- nn_Dropout drop_p ;;
  _ <- torch_empty [max_T; max_T] ;;
  Ok {| attn_n_heads := n_heads; attn_h_dim := h_dim; attn_max_T := max_T;
        attn_c_attn := c_attn; attn_c_proj := c_proj |}.

(** *** class Block: __init__ *)

Record Block : Type := mkBlock {
  blk_attn : MaskedCausalAttention;
  blk_c_fc : Linear_;
  blk_c_proj : Linear_;
  blk_ln_1 : LayerNorm_;
  blk_ln_2 : LayerNorm_
}.

Definition Block_init (h_dim max_T n_heads : Z) (drop_p : Q) : result Block :=
  attn <- MaskedCausalAttention_init h_dim max_T n_heads drop_p ;;
  c_fc <- nn_Linear h_dim (4 * h_dim) ;;
  c_proj <- nn_Linear (4 * h_dim) h_dim ;;
  _ <- nn_Dropout drop_p ;;
  ln_1 <- nn_LayerNorm h_dim ;;
  ln_2 <- nn_LayerNorm h_dim ;;
  Ok {| blk_attn := attn; blk_c_fc := c_fc; blk_c_proj := c_proj;
        blk_ln_1 := ln_1; blk_ln_2 := ln_2 |}.

(** *** class DecisionTransformer: __init__ *)

Record DecisionTransformer : Type := mkDT {
  dt_state_dim : Z;
  dt_act_dim : Z;
  dt_h_dim : Z;
  dt_context_len : Z;
  dt_embed_timestep : Embedding_;
  dt_embed_rtg : Linear_;
  dt_embed_state_conv1 : Conv2d_;
  dt_embed_state_conv2 : Conv2d_;
  dt_embed_state_conv3 : Conv2d_;
  dt_embed_state_fc : Linear_;
  dt_embed_action : Embedding_;
  dt_embed_ln : LayerNorm_;
  dt_blocks : list Block;
  dt_ln_f : LayerNorm_;
  dt_predict_rtg : Linear_;
  dt_predict_state : Linear_;
  dt_predict_action : Linear_
}.

(** [[f() for _ in range(n)]]: the constructors run one after the other and
    the first exception ends the comprehension. *)
Fixpoint replicateM {A : Type} (n : nat) (f : result A) : result (list A) :=
  match n with
  | O => Ok []
  | S n' => x <- f ;; xs <- replicateM n' f ;; Ok (x :: xs)
  end.

Definition DecisionTransformer_init
    (state_dim act_dim n_blocks h_dim context_len n_heads : Z) (drop_p : Q)
    (max_timestep : Z) : result DecisionTransformer :=
  embed_timestep <- nn_Embedding max_timestep h_dim ;;
  embed_rtg <- nn_Linear (1 * context_len) (h_dim * context_len) ;;
  conv1 <- nn_Conv2d context_len 32 8 4 ;;
  conv2 <- nn_Conv2d 32 64 4 2 ;;
  conv3 <- nn_Conv2d 64 64 3 1 ;;
  fc <- nn_Linear 3136 (h_dim * context_len) ;;
  embed_action <- nn_Embedding act_dim h_dim ;;
  embed_ln <- nn_LayerNorm h_dim ;;
  let input_seq_len := (3 * context_len)%Z in
  h <- replicateM (Z.to_nat n_blocks)
         (Block_init h_dim input_seq_len n_heads drop_p) ;;
  ln_f <- nn_LayerNorm h_dim ;;
  predict_rtg <- nn_Linear h_dim 1 ;;
  predict_state <- nn_Linear h_dim (state_dim * state_dim) ;;
  predict_action <- nn_Linear h_dim act_dim ;;
  Ok {| dt_state_dim := state_dim; dt_act_dim := act_dim; dt_h_dim := h_dim;
        dt_context_len := context_len;
        dt_embed_timestep := embed_timestep; dt_embed_rtg := embed_rtg;
        dt_embed_state_conv1 := conv1; dt_embed_state_conv2 := conv2;
        dt_embed_state_conv3 := conv3; dt_embed_state_fc := fc;
        dt_embed_action := embed_action; dt_embed_ln := embed_ln;
        dt_blocks := h; dt_ln_f := ln_f;
        dt_predict_rtg := predict_rtg; dt_predict_state := predict_state;
        dt_predict_action := predict_action |}.

Definition default_max_timestep : Z := 1000.

(** Construction from a [GPTConfig], as in the commented call of
    [experiment] (fields passed by keyword). *)
Definition DecisionTransformer_of_config (conf : GPTConfig)
  : result DecisionTransformer :=
  DecisionTransformer_init (cfg_state_dim conf) (cfg_act_dim conf)
    (cfg_n_blocks conf) (cfg_embed_dim conf) (cfg_context_len conf)
    (cfg_n_heads conf) (cfg_dropout_p conf) default_max_timestep.

(** *** The parameter count reported by the constructor *)

(** [p.numel()] summed over the parameters of a module: a Linear has a
    weight and a bias, a LayerNorm a gain and a bias; the mask of the
    attention module is a buffer, not a parameter. *)
Definition numel_Linear (l : Linear_) : Z :=
  (out_features l * in_features l + out_features l)%Z.

Definition numel_LayerNorm (ln : LayerNorm_) : Z :=
  (normalized_shape ln + normalized_shape ln)%Z.

Definition numel_Block (b : Block) : Z :=
  (numel_Linear (attn_c_attn (blk_attn b))
   + numel_Linear (attn_c_proj (blk_attn b))
   + numel_Linear (blk_c_fc b) + numel_Linear (blk_c_proj b)
   + numel_LayerNorm (blk_ln_1 b) + numel_LayerNorm (blk_ln_2 b))%Z.

(** n_params = sum(p.numel() for p in self.transformer.parameters()) *)
Definition n_params (m : DecisionTransformer) : Z :=
  (fold_right Z.add 0 (map numel_Block (dt_blocks m))
   + numel_LayerNorm (dt_ln_f m))%Z.

(** *** Shapes of the tensors of a forward pass

    Every torch operation of the three [forward] methods, as the function it
    induces on shapes; a shape the operation refuses raises. *)

Definition shape_error {A : Type} : result A :=
  Raise (RuntimeError "shape mismatch").

(** [Tensor.reshape(dims)] / [Tensor.view(dims)]. *)
Definition sh_reshape (s : shape) (dims : shape) : result shape :=
  if reshape_ok (prodZ s) dims then
    let known := prodZ (filter (fun d => negb (d =? -1)%Z) dims) in
    Ok (map (fun d => if (d =? -1)%Z then (prodZ s / known)%Z else d) dims)
  else shape_error.

(** [nn.Linear]: acts on the last axis, which must have [in_features]. *)
Definition sh_Linear (l : Linear_) (s : shape) : result shape :=
  match rev s with
  | [] => shape_error
  | last :: front =>
      if (last =? in_features l)%Z then Ok (rev front ++ [out_features l])
      else shape_error
  end.

(** A tensor of indices (dtype [torch.long]): its shape and its entries in
    row-major order. *)
Record LongTensor : Type := mkLongTensor {
  lt_shape : shape;
  lt_entries : list Z
}.

(** [nn.Embedding]: one vector per index; an index outside
    [0, num_embeddings) raises [IndexError]. *)
Definition sh_Embedding (e : Embedding_) (t : LongTensor) : result shape :=
  if forallb (fun i => (0 <=? i) && (i <? num_embeddings e))%Z (lt_entries t)
  then Ok (lt_shape t ++ [embedding_dim e])
  else Raise IndexError.

(** [nn.Conv2d] with [padding=0]: the input is a batch (N, C, H, W) or one
    image without batch axis (C, H, W). *)
Definition conv_out (size k st : Z) : Z := ((size - k) / st + 1)%Z.

Definition sh_Conv2d (c : Conv2d_) (s : shape) : result shape :=
  match s with
  | [n; ch; hgt; wid] =>
      if ((ch =? in_channels c) && (kernel_size c <=? hgt)
          && (kernel_size c <=? wid))%Z
      then Ok [n; out_channels c;
               conv_out hgt (kernel_size c) (stride c);
               conv_out wid (kernel_size c) (stride c)]
      else shape_error
  | [ch; hgt; wid] =>
      if ((ch =? in_channels c) && (kernel_size c <=? hgt)
          && (kernel_size c <=? wid))%Z
      then Ok [out_channels c;
               conv_out hgt (kernel_size c) (stride c);
               conv_out wid (kernel_size c) (stride c)]
      else shape_error
  | _ => shape_error
  end.

(** [nn.Flatten()]: all axes but the first are merged. *)
Definition sh_Flatten (s : shape) : result shape :=
  match s with
  | n :: (_ :: _) as rest => Ok [n; prodZ rest]
  | _ => shape_error
  end.

(** [nn.LayerNorm(h)]: the last axis must have size [h]. *)
Definition sh_LayerNorm (ln : LayerNorm_) (s : shape) : result shape :=
  match rev s with
  | [] => shape_error
  | last :: _ => if (last =? normalized_shape ln)%Z then Ok s else shape_error
  end.

(** Broadcasting of two shapes, aligned at the last axis. *)
Fixpoint broadcast_rev (a b : shape) : result shape :=
  match a, b with
  | [], _ => Ok b
  | _, [] => Ok a
  | x :: a', y :: b' =>
      rest <- broadcast_rev a' b' ;;
      if (x =? y)%Z then Ok (x :: rest)
      else if (x =? 1)%Z then Ok (y :: rest)
      else if (y =? 1)%Z then Ok (x :: rest)
      else shape_error
  end.

Definition sh_broadcast (a b : shape) : result shape :=
  r <- broadcast_rev (rev a) (rev b) ;; Ok (rev r).

(** [a.masked_fill(mask, v)]: the mask must broadcast to the shape of [a]. *)
Definition sh_masked_fill (a mask : shape) : result shape :=
  r <- sh_broadcast a mask ;;
  if forallb (fun p => (fst p =? snd p)%Z) (combine r a)
     && (length r =? length a)%nat
  then Ok a else shape_error.

(** [torch.stack((a, b, c), dim=1)]. *)
Definition sh_stack3_dim1 (a b c : shape) : result shape :=
  if forallb (fun p => (fst p =? snd p)%Z) (combine a b)
     && forallb (fun p => (fst p =? snd p)%Z) (combine a c)
     && (length a =? length b)%nat && (length a =? length c)%nat
  then match a with
       | n :: rest => Ok (n :: 3%Z :: rest)
       | [] => shape_error
       end
  else shape_error.

(** [x.transpose(i, j)] on the two axis pairs the file uses. *)
Definition sh_transpose_1_2 (s : shape) : result shape :=
  match s with
  | [a; b; c; d] => Ok [a; c; b; d]
  | _ => shape_error
  end.

Definition sh_transpose_2_3 (s : shape) : result shape :=
  match s with
  | [a; b; c; d] => Ok [a; b; d; c]
  | _ => shape_error
  end.

(** [a @ b] on two 4-axis tensors with equal leading axes. *)
Definition sh_matmul (a b : shape) : result shape :=
  match a, b with
  | [a0; a1; m; k], [b0; b1; k'; n] =>
      if ((a0 =? b0) && (a1 =? b1) && (k =? k'))%Z then Ok [a0; a1; m; n]
      else shape_error
  | _, _ => shape_error
  end.

(** [q, k, v = t.split(size, dim=2)]: chunks of [size] along the last of
    three axes; the unpacking needs exactly three of them. *)
Definition sh_split3_dim2 (s : shape) (size : Z) : result (shape * shape * shape) :=
  match s with
  | [b; t; c] =>
      if ((0 <? size) && (2 * size <? c) && (c <=? 3 * size))%Z
      then Ok ([b; t; size], [b; t; size], [b; t; (c - 2 * size)%Z])
      else Raise (ValueError "not enough values to unpack")
  | _ => shape_error
  end.

(** [math.sqrt(D)] is defined on non-negative [D] only. *)
Definition math_sqrt_check (d : Z) : result unit :=
  if (0 <=? d)%Z then Ok tt else Raise (ValueError "math domain error").

(** [self.mask[..., :T, :T]] of the (1, 1, max_T, max_T) buffer. *)
Definition sh_mask_slice (max_T T : Z) : shape :=
  [1; 1; Z.min T max_T; Z.min T max_T]%Z.

(** MaskedCausalAttention.forward *)
Definition MaskedCausalAttention_forward_shape
    (a : MaskedCausalAttention) (x : shape) : result shape :=
  match x with
  | [B; T; C] =>
      let N := attn_n_heads a in
      D <- py_floordiv C (attn_n_heads a) ;;
      qkv <- sh_Linear (attn_c_attn a) x ;;
      '(q, k, v) <- sh_split3_dim2 qkv (attn_h_dim a) ;;
      q <- sh_reshape q [B; T; N; D] ;;
      q <- sh_transpose_1_2 q ;;
      k <- sh_reshape k [B; T; N; D] ;;
      k <- sh_transpose_1_2 k ;;
      v <- sh_reshape v [B; T; N; D] ;;
      v <- sh_transpose_1_2 v ;;
      kt <- sh_transpose_2_3 k ;;
      att <- sh_matmul q kt ;;
      _ <- math_sqrt_check D ;;
      att <- sh_masked_fill att (sh_mask_slice (attn_max_T a) T) ;;
      y <- sh_matmul att v ;;
      y <- sh_transpose_1_2 y ;;
      attention <- sh_reshape y [B; T; (N * D)%Z] ;;
      sh_Linear (attn_c_proj a) attention
  | _ => Raise (ValueError "not enough values to unpack")
  end.

(** Block.forward: [x + attn(ln_1(x))], then [x + mlpf(ln_2(x))]. *)
Definition Block_forward_shape (b : Block) (x : shape) : result shape :=
  n1 <- sh_LayerNorm (blk_ln_1 b) x ;;
  a <- MaskedCausalAttention_forward_shape (blk_attn b) n1 ;;
  x <- sh_broadcast x a ;;
  n2 <- sh_LayerNorm (blk_ln_2 b) x ;;
  f <- sh_Linear (blk_c_fc b) n2 ;;
  f <- sh_Linear (blk_c_proj b) f ;;
  sh_broadcast x f.

(** [t.shape[i]]. *)
Definition shape_at (s : shape) (i : Z) : result Z := py_index s i.

(** [h[:, i]] on a tensor with at least two axes. *)
Definition sh_select_dim1 (s : shape) (i : Z) : result shape :=
  match s with
  | n :: m :: rest =>
      if ((- m <=? i) && (i <? m))%Z then Ok (n :: rest)
      else Raise IndexError
  | _ => Raise IndexError
  end.

(** [x.permute(0, 2, 1, 3)] *)
Definition sh_permute_0213 (s : shape) : result shape := sh_transpose_1_2 s.

Definition sh_embed_state (m : DecisionTransformer) (s : shape) : result shape :=
  s <- sh_Conv2d (dt_embed_state_conv1 m) s ;;
  s <- sh_Conv2d (dt_embed_state_conv2 m) s ;;
  s <- sh_Conv2d (dt_embed_state_conv3 m) s ;;
  s <- sh_Flatten s ;;
  sh_Linear (dt_embed_state_fc m) s.

(** DecisionTransformer.forward: the shapes of
    [(state_preds, action_preds, return_preds)]; [timesteps] and [actions]
    come with their entries, which the two embedding tables are indexed
    with. *)
Definition DecisionTransformer_forward_shape (m : DecisionTransformer)
    (timesteps : LongTensor) (states : shape) (actions : LongTensor)
    (returns_to_go : shape)
  : result (shape * shape * shape) :=
  B <- shape_at states 0 ;;
  T <- shape_at (lt_shape timesteps) 1 ;;
  let h_dim := dt_h_dim m in
  te <- sh_Embedding (dt_embed_timestep m) timesteps ;;
  time_embeddings <- sh_reshape te [B; T; h_dim] ;;
  se <- sh_embed_state m states ;;
  se <- sh_reshape se [B; T; h_dim] ;;
  state_embeddings <- sh_broadcast se time_embeddings ;;
  ae <- sh_Embedding (dt_embed_action m) actions ;;
  ae <- sh_reshape ae [B; T; h_dim] ;;
  action_embeddings <- sh_broadcast ae time_embeddings ;;
  re <- sh_Linear (dt_embed_rtg m) returns_to_go ;;
  re <- sh_reshape re [B; T; h_dim] ;;
  returns_embeddings <- sh_broadcast re time_embeddings ;;
  x <- sh_stack3_dim1 returns_embeddings state_embeddings action_embeddings ;;
  x <- sh_reshape x [B; (3 * T)%Z; h_dim] ;;
  x <- sh_LayerNorm (dt_embed_ln m) x ;;
  x <- fold_left (fun acc block => x <- acc ;; Block_forward_shape block x)
                 (dt_blocks m) (Ok x) ;;
  h <- sh_LayerNorm (dt_ln_f m) x ;;
  h <- sh_reshape h [B; T; 3%Z; h_dim] ;;
  h <- sh_permute_0213 h ;;
  h2 <- sh_select_dim1 h 2 ;;
  return_preds <- sh_Linear (dt_predict_rtg m) h2 ;;
  sp <- sh_Linear (dt_predict_state m) h2 ;;
  state_preds <- sh_reshape sp [B; T; dt_state_dim m; dt_state_dim m] ;;
  h1 <- sh_select_dim1 h 1 ;;
  action_preds <- sh_Linear (dt_predict_action m) h1 ;;
  Ok (state_preds, action_preds, return_preds).

(* ------------------------------------------------------------------ *)
(** ** dt_model_pretrained.py: the values computed by a forward pass

    One element of the batch at a time (every operation of the file treats the
    batch axis pointwise).  A token is a vector of [h_dim] reals; the time
    axis is a list of tokens.  Shapes are those accepted by the shape
    functions above; dropout is the identity (evaluation mode). *)

Definition vec : Type := list R.

Fixpoint zip_with {A B C : Type} (f : A -> B -> C) (xs : list A) (ys : list B)
  : list C :=
  match xs, ys with
  | x :: xs', y :: ys' => f x y :: zip_with f xs' ys'
  | _, _ => []
  end.

(** [f] applied to every element together with its index. *)
Definition imap {A B : Type} (f : nat -> A -> B) (xs : list A) : list B :=
  zip_with f (seq 0 (length xs)) xs.

Definition sumR (v : vec) : R := fold_right Rplus 0%R v.
Definition dot (a b : vec) : R := sumR (zip_with Rmult a b).
Definition vadd (a b : vec) : vec := zip_with Rplus a b.

(** A tensor + tensor of shape (T, h_dim). *)
Definition tadd (a b : list vec) : list vec := zip_with vadd a b.

(** [t.reshape(rows, cols)] of a flat tensor: row [r] is the slice
    [r*cols, (r+1)*cols). *)
Definition reshape_rows {A : Type} (rows cols : nat) (flat : list A)
  : list (list A) :=
  map (fun r => firstn cols (skipn (r * cols) flat)) (seq 0 rows).

(** *** Parameters of the torch modules and what they compute *)

(** [nn.Linear]: [weight] has one row per output feature. *)
Record Linear : Type := mkLinearW { weight : list vec; bias : vec }.

Definition linear (l : Linear) (x : vec) : vec :=
  zip_with (fun w b => (dot w x + b)%R) (weight l) (bias l).

(** [nn.Embedding]: a table with one row per index (an index outside the
    table raises in torch; here it yields the empty vector). *)
Definition Embedding : Type := list vec.

Definition embedding (table : Embedding) (i : Z) : vec :=
  if ((0 <=? i) && (i <? len table))%Z then nth (Z.to_nat i) table [] else [].

(** [nn.LayerNorm(h_dim)]: biased variance, [eps = 1e-5]. *)
Record LayerNorm : Type := mkLayerNormW { ln_weight : vec; ln_bias : vec }.

Definition ln_eps : R := (1 / 100000)%R.

Definition mean (x : vec) : R := (sumR x / INR (length x))%R.

Definition variance (x : vec) : R :=
  (sumR (map (fun v => (v - mean x) * (v - mean x)) x) / INR (length x))%R.

Definition layer_norm (ln : LayerNorm) (x : vec) : vec :=
  zip_with (fun v wb => ((v - mean x) / sqrt (variance x + ln_eps)
                         * fst wb + snd wb)%R)
           x (combine (ln_weight ln) (ln_bias ln)).

(** [nn.Conv2d(in, out, k, stride, padding=0)] on one image (C, H, W). *)
Record Conv2d : Type := mkConv2dW {
  conv_weight : list (list (list vec));   (* out, in, k, k *)
  conv_bias : vec;
  conv_k : nat;
  conv_stride : nat
}.

Definition image : Type := list (list vec).     (* channel, row, column *)

Definition pixel (img : image) (c i j : nat) : R :=
  nth j (nth i (nth c img []) []) 0%R.

Definition conv2d (cv : Conv2d) (img : image) : image :=
  let k := conv_k cv in
  let st := conv_stride cv in
  let hgt := length (nth 0 img []) in
  let wid := length (nth 0 (nth 0 img []) []) in
  let out_h := S ((hgt - k) / st) in
  let out_w := S ((wid - k) / st) in
  zip_with
    (fun w b =>
       map (fun i =>
              map (fun j =>
                     (sumR (imap (fun c wc =>
                        sumR (imap (fun a wa =>
                          sumR (imap (fun e we =>
                            (we * pixel img c (i * st + a) (j * st + e))%R) wa))
                          wc)) w) + b)%R)
                  (seq 0 out_w))
           (seq 0 out_h))
    (conv_weight cv) (conv_bias cv).

Definition relu (x : R) : R := Rmax 0 x.

(** [nn.Flatten()] of one image. *)
Definition flatten (img : image) : vec := concat (concat img).

(** [nn.GELU()]: [x * Phi(x)] with the Gauss error function. *)
Definition gauss (t : R) : R := exp (- (t * t)).

Definition gauss_continuous : continuity gauss.
Proof.
  unfold gauss.
  apply (continuity_comp (fun t => (- (t * t))%R) exp).
  - apply continuity_opp. apply continuity_mult; apply derivable_continuous, derivable_id.
  - apply derivable_continuous, derivable_exp.
Qed.

Definition gauss_integrable (a b : R) : Riemann_integrable gauss a b.
Proof.
  destruct (Rle_dec a b) as [Hab | Hab].
  - apply continuity_implies_RiemannInt; [exact Hab | intros; apply gauss_continuous].
  - apply RiemannInt_P1.
    apply continuity_implies_RiemannInt; [lra | intros; apply gauss_continuous].
Defined.

Definition erf (x : R) : R :=
  (2 / sqrt PI * RiemannInt (gauss_integrable 0 x))%R.

Definition gelu (x : R) : R := (x * (1 / 2) * (1 + erf (x / sqrt 2)))%R.

(** *** MaskedCausalAttention.forward *)

Record AttentionW : Type := mkAttentionW {
  aw_n_heads : nat;
  aw_h_dim : nat;
  aw_max_T : nat;
  aw_c_attn : Linear;
  aw_c_proj : Linear
}.

(** [torch.tril(torch.ones((max_T, max_T)))], as booleans: entry (i, j) is
    set when [j <= i]. *)
Definition tril_ones (max_T : nat) : list (list bool) :=
  map (fun i => map (fun j => (j <=? i)%nat) (seq 0 max_T)) (seq 0 max_T).

Definition mask_at (mask : list (list bool)) (i j : nat) : bool :=
  nth j (nth i mask []) false.

(** [q @ k.transpose(2,3) / math.sqrt(D)] for one head. *)
Definition scores (D : nat) (q k : list vec) : list (list R) :=
  map (fun qi => map (fun kj => (dot qi kj / sqrt (INR D))%R) k) q.

(** [att.masked_fill(self.mask[...,:T,:T] == 0, float('-inf'))]: a masked
    entry is [None], which stands for minus infinity. *)
Definition masked_fill (mask : list (list bool)) (att : list (list R))
  : list (list (option R)) :=
  imap (fun i row =>
          imap (fun j a => if mask_at mask i j then Some a else None) row)
       att.

(** [F.softmax(att, dim=-1)] on one row; [exp(-inf) = 0]. *)
Definition exp_ext (s : option R) : R :=
  match s with Some a => exp a | None => 0%R end.

Definition softmax (row : list (option R)) : list R :=
  let e := map exp_ext row in
  map (fun v => (v / sumR e)%R) e.

(** [att @ v] for one head: row [i] is the sum of the value vectors weighted
    by row [i] of [att]. *)
Definition apply_att (D : nat) (att : list (list R)) (v : list vec) : list vec :=
  map (fun row =>
         map (fun d => sumR (zip_with (fun a vj => (a * nth d vj 0)%R) row v))
             (seq 0 D))
      att.

(** [t.view(B, T, N, D).transpose(1, 2)[:, n]]: the slice of head [n] of
    every token. *)
Definition head_slice (n D : nat) (t : list vec) : list vec :=
  map (fun tok => firstn D (skipn (n * D) tok)) t.

(** [y.transpose(1, 2).contiguous().view(B, T, N*D)]: token [i] is the
    concatenation of row [i] of every head. *)
Definition gather_heads (T : nat) (y : list (list vec)) : list vec :=
  map (fun i => concat (map (fun yn => nth i yn []) y)) (seq 0 T).

Definition MaskedCausalAttention_forward (a : AttentionW) (x : list vec)
  : list vec :=
  let T := length x in
  let C := length (hd [] x) in
  let N := aw_n_heads a in
  let D := (C / aw_n_heads a)%nat in
  let qkv := map (linear (aw_c_attn a)) x in
  let q := map (fun r => firstn (aw_h_dim a) r) qkv in
  let k := map (fun r => firstn (aw_h_dim a) (skipn (aw_h_dim a) r)) qkv in
  let v := map (fun r => firstn (aw_h_dim a) (skipn (2 * aw_h_dim a) r)) qkv in
  let y :=
    map (fun n =>
           let att := scores D (head_slice n D q) (head_slice n D k) in
           let att := masked_fill (tril_ones (aw_max_T a)) att in
           let att := map softmax att in
           apply_att D att (head_slice n D v))
        (seq 0 N) in
  let attention := gather_heads T y in
  map (linear (aw_c_proj a)) attention.

(** *** Block.forward *)

Record BlockW : Type := mkBlockW {
  bw_attn : AttentionW;
  bw_c_fc : Linear;
  bw_c_proj : Linear;
  bw_ln_1 : LayerNorm;
  bw_ln_2 : LayerNorm
}.

(** self.mlpf = lambda x: m.dropout(m.c_proj(m.act(m.c_fc(x)))) *)
Definition mlpf (b : BlockW) (x : vec) : vec :=
  linear (bw_c_proj b) (map gelu (linear (bw_c_fc b) x)).

Definition Block_forward (b : BlockW) (x : list vec) : list vec :=
  let x := tadd x (MaskedCausalAttention_forward (bw_attn b)
                     (map (layer_norm (bw_ln_1 b)) x)) in
  let x := tadd x (map (mlpf b) (map (layer_norm (bw_ln_2 b)) x)) in
  x.

(** *** DecisionTransformer.forward *)

Record DecisionTransformerW : Type := mkDTW {
  w_state_dim : nat;
  w_h_dim : nat;
  w_embed_timestep : Embedding;
  w_embed_rtg : Linear;
  w_conv1 : Conv2d;
  w_conv2 : Conv2d;
  w_conv3 : Conv2d;
  w_embed_state_fc : Linear;
  w_embed_action : Embedding;
  w_embed_ln : LayerNorm;
  w_blocks : list BlockW;
  w_ln_f : LayerNorm;
  w_predict_rtg : Linear;
  w_predict_state : Linear;
  w_predict_action : Linear
}.

Definition relu_image (img : image) : image := map (map (map relu)) img.

(** self.embed_state: three convolutions with ReLU, Flatten, Linear, Tanh;
    the window of frames enters as the channels of one image. *)
Definition embed_state (w : DecisionTransformerW) (states : image) : vec :=
  let s := relu_image (conv2d (w_conv1 w) states) in
  let s := relu_image (conv2d (w_conv2 w) s) in
  let s := relu_image (conv2d (w_conv3 w) s) in
  map tanh (linear (w_embed_state_fc w) (flatten s)).

(** self.embed_rtg: one Linear over the whole window of returns, Tanh. *)
Definition embed_rtg (w : DecisionTransformerW) (returns_to_go : vec) : vec :=
  map tanh (linear (w_embed_rtg w) returns_to_go).

Definition embed_timestep (w : DecisionTransformerW) (t : Z) : vec :=
  map tanh (embedding (w_embed_timestep w) t).

Definition embed_action (w : DecisionTransformerW) (a : Z) : vec :=
  map tanh (embedding (w_embed_action w) a).

(** The three embedding tensors of shape (T, h_dim), time embedding added. *)
Definition time_embeddings (w : DecisionTransformerW) (timesteps : list Z)
  : list vec :=
  map (embed_timestep w) timesteps.

Definition state_embeddings (w : DecisionTransformerW) (timesteps : list Z)
    (states : image) : list vec :=
  tadd (reshape_rows (length timesteps) (w_h_dim w) (embed_state w states))
       (time_embeddings w timesteps).

Definition action_embeddings (w : DecisionTransformerW) (timesteps : list Z)
    (actions : list Z) : list vec :=
  tadd (map (embed_action w) actions) (time_embeddings w timesteps).

Definition returns_embeddings (w : DecisionTransformerW) (timesteps : list Z)
    (returns_to_go : vec) : list vec :=
  tadd (reshape_rows (length timesteps) (w_h_dim w) (embed_rtg w returns_to_go))
       (time_embeddings w timesteps).

(** [torch.stack((r, s, a), dim=1)]: a new axis of size 3 in front of the
    time axis. *)
Definition stack_dim1 {A : Type} (r s a : list A) : list (list A) := [r; s; a].

(** [.reshape(B, 3 * T, h_dim)] of a (B, 3, T, h_dim) tensor: the axes of
    size 3 and T are merged in row-major order, tokens stay whole. *)
Definition merge_axes {A : Type} (x : list (list A)) : list A := concat x.

(** The input sequence of the transformer:
    x = torch.stack((returns_embeddings, state_embeddings,
                     action_embeddings), dim=1).reshape(B, 3 * T, h_dim) *)
Definition token_sequence {A : Type} (r s a : list A) : list A :=
  merge_axes (stack_dim1 r s a).

(** [h.reshape(B, T, 3, h_dim)]: [T] groups of three consecutive tokens. *)
Definition group3 {A : Type} (T : nat) (h : list A) : list (list A) :=
  reshape_rows T 3 h.

(** [h.permute(0, 2, 1, 3)[:, lane]]: element [lane] of every group. *)
Definition lane {A : Type} (d : A) (l : nat) (groups : list (list A)) : list A :=
  map (fun g => nth l g d) groups.

Definition transformer (w : DecisionTransformerW) (x : list vec) : list vec :=
  let x := map (layer_norm (w_embed_ln w)) x in
  let x := fold_left (fun x block => Block_forward block x) (w_blocks w) x in
  map (layer_norm (w_ln_f w)) x.

Record Predictions : Type := mkPredictions {
  state_preds : list (list vec);
  action_preds : list vec;
  return_preds : list vec
}.

Definition DecisionTransformer_forward (w : DecisionTransformerW)
    (timesteps : list Z) (states : image) (actions : list Z)
    (returns_to_go : vec) : Predictions :=
  let T := length timesteps in
  let x := token_sequence (returns_embeddings w timesteps returns_to_go)
                          (state_embeddings w timesteps states)
                          (action_embeddings w timesteps actions) in
  let h := transformer w x in
  let h := group3 T h in
  {| return_preds := map (linear (w_predict_rtg w)) (lane [] 2 h);
     state_preds :=
       map (fun tok => reshape_rows (w_state_dim w) (w_state_dim w)
                         (linear (w_predict_state w) tok))
           (lane [] 2 h);
     action_preds := map (linear (w_predict_action w)) (lane [] 1 h) |}.

(** *** Parameters that fit the sizes of a constructed model

    The value-level records hold the parameters of the modules whose sizes
    [DecisionTransformer_init] fixes; these checks relate the two. *)

Definition fits_Linear (l : Linear_) (p : Linear) : bool :=
  (len (weight p) =? out_features l)%Z && (len (bias p) =? out_features l)%Z
  && forallb (fun row => (len row =? in_features l)%Z) (weight p).

Definition fits_Embedding (e : Embedding_) (p : Embedding) : bool :=
  (len p =? num_embeddings e)%Z
  && forallb (fun row => (len row =? embedding_dim e)%Z) p.

Definition fits_LayerNorm (l : LayerNorm_) (p : LayerNorm) : bool :=
  (len (ln_weight p) =? normalized_shape l)%Z
  && (len (ln_bias p) =? normalized_shape l)%Z.

Definition fits_Conv2d (c : Conv2d_) (p : Conv2d) : bool :=
  (len (conv_weight p) =? out_channels c)%Z
  && (len (conv_bias p) =? out_channels c)%Z
  && (Z.of_nat (conv_k p) =? kernel_size c)%Z
  && (Z.of_nat (conv_stride p) =? stride c)%Z
  && forallb (fun o =>
       (len o =? in_channels c)%Z
       && forallb (fun i =>
            (len i =? kernel_size c)%Z
            && forallb (fun r => (len r =? kernel_size c)%Z) i) o)
       (conv_weight p).

Definition fits_Attention (a : MaskedCausalAttention) (p : AttentionW) : bool :=
  (Z.of_nat (aw_n_heads p) =? attn_n_heads a)%Z
  && (Z.of_nat (aw_h_dim p) =? attn_h_dim a)%Z
  && (Z.of_nat (aw_max_T p) =? attn_max_T a)%Z
  && fits_Linear (attn_c_attn a) (aw_c_attn p)
  && fits_Linear (attn_c_proj a) (aw_c_proj p).

Definition fits_Block (b : Block) (p : BlockW) : bool :=
  fits_Attention (blk_attn b) (bw_attn p)
  && fits_Linear (blk_c_fc b) (bw_c_fc p)
  && fits_Linear (blk_c_proj b) (bw_c_proj p)
  && fits_LayerNorm (blk_ln_1 b) (bw_ln_1 p)
  && fits_LayerNorm (blk_ln_2 b) (bw_ln_2 p).

Definition fits (m : DecisionTransformer) (w : DecisionTransformerW) : bool :=
  (Z.of_nat (w_state_dim w) =? dt_state_dim m)%Z
  && (Z.of_nat (w_h_dim w) =? dt_h_dim m)%Z
  && fits_Embedding (dt_embed_timestep m) (w_embed_timestep w)
  && fits_Linear (dt_embed_rtg m) (w_embed_rtg w)
  && fits_Conv2d (dt_embed_state_conv1 m) (w_conv1 w)
  && fits_Conv2d (dt_embed_state_conv2 m) (w_conv2 w)
  && fits_Conv2d (dt_embed_state_conv3 m) (w_conv3 w)
  && fits_Linear (dt_embed_state_fc m) (w_embed_state_fc w)
  && fits_Embedding (dt_embed_action m) (w_embed_action w)
  && fits_LayerNorm (dt_embed_ln m) (w_embed_ln w)
  && (length (dt_blocks m) =? length (w_blocks w))%nat
  && forallb (fun bp => fits_Block (fst bp) (snd bp))
             (combine (dt_blocks m) (w_blocks w))
  && fits_LayerNorm (dt_ln_f m) (w_ln_f w)
  && fits_Linear (dt_predict_rtg m) (w_predict_rtg w)
  && fits_Linear (dt_predict_state m) (w_predict_state w)
  && fits_Linear (dt_predict_action m) (w_predict_action w).

(* ------------------------------------------------------------------ *)
(** ** Vocabulary of the properties

    Notions the statements of Part II are written with, and the concrete
    datasets, configurations and parameters they are exercised on. *)

(** The last [n] entries of a list. *)
Definition last_n {A : Type} (n : nat) (xs : list A) : list A :=
  skipn (length xs - n) xs.

(** The sum of the rewards at positions strictly before [i]. *)
Definition sum_before (rewards : list Q) (i : nat) : Q :=
  fold_right Qplus 0%Q (firstn i rewards).

(** What the inner loop leaves in cell [i] when it starts from 0. *)
Definition accumulated (rewards : list Q) (i : nat) : Q :=
  fold_left (fun acc j => acc + nth j rewards 0)%Q (seq 0 i) 0%Q.

(** The next observations stored so far by each loop: those of the finished
    episodes, then those of the episode under construction. *)
Definition stored_next {Frame Rw : Type} (paths : list (Episode Frame Rw))
    (data_ : Buffer Frame) : list Frame :=
  concat (map (@e_next_observations Frame Rw) paths) ++ b_next_observations data_.

(** What the look-ahead returns for each of the first [n] samples. *)
Definition look_ahead {Frame : Type} (dataset : D4RL Frame) (n : nat)
  : list (result Frame) :=
  map (fun i => next_observation dataset (Z.of_nat i)) (seq 0 n).

(** The arrays of a dataset reach over its first [n] samples. *)
Definition arrays_cover {Frame : Type} (dataset : D4RL Frame) (n : nat) : Prop :=
  (n <= length (d_observations dataset))%nat /\
  (n <= length (d_actions dataset))%nat /\
  (n <= length (d_rewards dataset))%nat /\
  (n <= length (d_terminals dataset))%nat /\
  (forall timeouts, d_timeouts dataset = Some timeouts ->
                    (n <= length timeouts)%nat).

(** [sum_reward] after the samples of one episode: the rewards added one
    by one to the initial 0. *)
Definition total_reward (raw : list Q) : Q := fold_left Qplus raw 0%Q.

(** The saved rewards of an episode whose dataset rewards are [raw]. *)
Definition normalized (raw : list Q) : list fnum :=
  map (fun r => np_divide r (total_reward raw)) raw.

(** The sum of a list of rationals. *)
Definition sumQ (qs : list Q) : Q := fold_right Qplus 0%Q qs.

(** The state of the mixed-games loop after [k] samples: the episodes added
    so far are the normalised forms of consecutive, non-empty runs [segs] of
    the dataset rewards, and [sum_reward] is the total of the episode under
    construction. *)
Definition mixed_invariant {Frame : Type} (dataset : D4RL Frame)
    (paths0 : list (Episode Frame fnum))
    (k : nat) (st : MixState Frame) : Prop :=
  exists (added : list (Episode Frame fnum)) (segs : list (list Q)),
    m_paths st = paths0 ++ added /\
    map (@e_rewards Frame fnum) added = map normalized segs /\
    Forall (fun raw => raw <> []) segs /\
    concat segs ++ b_rewards (m_data st) = firstn k (d_rewards dataset) /\
    m_sum_reward st = total_reward (b_rewards (m_data st)) /\
    (k <= length (d_rewards dataset))%nat.

(** The computation ends with an [AssertionError]. *)
Definition raises_assertion {A : Type} (r : result A) : Prop :=
  exists msg, r = Raise (AssertionError msg).

(** The sizes of the embedding heads, built before the first block, are
    accepted by torch. *)
Definition heads_sizes_ok (act_dim h_dim context_len max_timestep : Z) : Prop :=
  (0 <= max_timestep)%Z /\ (0 <= h_dim)%Z /\ (0 <= context_len)%Z /\
  (0 <= act_dim)%Z.

(** One row of [att @ v] before the softmax is taken: the output of a
    query from its masked scores. *)
Definition row_out (D : nat) (row : list (option R)) (v : list vec) : vec :=
  map (fun d => sumR (zip_with (fun a vj => (a * nth d vj 0)%R) (softmax row) v))
      (seq 0 D).

(** A mask is causal when it only lets a query see keys at its own or
    earlier positions. *)
Definition causal (mask : list (list bool)) : Prop :=
  forall i j, mask_at mask i j = true -> (j <= i)%nat.

(** One entry of a score matrix after [masked_fill]. *)
Definition mask_entry (mask : list (list bool)) (i j : nat) (a : R) : option R :=
  if mask_at mask i j then Some a else None.

(** The output of one head, as in the body of the loop over heads. *)
Definition head_out (mask : list (list bool)) (D : nat) (q k v : list vec)
  : list vec :=
  apply_att D (map softmax (masked_fill mask (scores D q k))) v.

(** What a layer norm with unit gain does to one coordinate. *)
Definition squash (x : R) : R := (x / sqrt (x * x + ln_eps))%R.

(** All-zero parameters. *)
Definition zeros (n : nat) : vec := repeat 0%R n.

Definition zero_linear (out inp : nat) : Linear :=
  {| weight := repeat (zeros inp) out; bias := zeros out |}.

Definition zero_conv (out inp k st : nat) : Conv2d :=
  {| conv_weight := repeat (repeat (repeat (zeros k) k) inp) out;
     conv_bias := zeros out;
     conv_k := k;
     conv_stride := st |}.

(** A layer norm over two coordinates with gain 1 and bias 0. *)
Definition unit_layer_norm : LayerNorm :=
  {| ln_weight := [1; 1]%R; ln_bias := [0; 0]%R |}.

(** A dataset whose observation array ends inside the processed range: four
    rewards, so samples 0 and 1 are processed, and two observations. *)
Definition short_dataset : D4RL string :=
  {| d_observations := ["f0"; "f1"];
     d_actions := [0; 1; 0; 1]%Z;
     d_rewards := [1; 0; 0; 2]%Q;
     d_terminals := [false; true; false; true];
     d_timeouts := None |}.

(** Two episodes in the processed half of a dataset: the first earns nothing,
    the second earns 1 and 3. *)
Definition idle_dataset : D4RL string :=
  {| d_observations := ["f0"; "f1"; "f2"; "f3"; "f4"; "f5"; "f6"; "f7"];
     d_actions := [0; 1; 0; 1; 0; 0; 0; 0]%Z;
     d_rewards := [0; 0; 1; 3; 0; 0; 0; 0]%Q;
     d_terminals := [false; true; false; true; false; false; false; false];
     d_timeouts := None |}.

(** The default configuration with frames of 92 x 92 pixels. *)
Definition wide_frames_config : GPTConfig :=
  {| cfg_state_dim := 92; cfg_act_dim := 4; cfg_context_len := 30;
     cfg_n_blocks := 12; cfg_embed_dim := 768; cfg_n_heads := 12;
     cfg_dropout_p := 1 # 10 |}.

(** The configuration of the end-to-end scenario of the specification. *)
Definition scenario_config : GPTConfig :=
  {| cfg_state_dim := 84; cfg_act_dim := 4; cfg_context_len := 30;
     cfg_n_blocks := 1; cfg_embed_dim := 16; cfg_n_heads := 2;
     cfg_dropout_p := 1 # 10 |}.

(** A block whose two output projections are zero: it adds nothing to its
    residual stream. *)
Definition idle_block_2 : BlockW :=
  {| bw_attn := {| aw_n_heads := 1; aw_h_dim := 2; aw_max_T := 6;
                   aw_c_attn := zero_linear 6 2;
                   aw_c_proj := zero_linear 2 2 |};
     bw_c_fc := zero_linear 8 2;
     bw_c_proj := zero_linear 2 8;
     bw_ln_1 := unit_layer_norm;
     bw_ln_2 := unit_layer_norm |}.

(** A block whose attention hands on what a token may see: queries and keys
    are zero, so that a token attends evenly to itself and to the tokens
    before it, values and output projection are the identity; the output
    projection of the MLP is zero. *)
Definition relay_block : BlockW :=
  {| bw_attn := {| aw_n_heads := 1; aw_h_dim := 2; aw_max_T := 6;
                   aw_c_attn := {| weight := [[0; 0]; [0; 0]; [0; 0]; [0; 0];
                                              [1; 0]; [0; 1]]%R;
                                   bias := zeros 6 |};
                   aw_c_proj := {| weight := [[1; 0]; [0; 1]]%R;
                                   bias := zeros 2 |} |};
     bw_c_fc := zero_linear 8 2;
     bw_c_proj := zero_linear 2 8;
     bw_ln_1 := unit_layer_norm;
     bw_ln_2 := unit_layer_norm |}.

(** A model in which a later return-to-go reaches an earlier action
    prediction through the embedding of the returns alone.

    Window of two steps, two actions, hidden dimension 2, one transformer
    block with one head.  [embed_rtg] is one Linear over the whole window:
    its only non-zero weight writes the return-to-go of timestep 1 into the
    embedded return of timestep 0, and the embedded return of timestep 1 is
    constant.  The block is [relay_block]; the layer norms have unit gains
    (their initial values); the two actions have different embeddings; one
    weight of [predict_action] reads the first coordinate; every other
    parameter is zero. *)
Definition leaky_model : DecisionTransformerW :=
  {| w_state_dim := 84;
     w_h_dim := 2;
     w_embed_timestep := [zeros 2; zeros 2];
     w_embed_rtg := {| weight := [[0; 1]; [0; 0]; [0; 0]; [0; 0]]%R;
                       bias := zeros 4 |};
     w_conv1 := zero_conv 32 2 8 4;
     w_conv2 := zero_conv 64 32 4 2;
     w_conv3 := zero_conv 64 64 3 1;
     w_embed_state_fc := zero_linear 4 3136;
     w_embed_action := [zeros 2; [1; 0]%R];
     w_embed_ln := unit_layer_norm;
     w_blocks := [relay_block];
     w_ln_f := unit_layer_norm;
     w_predict_rtg := {| weight := [[0; 0]]%R; bias := [0]%R |};
     w_predict_state := zero_linear (84 * 84) 2;
     w_predict_action := {| weight := [[1; 0]; [0; 0]]%R; bias := zeros 2 |} |}.

(** The order of the tokens that the comment above the [stack] announces and
    that the later [reshape(B, T, 3, h_dim)] reads:
    (r_0, s_0, a_0, r_1, s_1, a_1, ...). *)
Fixpoint interleaved {A : Type} (r s a : list A) : list A :=
  match r, s, a with
  | r0 :: r', s0 :: s', a0 :: a' => r0 :: s0 :: a0 :: interleaved r' s' a'
  | _, _, _ => []
  end.

(** A block whose two output projections are zero. *)
Definition idle_block (h : nat) (b : BlockW) : Prop :=
  aw_c_proj (bw_attn b) = zero_linear h h /\
  bw_c_proj b = zero_linear h (4 * h).

(** Kernels of convolutions: all zero, or zero but for a weight 1 at the
    corner. *)
Definition zero_kernel (k : nat) : list vec := repeat (zeros k) k.

Definition corner_kernel (k : nat) : list vec :=
  (1%R :: zeros (k - 1)) :: repeat (zeros k) (k - 1).

(** A convolution whose output channel 0 copies the pixels that the corner
    of the kernel meets in input channel [c]; the other output channels are
    zero. *)
Definition corner_conv (out inp c k st : nat) : Conv2d :=
  {| conv_weight :=
       (repeat (zero_kernel k) c ++ corner_kernel k
          :: repeat (zero_kernel k) (inp - c - 1))
       :: repeat (repeat (zero_kernel k) inp) (out - 1);
     conv_bias := zeros out;
     conv_k := k;
     conv_stride := st |}.

(** The weighted sum of one channel of a window, as in [conv2d]. *)
Definition kernel_sum (f : nat -> nat -> R) (w : list vec) : R :=
  sumR (imap (fun a wa => sumR (imap (fun e we => (we * f a e)%R) wa)) w).

(** A Linear whose output [r] copies the first input feature; the other
    outputs are zero. *)
Definition pick_linear (out n r : nat) : Linear :=
  {| weight := repeat (zeros n) r ++ (1%R :: zeros (n - 1))
                 :: repeat (zeros n) (out - r - 1);
     bias := zeros out |}.

(** [idle_block_2] for sequences of up to nine tokens. *)
Definition idle_block_3 : BlockW :=
  {| bw_attn := {| aw_n_heads := 1; aw_h_dim := 2; aw_max_T := 9;
                   aw_c_attn := zero_linear 6 2;
                   aw_c_proj := zero_linear 2 2 |};
     bw_c_fc := zero_linear 8 2;
     bw_c_proj := zero_linear 2 8;
     bw_ln_1 := unit_layer_norm;
     bw_ln_2 := unit_layer_norm |}.

(** A model in which a later state reaches an earlier action prediction
    through the embedding of the states alone.

    Window of three steps, two actions, hidden dimension 2, one idle block.
    [embed_state] is one stack of convolutions over all frames of the
    window: here the corner weights lead the first pixel of the frame of
    timestep 2 through the three convolutions, and the Linear behind them
    writes it into the embedded state of timestep 1.  The embedded returns
    are constant. *)
Definition state_leak_model : DecisionTransformerW :=
  {| w_state_dim := 84;
     w_h_dim := 2;
     w_embed_timestep := [zeros 2; zeros 2; zeros 2];
     w_embed_rtg := zero_linear 6 3;
     w_conv1 := corner_conv 32 3 2 8 4;
     w_conv2 := corner_conv 64 32 0 4 2;
     w_conv3 := corner_conv 64 64 0 3 1;
     w_embed_state_fc := pick_linear 6 3136 2;
     w_embed_action := [zeros 2; [1; 0]%R];
     w_embed_ln := unit_layer_norm;
     w_blocks := [idle_block_3];
     w_ln_f := unit_layer_norm;
     w_predict_rtg := {| weight := [[0; 0]]%R; bias := [0]%R |};
     w_predict_state := zero_linear (84 * 84) 2;
     w_predict_action := {| weight := [[1; 0]; [0; 0]]%R; bias := zeros 2 |} |}.

(** Three frames of 84 x 84 pixels, all zero but for the first pixel of the
    last frame. *)
Definition lit_frames (p : R) : image :=
  [repeat (zeros 84) 84; repeat (zeros 84) 84;
   (p :: zeros 83) :: repeat (zeros 84) 83].

(** Two all-zero frames of 84 x 84 pixels. *)
Definition zero_frames : image := repeat (repeat (zeros 84) 84) 2.

(** The message of a refused reshape. *)
Definition reshape_error : exn := RuntimeError "shape is invalid for input size".

(** The integers an int64 tensor holds.  [make_action] packs the actions
    and one step into tensors of dtype [torch.long] / [torch.int64], and
    torch refuses a Python [int] outside this range; the statements that say
    when a query is built are about trajectories whose actions and steps lie
    in it. *)
Definition int64 (z : Z) : Prop := (- 2 ^ 63 <= z < 2 ^ 63)%Z.

(** An environment that also keeps the rewards it has handed out since the
    last reset. *)
Section Logged.
Variable Raw : Type.
Variable Env : Type.
Variable env_reset : Env -> Env.
Variable env_step : Env -> Z -> Env * (Raw * Q * bool).
Variable env_render : Env -> Env.

Definition logged_reset (e : Env * list Q) : Env * list Q :=
  (env_reset (fst e), []).

Definition logged_step (e : Env * list Q) (action : Z)
  : (Env * list Q) * (Raw * Q * bool) :=
  let '(env, out) := env_step (fst e) action in
  ((env, snd e ++ [snd (fst out)]), out).

Definition logged_render (e : Env * list Q) : Env * list Q :=
  (env_render (fst e), snd e).

End Logged.

(** The rewards handed out since the reset: as many as the step counter
    says, and all but the first are in [sum_reward]. *)
Definition accounted {Obs Env : Type} (st : Play Obs (Env * list Q)) : Prop :=
  Z.of_nat (length (snd (p_env st))) = p_step st /\
  exists first rest,
    snd (p_env st) = first :: rest /\ (p_sum_reward st == sumQ rest)%Q.

(** An episode of the separate-games arm with its rewards divided by their
    total, the other arrays as they are. *)
Definition normalize_episode {Frame : Type} (p : Episode Frame Q)
  : Episode Frame fnum :=
  {| e_observations := e_observations p;
     e_next_observations := e_next_observations p;
     e_actions := e_actions p;
     e_rewards := normalized (e_rewards p);
     e_terminals := e_terminals p |}.

(** The variables of the mixed-games loop that correspond to those of the
    separate-games loop, when [paths0] was saved before. *)
Definition mix_of {Frame : Type} (paths0 : list (Episode Frame fnum))
    (st : SepState Frame) : MixState Frame :=
  {| m_data := s_data st;
     m_episode_step := s_episode_step st;
     m_sum_reward := total_reward (b_rewards (s_data st));
     m_paths := paths0 ++ map (@normalize_episode Frame) (s_paths st) |}.

(** The five arrays of an episode have one entry per sample, and there is
    at least one sample. *)
Definition parallel {Frame Rw : Type} (p : Episode Frame Rw) : Prop :=
  e_rewards p <> [] /\
  length (e_observations p) = length (e_rewards p) /\
  length (e_next_observations p) = length (e_rewards p) /\
  length (e_actions p) = length (e_rewards p) /\
  length (e_terminals p) = length (e_rewards p).

(** The terminal flags of an episode that was closed by its first set flag
    or, failing that, when it reached [cap] samples. *)
Definition cut_at (cap : Z) (terminals : list bool) : Prop :=
  exists front last,
    terminals = front ++ [last] /\
    Forall (fun t => t = false) front /\
    (len terminals <= cap)%Z /\
    (last = true \/ len terminals = cap).

(** The episodes of one dataset without a ['timeouts'] key: the first may
    reach 4097 samples, every later one 4096. *)
Definition episodes_cut {Frame Rw : Type} (paths : list (Episode Frame Rw))
  : Prop :=
  match paths with
  | [] => True
  | p :: ps =>
      cut_at 4097 (e_terminals p) /\
      Forall (fun q => cut_at 4096 (e_terminals q)) ps
  end.


(** The samples saved so far, key by key: the arrays of the finished
    episodes followed by those of the episode under construction are the
    first [k] entries of the dataset arrays. *)
Definition saved_prefix {Frame : Type} (dataset : D4RL Frame) (k : nat)
    (paths : list (Episode Frame Q)) (data_ : Buffer Frame) : Prop :=
  concat (map (@e_observations Frame Q) paths) ++ b_observations data_
  = firstn k (d_observations dataset) /\
  concat (map (@e_actions Frame Q) paths) ++ b_actions data_
  = firstn k (d_actions dataset) /\
  concat (map (@e_rewards Frame Q) paths) ++ b_rewards data_
  = firstn k (d_rewards dataset) /\
  concat (map (@e_terminals Frame Q) paths) ++ b_terminals data_
  = firstn k (d_terminals dataset).

(** The lists of an episode under construction have the same length. *)
Definition buffer_parallel {Frame : Type} (data_ : Buffer Frame) : Prop :=
  length (b_observations data_) = length (b_rewards data_) /\
  length (b_next_observations data_) = length (b_rewards data_) /\
  length (b_actions data_) = length (b_rewards data_) /\
  length (b_terminals data_) = length (b_rewards data_).

(** The episode under construction after [k] samples holds no sample that
    closes an episode: none of its terminal flags is set and, with a
    ['timeouts'] key, none of the timeout flags of its samples (the last
    samples among the first [k]); without the key it is shorter than the
    cap of its position, 4097 samples for the first episode of a dataset
    and 4096 for a later one. *)
Definition open_episode {Frame : Type} (dataset : D4RL Frame) (k : nat)
    (paths : list (Episode Frame Q)) (data_ : Buffer Frame) : Prop :=
  Forall (fun t => t = false) (b_terminals data_) /\
  match d_timeouts dataset with
  | Some timeouts =>
      Forall (fun f => f = false)
             (skipn (k - length (b_terminals data_)) (firstn k timeouts))
  | None =>
      (len (b_terminals data_)
       < match paths with [] => 4097 | _ :: _ => 4096 end)%Z
  end.

(** The same, on the variables of the separate-games loop after [k] turns:
    without a ['timeouts'] key the step counter is the length of the episode
    under construction, plus one once an episode was saved, and has not
    passed 4096. *)
Definition open_invariant {Frame : Type} (dataset : D4RL Frame) (k : nat)
    (st : SepState Frame) : Prop :=
  Forall (fun t => t = false) (b_terminals (s_data st)) /\
  (length (b_terminals (s_data st)) <= k)%nat /\
  match d_timeouts dataset with
  | Some timeouts =>
      Forall (fun f => f = false)
             (skipn (k - length (b_terminals (s_data st))) (firstn k timeouts))
  | None =>
      (s_episode_step st
       = len (b_terminals (s_data st))
         + match s_paths st with [] => 0 | _ :: _ => 1 end)%Z /\
      (s_episode_step st <= 4096)%Z
  end.

(** A dataset whose processed half ends inside an episode: sample 1 is
    terminal, samples 2 to 4 belong to an episode that is never closed. *)
Definition tail_dataset : D4RL string :=
  {| d_observations := ["f0"; "f1"; "f2"; "f3"; "f4"; "f5"; "f6"; "f7"; "f8";
                        "f9"];
     d_actions := [0; 1; 0; 1; 2; 0; 0; 0; 0; 0]%Z;
     d_rewards := [0; 1; 2; 0; 3; 0; 0; 0; 0; 0]%Q;
     d_terminals := [false; true; false; false; false; false; false; true;
                     false; false];
     d_timeouts := None |}.

(** The same episodes when no terminal flag is set: their exact lengths. *)
Definition episodes_full {Frame Rw : Type} (paths : list (Episode Frame Rw))
  : Prop :=
  match paths with
  | [] => True
  | p :: ps =>
      len (e_terminals p) = 4097%Z /\
      Forall (fun q => len (e_terminals q) = 4096%Z) ps
  end.

(** The flags that close an episode when the dataset has a ['timeouts']
    key: [bool(terminals[i])] or [timeouts[i]]. *)
Definition end_flags {Frame : Type} (dataset : D4RL Frame)
    (timeouts : list bool) : list bool :=
  zip_with orb (d_terminals dataset) timeouts.

(** The lengths of the runs of samples that end at a set flag, in order;
    [cur] samples are pending, and what follows the last set flag is left
    out. *)
Fixpoint split_lengths (cur : nat) (flags : list bool) : list nat :=
  match flags with
  | [] => []
  | flag :: rest =>
      if flag then S cur :: split_lengths 0 rest
      else split_lengths (S cur) rest
  end.

(** A dataset with a ['timeouts'] key: sample 0 times out, sample 3 is
    terminal. *)
Definition timed_dataset : D4RL string :=
  {| d_observations := ["f0"; "f1"; "f2"; "f3"; "f4"; "f5"; "f6"; "f7"];
     d_actions := [0; 1; 0; 1; 0; 0; 0; 0]%Z;
     d_rewards := [0; 0; 1; 3; 0; 0; 0; 0]%Q;
     d_terminals := [false; false; false; true; false; false; false; false];
     d_timeouts := Some [true; false; false; false; false; false; false;
                         false] |}.

(** The attention weights of one head, as computed in the body of
    [MaskedCausalAttention.forward]: scores, causal mask, softmax. *)
Definition attention_weights (max_T D : nat) (q k : list vec) : list (list R) :=
  map softmax (masked_fill (tril_ones max_T) (scores D q k)).

(* ================================================================== *)
(** * Part II.  Properties                                             *)
(* ================================================================== *)

(** ** Lists, indexing and slicing *)

Section ListFacts.
Context {A : Type}.

Lemma list_set_length (xs : list A) (i : nat) (v : A) :
  length (list_set xs i v) = length xs.
Proof.
  revert i; induction xs as [| x xs IH]; intros [| i]; simpl; auto.
Qed.

Lemma list_set_app (xs ys : list A) (y v : A) :
  list_set (xs ++ y :: ys) (length xs) v = xs ++ v :: ys.
Proof.
  induction xs as [| x xs IH]; simpl; [reflexivity | now rewrite IH].
Qed.

Lemma list_set_twice (xs : list A) (i : nat) (u v : A) :
  list_set (list_set xs i u) i v = list_set xs i v.
Proof.
  revert i; induction xs as [| x xs IH]; intros [| i]; simpl; auto.
  now rewrite IH.
Qed.

Lemma list_set_same (xs : list A) (i : nat) (d : A) :
  list_set xs i (nth i xs d) = xs.
Proof.
  revert i; induction xs as [| x xs IH]; intros [| i]; simpl; auto.
  now rewrite IH.
Qed.

Lemma nth_list_set (xs : list A) (i : nat) (v d : A) :
  (i < length xs)%nat -> nth i (list_set xs i v) d = v.
Proof.
  revert i; induction xs as [| x xs IH]; intros [| i] H; simpl in *;
    try lia; auto.
  apply IH; lia.
Qed.

Lemma py_slice_from_neg (xs : list A) (c : Z) :
  (0 < c)%Z ->
  py_slice_from xs (- c) = skipn (length xs - Z.to_nat c) xs.
Proof.
  intros Hc. unfold py_slice_from.
  destruct (- c <? 0)%Z eqn:E; [| apply Z.ltb_ge in E; lia].
  f_equal. lia.
Qed.

Lemma py_slice_from_zero (xs : list A) : py_slice_from xs 0 = xs.
Proof. reflexivity. Qed.

Lemma length_py_slice_from_neg (xs : list A) (c : Z) :
  (0 < c <= len xs)%Z -> len (py_slice_from xs (- c)) = c.
Proof.
  intros Hc. unfold len in *. rewrite py_slice_from_neg by lia.
  rewrite length_skipn. lia.
Qed.

Lemma last_n_spec (n : nat) (xs : list A) :
  (n <= length xs)%nat ->
  exists front, xs = front ++ last_n n xs /\ length (last_n n xs) = n.
Proof.
  intros H. exists (firstn (length xs - n) xs). unfold last_n. split.
  - now rewrite firstn_skipn.
  - rewrite length_skipn. lia.
Qed.

End ListFacts.

Lemma nth_map_seq {B : Type} (f : nat -> B) (n i : nat) (d : B) :
  (i < n)%nat -> nth i (map f (seq 0 n)) d = f i.
Proof.
  intros Hi.
  rewrite (nth_indep _ d (f 0%nat)) by (now rewrite length_map, length_seq).
  rewrite (map_nth f). now rewrite seq_nth.
Qed.

(** ** get_returns *)

Section GetReturns.
Local Open Scope Q_scope.

Lemma get_returns_inner_spec (rewards : list Q) (i : nat) :
  forall (js : list nat) (rtg : list Q),
    (i < length rtg)%nat ->
    fold_left (fun rtg j => list_set rtg i (nth i rtg 0 + nth j rewards 0))
              js rtg
    = list_set rtg i
        (fold_left (fun acc j => acc + nth j rewards 0) js (nth i rtg 0)).
Proof.
  induction js as [| j js IH]; intros rtg Hi; simpl.
  - now rewrite list_set_same.
  - rewrite IH by (rewrite list_set_length; exact Hi).
    rewrite list_set_twice, nth_list_set by exact Hi.
    reflexivity.
Qed.

Lemma get_returns_prefix (rewards : list Q) (target : Q) (n : nat) :
  forall m, (m <= n)%nat ->
    fold_left
      (fun returns_to_go i =>
         let returns_to_go := get_returns_inner rewards i returns_to_go in
         list_set returns_to_go i (target - nth i returns_to_go 0))
      (seq 0 m) (repeat 0 n)
    = map (fun i => target - accumulated rewards i) (seq 0 m)
      ++ repeat 0 (n - m).
Proof.
  induction m as [| m IH]; intros Hm.
  - simpl. now rewrite Nat.sub_0_r.
  - rewrite seq_S, fold_left_app, IH by lia. simpl.
    set (done := map (fun i => target - accumulated rewards i) (seq 0 m)).
    assert (Hlen : length done = m)
      by (unfold done; now rewrite length_map, length_seq).
    replace (n - m)%nat with (S (n - S m)) by lia. simpl.
    unfold get_returns_inner.
    rewrite get_returns_inner_spec
      by (rewrite length_app, Hlen; simpl; lia).
    rewrite list_set_twice.
    assert (Hm0 : forall v, nth m (list_set (done ++ 0 :: repeat 0 (n - S m)) m v) 0 = v).
    { intros v. apply nth_list_set. rewrite length_app, Hlen. simpl. lia. }
    rewrite Hm0.
    assert (H0 : nth m (done ++ 0 :: repeat 0 (n - S m)) 0 = 0).
    { rewrite app_nth2 by lia. now rewrite Hlen, Nat.sub_diag. }
    rewrite H0.
    pose proof (list_set_app done (repeat 0 (n - S m)) 0) as Hset.
    rewrite Hlen in Hset. rewrite Hset.
    rewrite map_app. simpl. rewrite <- app_assoc. reflexivity.
Qed.

(** Closed form of the array built by the two loops. *)
Lemma get_returns_closed (rewards : list Q) (target : Q) :
  get_returns rewards target
  = map (fun i => target - accumulated rewards i) (seq 0 (length rewards)).
Proof.
  unfold get_returns. rewrite get_returns_prefix by lia.
  now rewrite Nat.sub_diag, app_nil_r.
Qed.

Lemma get_returns_length (rewards : list Q) (target : Q) :
  length (get_returns rewards target) = length rewards.
Proof. now rewrite get_returns_closed, length_map, length_seq. Qed.

Lemma fold_right_Qplus_app (xs ys : list Q) :
  fold_right Qplus 0 (xs ++ ys)
  == fold_right Qplus 0 xs + fold_right Qplus 0 ys.
Proof.
  induction xs as [| x xs IH]; simpl; [ring | rewrite IH; ring].
Qed.

Lemma accumulated_from (rewards : list Q) (i : nat) (a : Q) :
  (i <= length rewards)%nat ->
  fold_left (fun acc j => acc + nth j rewards 0) (seq 0 i) a
  == a + sum_before rewards i.
Proof.
  unfold sum_before. induction i as [| i IH]; intros Hi.
  - simpl. ring.
  - rewrite seq_S, fold_left_app. cbn [fold_left Nat.add]. rewrite IH by lia.
    assert (Hf : firstn (S i) rewards = firstn i rewards ++ [nth i rewards 0]).
    { clear IH. revert i Hi. induction rewards as [| r rs IHr]; intros i Hi.
      - simpl in Hi. lia.
      - destruct i as [| i]; [reflexivity |].
        simpl in Hi. change (firstn (S (S i)) (r :: rs))
          with (r :: firstn (S i) rs).
        rewrite IHr by lia. reflexivity. }
    rewrite Hf, fold_right_Qplus_app. simpl. ring.
Qed.

Lemma accumulated_sum_before (rewards : list Q) (i : nat) :
  (i <= length rewards)%nat -> accumulated rewards i == sum_before rewards i.
Proof.
  intros Hi. unfold accumulated. rewrite accumulated_from by exact Hi. ring.
Qed.

Lemma get_returns_nth (rewards : list Q) (target : Q) (i : nat) :
  (i < length rewards)%nat ->
  nth i (get_returns rewards target) 0 == target - sum_before rewards i.
Proof.
  intros Hi. rewrite get_returns_closed, nth_map_seq by exact Hi.
  rewrite accumulated_sum_before by lia. ring.
Qed.

Lemma sum_before_ones (n i : nat) :
  (i <= n)%nat -> sum_before (repeat 1 n) i == inject_Z (Z.of_nat i).
Proof.
  unfold sum_before. revert n. induction i as [| i IH]; intros n Hi.
  - reflexivity.
  - destruct n as [| n]; [lia |].
    simpl repeat. simpl firstn. simpl fold_right. rewrite IH by lia.
    rewrite Nat2Z.inj_succ. unfold Z.succ. rewrite inject_Z_plus. ring.
Qed.

Lemma sum_before_nonneg (rewards : list Q) (j : nat) :
  Forall (fun r => 0 <= r) rewards -> 0 <= sum_before rewards j.
Proof.
  unfold sum_before. intros Hpos. revert j.
  induction Hpos as [| r rs Hr Hrs IH]; intros [| j]; simpl;
    try apply Qle_refl.
  specialize (IH j). lra.
Qed.

Lemma sum_before_mono (rewards : list Q) (i j : nat) :
  Forall (fun r => 0 <= r) rewards ->
  (i <= j)%nat -> sum_before rewards i <= sum_before rewards j.
Proof.
  intros Hpos. revert i j.
  induction Hpos as [| r rs Hr Hrs IH]; intros i j Hij.
  - unfold sum_before. rewrite !firstn_nil. apply Qle_refl.
  - destruct i as [| i].
    + apply (@sum_before_nonneg (r :: rs) j). now constructor.
    + destruct j as [| j]; [lia |].
      specialize (IH i j ltac:(lia)). unfold sum_before in *. simpl. lra.
Qed.

End GetReturns.

(** C3.  Entry [i] of the array returned by [get_returns] is the target
    return minus the sum of the rewards at positions strictly before [i]
    (and the array has one entry per reward); for rewards all equal to 1 and
    a target of 10 the entries are 10, 9, 8, ... *)
Theorem get_returns_entry :
  (forall (rewards : list Q) (target_return : Q) (i : nat),
      (i < length rewards)%nat ->
      length (get_returns rewards target_return) = length rewards /\
      (nth i (get_returns rewards target_return) 0
       == target_return - sum_before rewards i)%Q) /\
  (forall (n i : nat),
      (i < n)%nat ->
      (nth i (get_returns (repeat 1%Q n) 10) 0
       == 10 - inject_Z (Z.of_nat i))%Q) /\
  get_returns [1; 1; 1; 1; 1]%Q 10 = [10; 9; 8; 7; 6]%Q.
Proof.
  split; [| split].
  - intros rewards target i Hi. split.
    + apply get_returns_length.
    + now apply get_returns_nth.
  - intros n i Hi.
    rewrite get_returns_nth by (now rewrite repeat_length).
    rewrite sum_before_ones by lia. reflexivity.
  - reflexivity.
Qed.

Lemma get_returns_entry_witness :
  (1 < length [3; 0; 2]%Q)%nat /\
  (nth 1 (get_returns [3; 0; 2]%Q 10) 0 == 10 - sum_before [3; 0; 2]%Q 1)%Q.
Proof.
  split; [simpl; lia |].
  apply (proj1 get_returns_entry [3; 0; 2]%Q 10%Q 1%nat). simpl; lia.
Defined.

(** C4.  For rewards that are all non-negative the returns-to-go never
    increase along the window. *)
Theorem get_returns_non_increasing :
  forall (rewards : list Q) (target_return : Q) (i j : nat),
    Forall (fun r => 0 <= r)%Q rewards ->
    (i <= j)%nat -> (j < length rewards)%nat ->
    (nth j (get_returns rewards target_return) 0
     <= nth i (get_returns rewards target_return) 0)%Q.
Proof.
  intros rewards target i j Hpos Hij Hj.
  rewrite !get_returns_nth by lia.
  pose proof (sum_before_mono Hpos Hij). lra.
Qed.

Lemma get_returns_non_increasing_witness :
  Forall (fun r => 0 <= r)%Q [1; 0; 5]%Q /\
  (0 <= 2)%nat /\ (2 < length [1; 0; 5]%Q)%nat /\
  (nth 2 (get_returns [1; 0; 5]%Q 200) 0
   <= nth 0 (get_returns [1; 0; 5]%Q 200) 0)%Q.
Proof.
  assert (Hpos : Forall (fun r => 0 <= r)%Q [1; 0; 5]%Q)
    by (repeat constructor; discriminate).
  split; [exact Hpos | split; [lia | split; [simpl; lia |]]].
  apply (@get_returns_non_increasing [1; 0; 5]%Q 200%Q 0%nat 2%nat).
  - exact Hpos.
  - lia.
  - simpl; lia.
Defined.

(** ** make_action *)

Lemma reshape_ok_nonneg (numel : Z) (dims : list Z) :
  Forall (fun d => 0 <= d)%Z dims ->
  reshape_ok numel dims = (prodZ dims =? numel)%Z.
Proof.
  intros Hd. unfold reshape_ok.
  assert (Hf : filter (fun d => negb (d =? -1)%Z) dims = dims).
  { induction Hd as [| d ds Hd0 _ IH]; simpl; [reflexivity |].
    destruct (d =? -1)%Z eqn:E; [apply Z.eqb_eq in E; lia |].
    simpl. now rewrite IH. }
  rewrite Hf, Nat.sub_diag.
  assert (Hall : forallb (fun d => (0 <=? d)%Z) dims = true).
  { apply forallb_forall. rewrite Forall_forall in Hd.
    intros d Hin. apply Z.leb_le. now apply Hd. }
  now rewrite Hall.
Qed.

Lemma py_index_neg_ok {A : Type} (xs : list A) (c : Z) :
  (0 < c <= len xs)%Z -> exists x, py_index xs (- c) = Ok x.
Proof.
  unfold len, py_index. intros Hc.
  destruct (- c <? 0)%Z eqn:E; [| apply Z.ltb_ge in E; lia].
  destruct ((0 <=? Z.of_nat (length xs) + - c)
            && (Z.of_nat (length xs) + - c <? Z.of_nat (length xs)))%Z eqn:E2.
  - destruct (nth_error xs (Z.to_nat (Z.of_nat (length xs) + - c))) eqn:E3.
    + eexists; reflexivity.
    + apply nth_error_None in E3. lia.
  - apply andb_false_iff in E2 as [E2 | E2];
      [apply Z.leb_gt in E2 | apply Z.ltb_ge in E2]; lia.
Qed.

Section MakeAction.
Variable Obs : Type.
Variable random_action : Z.
Variable model_sample : Query Obs -> Z.

(** The list of steps is the same after every call. *)
Lemma make_action_steps (trajectory : Trajectory Obs) (context_len : Z) :
  steps (fst (make_action random_action model_sample trajectory context_len))
  = steps trajectory.
Proof.
  unfold make_action, make_action_query.
  destruct (len (observations trajectory) =? 0)%Z; [reflexivity |].
  destruct (len (observations trajectory) <? context_len)%Z; reflexivity.
Qed.

(** With fewer observations than [context_len] nothing is assigned. *)
Lemma make_action_filling (trajectory : Trajectory Obs) (context_len : Z) :
  (len (observations trajectory) < context_len)%Z ->
  fst (make_action random_action model_sample trajectory context_len)
  = trajectory.
Proof.
  intros H. unfold make_action, make_action_query.
  destruct (len (observations trajectory) =? 0)%Z; [reflexivity |].
  apply Z.ltb_lt in H. now rewrite H.
Qed.

(** The sliding-window arm, for a window of at least two steps. *)
Lemma make_action_query_full (trajectory : Trajectory Obs) (context_len : Z) :
  well_formed trajectory ->
  (2 <= context_len <= len (observations trajectory))%Z ->
  let c := Z.to_nat context_len in
  let trajectory' :=
    {| observations := last_n c (observations trajectory);
       actions := last_n (c - 1) (actions trajectory);
       rewards := last_n c (rewards trajectory);
       steps := steps trajectory |} in
  exists t0,
    make_action_query trajectory context_len
    = (trajectory',
       Ok {| q_states := observations trajectory';
             q_actions := actions trajectory';
             q_timesteps := t0;
             q_rtgs := get_returns (rewards trajectory')
                                   default_target_return |}) /\
    length (observations trajectory') = c /\
    length (rewards trajectory') = c /\
    length (get_returns (rewards trajectory') default_target_return) = c /\
    length (actions trajectory') = (c - 1)%nat.
Proof.
  intros (Hr & Hs & Ha) Hc c trajectory'. unfold len in Hc.
  assert (Hlo : length (last_n c (observations trajectory)) = c)
    by (unfold last_n; rewrite length_skipn; lia).
  assert (Hlr : length (last_n c (rewards trajectory)) = c)
    by (unfold last_n; rewrite length_skipn; lia).
  assert (Hla : length (last_n (c - 1) (actions trajectory)) = (c - 1)%nat)
    by (unfold last_n; rewrite length_skipn; lia).
  assert (So : forall xs : list Obs, py_slice_from xs (- context_len) = last_n c xs)
    by (intros xs; apply py_slice_from_neg; lia).
  assert (Sq : forall xs : list Q, py_slice_from xs (- context_len) = last_n c xs)
    by (intros xs; apply py_slice_from_neg; lia).
  assert (Sa : forall xs : list Z,
             py_slice_from xs (- context_len + 1) = last_n (c - 1) xs).
  { intros xs. replace (- context_len + 1)%Z with (- (context_len - 1))%Z by lia.
    rewrite py_slice_from_neg by lia. unfold last_n. f_equal. lia. }
  assert (Io : forall (B : Type) (n : nat) (xs : list B),
             length xs = n -> last_n n xs = xs).
  { intros B n xs E. unfold last_n. now rewrite E, Nat.sub_diag. }
  destruct (@py_index_neg_ok Z (steps trajectory) context_len) as [t0 Ht0];
    [unfold len; lia |].
  exists t0. split; [| repeat split; simpl; auto].
  2: { now rewrite get_returns_length. }
  unfold make_action_query.
  destruct (len (observations trajectory) <? context_len)%Z eqn:E;
    [apply Z.ltb_lt in E; unfold len in E; lia |].
  cbn [observations actions rewards steps].
  rewrite !So, !Sa, !Sq.
  rewrite (Io _ c (last_n c (observations trajectory)) Hlo).
  rewrite (Io _ (c - 1)%nat (last_n (c - 1) (actions trajectory)) Hla).
  rewrite (Io _ c (get_returns (last_n c (rewards trajectory)) default_target_return))
    by (now rewrite get_returns_length).
  unfold reshape_check, len, frame_stack, state_dim.
  rewrite Hlo, Hla, get_returns_length, Hlr.
  rewrite !reshape_ok_nonneg by (repeat constructor; lia).
  unfold prodZ; cbn [fold_right].
  replace (1 * (context_len * (4 * (84 * (84 * 1)))) =? Z.of_nat c * (4 * 84 * 84))%Z
    with true by (symmetry; apply Z.eqb_eq; lia).
  replace (1 * ((context_len - 1) * (1 * 1)) =? Z.of_nat (c - 1))%Z
    with true by (symmetry; apply Z.eqb_eq; lia).
  replace (1 * (context_len * (1 * 1)) =? Z.of_nat c)%Z
    with true by (symmetry; apply Z.eqb_eq; lia).
  cbn [bind Ok]. rewrite Ht0. reflexivity.
Qed.

(** The same for the whole call: the action is the one sampled from the
    query built on the truncated trajectory. *)
Lemma make_action_full (trajectory : Trajectory Obs) (context_len : Z) :
  well_formed trajectory ->
  (2 <= context_len <= len (observations trajectory))%Z ->
  let c := Z.to_nat context_len in
  let trajectory' :=
    {| observations := last_n c (observations trajectory);
       actions := last_n (c - 1) (actions trajectory);
       rewards := last_n c (rewards trajectory);
       steps := steps trajectory |} in
  exists t0,
    make_action random_action model_sample trajectory context_len
    = (trajectory',
       Ok (model_sample
             {| q_states := observations trajectory';
                q_actions := actions trajectory';
                q_timesteps := t0;
                q_rtgs := get_returns (rewards trajectory')
                                      default_target_return |})).
Proof.
  intros Hwf Hc c trajectory'.
  destruct (make_action_query_full Hwf Hc) as (t0 & Hq & _).
  exists t0. unfold make_action.
  destruct (len (observations trajectory) =? 0)%Z eqn:E;
    [apply Z.eqb_eq in E; lia |].
  fold c in Hq. rewrite Hq. reflexivity.
Qed.

End MakeAction.

(** C5 (failing input).  [make_action] with [context_len = 1] on the
    trajectory of the first two environment steps: two observations are held,
    at least [context_len], yet the call leaves one action in the window where
    [context_len - 1 = 0] are due, and the reshape to (1, 0, 1) raises. *)
Theorem make_action_window_context_len_one :
  forall (random_action : Z) (model_sample : Query nat -> Z),
    let trajectory := get_trajectory (first_step 10%nat 1%Q) 11%nat 2%Z 0%Q 1%Z in
    well_formed trajectory /\
    (1 <= len (observations trajectory))%Z /\
    make_action random_action model_sample trajectory 1
    = ({| observations := [11%nat]; actions := [2%Z]; rewards := [0%Q];
          steps := [0%Z; 1%Z] |},
       Raise (RuntimeError "shape is invalid for input size")) /\
    length (actions (fst (make_action random_action model_sample trajectory 1)))
    <> Z.to_nat (1 - 1).
Proof.
  intros random_action model_sample trajectory.
  repeat split; simpl; try lia; discriminate.
Qed.

(** C10 (failing input).  [make_action] with [context_len = 1] on a
    trajectory of three steps: observations and rewards are cut to their last
    entry and the steps are kept, but the list of actions is assigned
    [actions[0:]], that is, it keeps both entries instead of its last
    [context_len - 1 = 0]. *)
Theorem make_action_mutation_context_len_one :
  forall (random_action : Z) (model_sample : Query nat -> Z),
    let trajectory :=
      get_trajectory (get_trajectory (first_step 10%nat 1%Q) 11%nat 2%Z 0%Q 1%Z)
                     12%nat 3%Z 5%Q 2%Z in
    let after := fst (make_action random_action model_sample trajectory 1) in
    observations after = last_n 1 (observations trajectory) /\
    rewards after = last_n 1 (rewards trajectory) /\
    steps after = steps trajectory /\
    actions after = [2%Z; 3%Z] /\
    actions after <> last_n (1 - 1) (actions trajectory).
Proof.
  intros random_action model_sample trajectory after.
  repeat split; discriminate.
Qed.

(** ** Episode construction loops *)

Lemma py_index_nat {A : Type} (xs : list A) (i : nat) (x : A) :
  py_index xs (Z.of_nat i) = Ok x <-> nth_error xs i = Some x.
Proof.
  unfold py_index.
  destruct (Z.of_nat i <? 0)%Z eqn:E; [apply Z.ltb_lt in E; lia |].
  rewrite Nat2Z.id.
  destruct ((0 <=? Z.of_nat i) && (Z.of_nat i <? Z.of_nat (length xs)))%Z eqn:E2.
  - destruct (nth_error xs i); unfold Ok, Raise; split; intros H;
      inversion H; subst; auto.
  - split; intros H; [discriminate |].
    assert (i < length xs)%nat by (apply nth_error_Some; congruence).
    apply andb_false_iff in E2 as [E2 | E2];
      [apply Z.leb_gt in E2 | apply Z.ltb_ge in E2]; lia.
Qed.

Lemma py_index_out {A : Type} (xs : list A) (i : nat) :
  (length xs <= i)%nat -> py_index xs (Z.of_nat i) = Raise IndexError.
Proof.
  intros H. unfold py_index.
  destruct (Z.of_nat i <? 0)%Z eqn:E; [apply Z.ltb_lt in E; lia |].
  destruct ((0 <=? Z.of_nat i) && (Z.of_nat i <? Z.of_nat (length xs)))%Z eqn:E2;
    [| reflexivity].
  apply andb_true_iff in E2 as [_ E2]. apply Z.ltb_lt in E2. lia.
Qed.

Lemma bind_ok {A B : Type} (r : result A) (k : A -> result B) (b : B) :
  bind r k = Ok b -> exists a, r = Ok a /\ k a = Ok b.
Proof.
  destruct r as [e | a]; simpl; intros H; [discriminate |].
  exists a. split; [reflexivity | exact H].
Qed.

Lemma run_loop_raise {St : Type} (step : St -> nat -> result St)
    (range : list nat) (e : exn) :
  fold_left (fun acc i => st <- acc ;; step st i) range (Raise e) = Raise e.
Proof. induction range as [| i range IH]; simpl; auto. Qed.

Lemma run_loop_snoc {St : Type} (step : St -> nat -> result St)
    (range : list nat) (i : nat) (init : St) :
  run_loop step (range ++ [i]) init
  = (st <- run_loop step range init ;; step st i).
Proof. unfold run_loop. now rewrite fold_left_app. Qed.

(** Loop invariants over [range(n)]. *)
Lemma run_loop_invariant {St : Type} (step : St -> nat -> result St)
    (P : nat -> St -> Prop) (init : St) :
  P 0%nat init ->
  forall n,
    (forall k st st', (k < n)%nat -> P k st -> step st k = Ok st' -> P (S k) st') ->
    forall st, run_loop step (seq 0 n) init = Ok st -> P n st.
Proof.
  intros H0. induction n as [| n IH]; intros Hstep st Hrun.
  - unfold run_loop in Hrun. simpl in Hrun. inversion Hrun. now subst.
  - rewrite seq_S, run_loop_snoc in Hrun. simpl in Hrun.
    apply bind_ok in Hrun as (st0 & Hrun0 & Hk).
    apply (Hstep n st0 st); [lia | | exact Hk].
    apply IH; [| exact Hrun0].
    intros k s s' Hlt. apply Hstep. lia.
Qed.

Section DatasetFacts.
Variable Frame : Type.
Implicit Type dataset : D4RL Frame.

(** The look-ahead of sample [i]: the next observation when there is one,
    the observation itself at the last index. *)
Lemma next_observation_inside dataset (i : nat) (o : Frame) :
  nth_error (d_observations dataset) (S i) = Some o ->
  next_observation dataset (Z.of_nat i) = Ok o.
Proof.
  intros H. unfold next_observation.
  replace (Z.of_nat i + 1)%Z with (Z.of_nat (S i)) by lia.
  apply py_index_nat in H. now rewrite H.
Qed.

Lemma next_observation_last dataset (i : nat) (o : Frame) :
  S i = length (d_observations dataset) ->
  nth_error (d_observations dataset) i = Some o ->
  next_observation dataset (Z.of_nat i) = Ok o.
Proof.
  intros Hlast H. unfold next_observation.
  replace (Z.of_nat i + 1)%Z with (Z.of_nat (S i)) by lia.
  rewrite py_index_out by lia.
  now apply py_index_nat.
Qed.

Lemma append_sample_next dataset (i : nat) (data_ data_' : Buffer Frame) :
  append_sample dataset (Z.of_nat i) data_ = Ok data_' ->
  exists o r,
    next_observation dataset (Z.of_nat i) = Ok o /\
    nth_error (d_rewards dataset) i = Some r /\
    b_next_observations data_' = b_next_observations data_ ++ [o] /\
    b_rewards data_' = b_rewards data_ ++ [r].
Proof.
  unfold append_sample. intros H.
  apply bind_ok in H as (o & _ & H).
  apply bind_ok in H as (o' & Ho' & H).
  apply bind_ok in H as (a & _ & H).
  apply bind_ok in H as (r & Hr & H).
  apply bind_ok in H as (t & _ & H).
  inversion H; subst; clear H.
  exists o', r. repeat split; auto. now apply py_index_nat.
Qed.

Lemma separate_step_stored dataset (st st' : SepState Frame) (k : nat) :
  separate_step dataset st k = Ok st' ->
  exists o,
    next_observation dataset (Z.of_nat k) = Ok o /\
    stored_next (s_paths st') (s_data st')
    = stored_next (s_paths st) (s_data st) ++ [o].
Proof.
  unfold separate_step. intros H.
  apply bind_ok in H as (ends & _ & H).
  apply bind_ok in H as (data_ & Hd & H).
  apply append_sample_next in Hd as (o & r & Ho & _ & Hn & _).
  exists o. split; [exact Ho |].
  unfold stored_next.
  destruct ends; inversion H; subst; clear H; simpl.
  - rewrite map_app, concat_app. simpl.
    rewrite Hn, !app_nil_r, app_assoc. reflexivity.
  - rewrite Hn, app_assoc. reflexivity.
Qed.

Lemma mixed_step_stored dataset (st st' : MixState Frame) (k : nat) :
  mixed_step dataset st k = Ok st' ->
  exists o,
    next_observation dataset (Z.of_nat k) = Ok o /\
    stored_next (m_paths st') (m_data st')
    = stored_next (m_paths st) (m_data st) ++ [o].
Proof.
  unfold mixed_step. intros H.
  apply bind_ok in H as (ends & _ & H).
  apply bind_ok in H as (data_ & Hd & H).
  apply bind_ok in H as (r & _ & H).
  apply append_sample_next in Hd as (o & r' & Ho & _ & Hn & _).
  exists o. split; [exact Ho |].
  unfold stored_next.
  destruct ends; inversion H; subst; clear H; simpl.
  - rewrite map_app, concat_app. simpl.
    rewrite Hn, !app_nil_r, app_assoc. reflexivity.
  - rewrite Hn, app_assoc. reflexivity.
Qed.

Lemma look_ahead_S dataset (n : nat) :
  look_ahead dataset (S n)
  = look_ahead dataset n ++ [next_observation dataset (Z.of_nat n)].
Proof. unfold look_ahead. now rewrite seq_S, map_app. Qed.

Lemma separate_loop_stored dataset (n : nat) (st : SepState Frame) :
  run_loop (separate_step dataset) (seq 0 n) (separate_init Frame) = Ok st ->
  map Ok (stored_next (s_paths st) (s_data st)) = look_ahead dataset n.
Proof.
  apply (run_loop_invariant (separate_step dataset)
           (fun k st => map Ok (stored_next (s_paths st) (s_data st))
                        = look_ahead dataset k)).
  - reflexivity.
  - intros k s s' _ IH Hstep.
    apply separate_step_stored in Hstep as (o & Ho & Hs).
    now rewrite Hs, map_app, IH, look_ahead_S, Ho.
Qed.

Lemma mixed_loop_stored dataset (n : nat) (paths : list (Episode Frame fnum))
    (st : MixState Frame) :
  run_loop (mixed_step dataset) (seq 0 n) (mixed_init paths) = Ok st ->
  map Ok (stored_next (m_paths st) (m_data st))
  = map Ok (stored_next paths (empty_buffer Frame)) ++ look_ahead dataset n.
Proof.
  apply (run_loop_invariant (mixed_step dataset)
           (fun k st => map Ok (stored_next (m_paths st) (m_data st))
                        = map Ok (stored_next paths (empty_buffer Frame))
                          ++ look_ahead dataset k)).
  - simpl. now rewrite app_nil_r.
  - intros k s s' _ IH Hstep.
    apply mixed_step_stored in Hstep as (o & Ho & Hs).
    now rewrite Hs, map_app, IH, look_ahead_S, Ho, app_assoc.
Qed.

End DatasetFacts.

Section FallbackFacts.
Variable Frame : Type.
Implicit Type dataset : D4RL Frame.

(** Entry [i] of a store that agrees with the look-ahead of the first [n]
    samples. *)
Lemma stored_entry dataset (n : nat) (prev stored : list Frame) (i : nat) :
  map Ok stored = map Ok prev ++ look_ahead dataset n ->
  (i < n)%nat ->
  length stored = (length prev + n)%nat /\
  (forall o, nth_error (d_observations dataset) (S i) = Some o ->
             nth_error stored (length prev + i) = Some o) /\
  (S i = length (d_observations dataset) ->
   nth_error stored (length prev + i) = nth_error (d_observations dataset) i).
Proof.
  intros Hmap Hi.
  assert (Hlen : length stored = (length prev + n)%nat).
  { apply (f_equal (@length _)) in Hmap.
    unfold look_ahead in Hmap.
    now rewrite length_app, !length_map, length_seq in Hmap. }
  assert (Hnth : forall o, next_observation dataset (Z.of_nat i) = Ok o ->
                           nth_error stored (length prev + i) = Some o).
  { intros o Ho.
    assert (E : nth_error (map (@Ok Frame) stored) (length prev + i)
                = Some (Ok o)).
    { rewrite Hmap, nth_error_app2 by (rewrite length_map; lia).
      rewrite length_map.
      replace (length prev + i - length prev)%nat with i by lia.
      unfold look_ahead. rewrite nth_error_map.
      rewrite nth_error_seq.
      destruct (Nat.ltb_spec i n); [| lia]. simpl. now rewrite Ho. }
    rewrite nth_error_map in E.
    destruct (nth_error stored (length prev + i)); simpl in E;
      inversion E; reflexivity. }
  split; [exact Hlen | split].
  - intros o Ho. apply Hnth. now apply next_observation_inside.
  - intros Hlast.
    destruct (nth_error (d_observations dataset) i) as [o |] eqn:Eo.
    + apply Hnth. now apply next_observation_last.
    + apply nth_error_None in Eo. lia.
Qed.

(** Both loops run to their end on a dataset whose arrays reach over the
    processed samples. *)
Lemma py_index_in {B : Type} (xs : list B) (i : nat) :
  (i < length xs)%nat -> exists x, py_index xs (Z.of_nat i) = Ok x.
Proof.
  intros H. destruct (nth_error xs i) as [x |] eqn:E.
  - exists x. now apply py_index_nat.
  - apply nth_error_None in E. lia.
Qed.

Lemma next_observation_total dataset (i : nat) :
  (i < length (d_observations dataset))%nat ->
  exists o, next_observation dataset (Z.of_nat i) = Ok o.
Proof.
  intros H.
  destruct (nth_error (d_observations dataset) (S i)) as [o |] eqn:E.
  - exists o. now apply next_observation_inside.
  - apply nth_error_None in E.
    destruct (nth_error (d_observations dataset) i) as [o |] eqn:E'.
    + exists o. apply next_observation_last; [lia | exact E'].
    + apply nth_error_None in E'. lia.
Qed.

Lemma append_sample_total dataset (n i : nat) (data_ : Buffer Frame) :
  arrays_cover dataset n -> (i < n)%nat ->
  exists data_', append_sample dataset (Z.of_nat i) data_ = Ok data_'.
Proof.
  intros (Ho & Ha & Hr & Ht & _) Hi. unfold append_sample.
  destruct (@py_index_in _ (d_observations dataset) i) as [o Eo]; [lia |].
  destruct (@next_observation_total dataset i) as [o' Eo']; [lia |].
  destruct (@py_index_in _ (d_actions dataset) i) as [a Ea]; [lia |].
  destruct (@py_index_in _ (d_rewards dataset) i) as [r Er]; [lia |].
  destruct (@py_index_in _ (d_terminals dataset) i) as [t Et]; [lia |].
  rewrite Eo, Eo', Ea, Er, Et. simpl. eexists. reflexivity.
Qed.

Lemma episode_ends_total dataset (n i : nat) (episode_step : Z) :
  arrays_cover dataset n -> (i < n)%nat ->
  exists b, episode_ends dataset (Z.of_nat i) episode_step = Ok b.
Proof.
  intros (_ & _ & _ & Ht & Hto) Hi. unfold episode_ends.
  destruct (@py_index_in _ (d_terminals dataset) i) as [t Et]; [lia |].
  rewrite Et. simpl.
  destruct (d_timeouts dataset) as [timeouts |] eqn:E.
  - destruct (@py_index_in _ timeouts i) as [f Ef];
      [specialize (Hto timeouts eq_refl); lia |].
    rewrite Ef. simpl. eexists. reflexivity.
  - simpl. eexists. reflexivity.
Qed.

Lemma separate_step_total dataset (n i : nat) (st : SepState Frame) :
  arrays_cover dataset n -> (i < n)%nat ->
  exists st', separate_step dataset st i = Ok st'.
Proof.
  intros Hc Hi. unfold separate_step.
  destruct (@episode_ends_total dataset n i (s_episode_step st) Hc Hi) as [b Eb].
  destruct (@append_sample_total dataset n i (s_data st) Hc Hi) as [d Ed].
  rewrite Eb, Ed. simpl. destruct b; eexists; reflexivity.
Qed.

Lemma mixed_step_total dataset (n i : nat) (st : MixState Frame) :
  arrays_cover dataset n -> (i < n)%nat ->
  exists st', mixed_step dataset st i = Ok st'.
Proof.
  intros Hc Hi. unfold mixed_step.
  destruct (@episode_ends_total dataset n i (m_episode_step st) Hc Hi) as [b Eb].
  destruct (@append_sample_total dataset n i (m_data st) Hc Hi) as [d Ed].
  destruct Hc as (_ & _ & Hr & _).
  destruct (@py_index_in _ (d_rewards dataset) i) as [r Er]; [lia |].
  rewrite Eb, Ed, Er. simpl. destruct b; eexists; reflexivity.
Qed.

Lemma run_loop_total {St : Type} (step : St -> nat -> result St) (n : nat)
    (init : St) :
  (forall i st, (i < n)%nat -> exists st', step st i = Ok st') ->
  exists st, run_loop step (seq 0 n) init = Ok st.
Proof.
  induction n as [| n IH]; intros Hstep.
  - exists init. reflexivity.
  - destruct IH as [st Hst]; [intros i s Hi; apply Hstep; lia |].
    destruct (Hstep n st ltac:(lia)) as [st' Hst'].
    exists st'. rewrite seq_S, run_loop_snoc, Hst. exact Hst'.
Qed.

Lemma loops_total dataset :
  arrays_cover dataset (length (sample_range dataset)) ->
  (exists st, run_loop (separate_step dataset) (sample_range dataset)
                (separate_init Frame) = Ok st) /\
  (forall paths,
      exists st, run_loop (mixed_step dataset) (sample_range dataset)
                   (mixed_init paths) = Ok st).
Proof.
  unfold sample_range. rewrite length_seq. intros Hc. split.
  - apply run_loop_total. intros i st Hi.
    now apply (@separate_step_total dataset _ i st Hc).
  - intros paths. apply run_loop_total. intros i st Hi.
    now apply (@mixed_step_total dataset _ i st Hc).
Qed.

End FallbackFacts.

(** C7.  In both episode construction loops the next observation stored for
    a processed sample [i] is [observations[i+1]] when [i+1] is a valid index
    and [observations[i]] when [i] is the last valid index: the look-ahead
    returns there instead of raising, and the stores of both loops hold one
    such entry for every processed sample; both loops run to their end on a
    dataset whose arrays reach over the processed samples. *)
Theorem next_observation_fallback :
  forall (Frame : Type) (dataset : D4RL Frame),
    (forall (i : nat) (o : Frame),
        nth_error (d_observations dataset) (S i) = Some o ->
        next_observation dataset (Z.of_nat i) = Ok o) /\
    (forall (i : nat) (o : Frame),
        S i = length (d_observations dataset) ->
        nth_error (d_observations dataset) i = Some o ->
        next_observation dataset (Z.of_nat i) = Ok o) /\
    (forall (st : SepState Frame) (i : nat),
        run_loop (separate_step dataset) (sample_range dataset)
                 (separate_init Frame) = Ok st ->
        (i < length (sample_range dataset))%nat ->
        let stored := stored_next (s_paths st) (s_data st) in
        length stored = length (sample_range dataset) /\
        (forall o, nth_error (d_observations dataset) (S i) = Some o ->
                   nth_error stored i = Some o) /\
        (S i = length (d_observations dataset) ->
         nth_error stored i = nth_error (d_observations dataset) i)) /\
    (forall (paths : list (Episode Frame fnum)) (st : MixState Frame) (i : nat),
        run_loop (mixed_step dataset) (sample_range dataset)
                 (mixed_init paths) = Ok st ->
        (i < length (sample_range dataset))%nat ->
        let before := length (stored_next paths (empty_buffer Frame)) in
        let stored := stored_next (m_paths st) (m_data st) in
        length stored = (before + length (sample_range dataset))%nat /\
        (forall o, nth_error (d_observations dataset) (S i) = Some o ->
                   nth_error stored (before + i) = Some o) /\
        (S i = length (d_observations dataset) ->
         nth_error stored (before + i) = nth_error (d_observations dataset) i)) /\
    (arrays_cover dataset (length (sample_range dataset)) ->
     (exists st, run_loop (separate_step dataset) (sample_range dataset)
                   (separate_init Frame) = Ok st) /\
     (forall paths,
         exists st, run_loop (mixed_step dataset) (sample_range dataset)
                      (mixed_init paths) = Ok st)).
Proof.
  intros Frame dataset. split; [| split; [| split; [| split]]].
  - intros i o. apply next_observation_inside.
  - intros i o. apply next_observation_last.
  - intros st i Hrun Hi stored. unfold sample_range in *.
    rewrite length_seq in *.
    apply separate_loop_stored in Hrun.
    apply (@stored_entry Frame dataset _ [] stored i); [exact Hrun | exact Hi].
  - intros paths st i Hrun Hi before stored. unfold sample_range in *.
    rewrite length_seq in *.
    apply mixed_loop_stored in Hrun.
    apply (@stored_entry Frame dataset _ _ stored i); [exact Hrun | exact Hi].
  - apply loops_total.
Qed.

Lemma next_observation_fallback_witness :
  next_observation short_dataset 0 = Ok "f1" /\
  next_observation short_dataset 1 = Ok "f1" /\
  (exists st,
      run_loop (separate_step short_dataset) (sample_range short_dataset)
               (separate_init string) = Ok st /\
      nth_error (stored_next (s_paths st) (s_data st)) 1 = Some "f1") /\
  (exists st,
      run_loop (mixed_step short_dataset) (sample_range short_dataset)
               (mixed_init []) = Ok st /\
      nth_error (stored_next (m_paths st) (m_data st)) 1 = Some "f1").
Proof.
  pose proof (@next_observation_fallback string short_dataset)
    as (Hin & Hlast & Hsep & Hmix & _).
  split; [| split; [| split]].
  - apply (Hin 0%nat). reflexivity.
  - apply (Hlast 1%nat); reflexivity.
  - eexists. split; [reflexivity |].
    refine (proj2 (proj2 (Hsep _ 1%nat eq_refl _)) eq_refl).
    simpl. lia.
  - eexists. split; [reflexivity |].
    refine (proj2 (proj2 (Hmix [] _ 1%nat eq_refl _)) eq_refl).
    simpl. lia.
Defined.

(** ** Reward normalisation of the mixed-games loop *)

Section Normalisation.
Local Open Scope Q_scope.

Lemma fold_left_Qplus (raw : list Q) (a : Q) :
  fold_left Qplus raw a == a + sumQ raw.
Proof.
  revert a. induction raw as [| r raw IH]; intros a; simpl.
  - ring.
  - rewrite IH. ring.
Qed.

Lemma total_reward_sum (raw : list Q) : total_reward raw == sumQ raw.
Proof. unfold total_reward. rewrite fold_left_Qplus. ring. Qed.

Lemma sumQ_div (raw : list Q) (s : Q) :
  sumQ (map (fun r => r / s) raw) == sumQ raw / s.
Proof.
  induction raw as [| r raw IH]; simpl.
  - unfold Qdiv. ring.
  - rewrite IH. unfold Qdiv. ring.
Qed.

(** A non-zero total: every saved reward is finite and they sum to 1. *)
Lemma normalized_sums_to_one (raw : list Q) :
  ~ total_reward raw == 0 ->
  normalized raw = map Finite (map (fun r => r / total_reward raw) raw) /\
  sumQ (map (fun r => r / total_reward raw) raw) == 1.
Proof.
  intros Hnz. split.
  - unfold normalized. rewrite map_map. apply map_ext. intros r.
    unfold np_divide.
    destruct (Qeq_bool (total_reward raw) 0) eqn:E; [| reflexivity].
    apply Qeq_bool_iff in E. contradiction.
  - rewrite sumQ_div, <- total_reward_sum. now field.
Qed.

Lemma total_reward_zeros (raw : list Q) :
  Forall (fun r => r == 0) raw -> total_reward raw == 0.
Proof.
  intros H. rewrite total_reward_sum.
  induction H as [| r raw Hr _ IH]; simpl; [reflexivity |].
  rewrite Hr, IH. ring.
Qed.

(** A zero total: no saved reward is finite; when every reward of the
    episode is zero they are all NaN. *)
Lemma normalized_zero_total (raw : list Q) :
  total_reward raw == 0 ->
  Forall (fun x => is_finite x = false) (normalized raw).
Proof.
  intros Hz. unfold normalized. apply Forall_forall. intros x Hin.
  apply in_map_iff in Hin as (r & <- & _). unfold np_divide.
  apply Qeq_bool_iff in Hz. rewrite Hz.
  destruct (Qeq_bool r 0); [reflexivity |].
  destruct (Qle_bool 0 r); reflexivity.
Qed.

Lemma normalized_all_zero (raw : list Q) :
  Forall (fun r => r == 0) raw ->
  normalized raw = map (fun _ => NaN) raw.
Proof.
  intros H. pose proof (total_reward_zeros H) as Hz.
  apply Qeq_bool_iff in Hz.
  unfold normalized. apply map_ext_in. intros r Hin.
  rewrite Forall_forall in H. specialize (H r Hin).
  apply Qeq_bool_iff in H. unfold np_divide. now rewrite Hz, H.
Qed.

End Normalisation.

Section MixedLoop.
Variable Frame : Type.
Implicit Type dataset : D4RL Frame.

Lemma firstn_S_nth_error {B : Type} (xs : list B) (k : nat) (x : B) :
  nth_error xs k = Some x -> firstn (S k) xs = firstn k xs ++ [x].
Proof.
  revert k. induction xs as [| y xs IH]; intros [| k] H; simpl in *;
    try discriminate.
  - now inversion H.
  - now rewrite (IH k H).
Qed.

Lemma mixed_step_invariant dataset paths0 (k : nat) (st st' : MixState Frame) :
  mixed_invariant dataset paths0 k st ->
  mixed_step dataset st k = Ok st' ->
  mixed_invariant dataset paths0 (S k) st'.
Proof.
  intros (added & segs & Hp & He & Hne & Hc & Hs & Hk) Hstep.
  unfold mixed_step in Hstep.
  apply bind_ok in Hstep as (ends & _ & Hstep).
  apply bind_ok in Hstep as (data_ & Hd & Hstep).
  apply bind_ok in Hstep as (r & Hr & Hstep).
  apply append_sample_next in Hd as (o & r' & _ & Hr' & _ & Hb).
  apply py_index_nat in Hr.
  assert (r' = r) by congruence. subst r'.
  assert (Hk' : (S k <= length (d_rewards dataset))%nat).
  { assert (k < length (d_rewards dataset))%nat
      by (apply nth_error_Some; congruence). lia. }
  assert (Htot : (m_sum_reward st + r)%Q = total_reward (b_rewards data_)).
  { rewrite Hb, Hs. unfold total_reward. now rewrite fold_left_app. }
  destruct ends; inversion Hstep; subst; clear Hstep.
  - exists (added ++ [normalized_episode data_ (m_sum_reward st + r)]),
           (segs ++ [b_rewards data_]).
    cbn [m_paths m_data m_sum_reward b_rewards empty_buffer].
    repeat split.
    + now rewrite Hp, app_assoc.
    + rewrite !map_app, He. simpl. now rewrite Htot.
    + apply Forall_app. split; [exact Hne |].
      constructor; [| constructor]. rewrite Hb. now destruct (b_rewards (m_data st)).
    + rewrite concat_app. simpl. rewrite !app_nil_r, Hb, app_assoc, Hc.
      symmetry. now apply firstn_S_nth_error.
    + exact Hk'.
  - exists added, segs.
    cbn [m_paths m_data m_sum_reward].
    repeat split; auto.
    rewrite Hb, app_assoc, Hc. symmetry. now apply firstn_S_nth_error.
Qed.

Lemma mixed_games_one_spec dataset paths0 (paths : list (Episode Frame fnum)) :
  mixed_games_one paths0 dataset = Ok paths ->
  exists (added : list (Episode Frame fnum)) (segs : list (list Q)) (rest : list Q),
    paths = paths0 ++ added /\
    map (@e_rewards Frame fnum) added = map normalized segs /\
    Forall (fun raw => raw <> []) segs /\
    concat segs ++ rest
    = firstn (length (sample_range dataset)) (d_rewards dataset).
Proof.
  unfold mixed_games_one. intros H.
  apply bind_ok in H as (st & Hrun & H). inversion H; subst; clear H.
  unfold sample_range in *. rewrite length_seq.
  apply (run_loop_invariant (mixed_step dataset)
           (mixed_invariant dataset paths0)) in Hrun.
  - destruct Hrun as (added & segs & Hp & He & Hne & Hc & _ & _).
    exists added, segs, (b_rewards (m_data st)). auto.
  - exists [], []. simpl. rewrite app_nil_r.
    repeat split; auto with arith.
  - intros k s s' _. apply mixed_step_invariant.
Qed.

(** Every episode saved by the mixed-games arm carries the normalised form
    of a non-empty list of dataset rewards. *)
Lemma mixed_games_spec (datasets : list (D4RL Frame))
    (paths : list (Episode Frame fnum)) :
  mixed_games datasets = Ok paths ->
  Forall (fun p => exists raw, raw <> [] /\ e_rewards p = normalized raw) paths.
Proof.
  unfold mixed_games.
  assert (G : forall ds acc,
             Forall (fun p : Episode Frame fnum =>
                       exists raw, raw <> [] /\ e_rewards p = normalized raw) acc ->
             forall out,
               fold_left (fun acc dataset =>
                            paths <- acc ;; mixed_games_one paths dataset)
                         ds (Ok acc) = Ok out ->
               Forall (fun p : Episode Frame fnum =>
                         exists raw, raw <> [] /\ e_rewards p = normalized raw) out).
  { induction ds as [| d ds IH]; intros acc Hacc out Hout; simpl in Hout.
    - inversion Hout. now subst.
    - destruct (mixed_games_one acc d) as [e | acc'] eqn:E.
      + assert (F : forall l, fold_left
                 (fun acc dataset => paths <- acc ;; mixed_games_one paths dataset)
                 l (inl e) = (inl e : result (list (Episode Frame fnum)))).
        { induction l; simpl; auto. }
        rewrite F in Hout. discriminate.
      + apply (IH acc'); [| exact Hout].
        apply mixed_games_one_spec in E as (added & segs & rest & -> & He & Hne & _).
        apply Forall_app. split; [exact Hacc |].
        clear - He Hne. revert segs He Hne.
        induction added as [| p added IHa]; intros segs He Hne; [constructor |].
        destruct segs as [| raw segs]; [discriminate |].
        simpl in He. inversion He. inversion Hne; subst.
        constructor; [exists raw; auto | eapply IHa; eauto]. }
  intros H. apply (G datasets []); [constructor | exact H].
Qed.

End MixedLoop.

(** C9.  In the mixed-games arm the rewards of every completed episode are
    saved divided elementwise by the episode's total reward, whatever that
    total is: the saved rewards sum to 1 when the total is non-zero, and with
    a zero total none of them is finite (all NaN when every reward of the
    episode is zero). *)
Theorem mixed_rewards_normalised :
  forall (Frame : Type),
    (forall (dataset : D4RL Frame) (paths0 paths : list (Episode Frame fnum)),
        mixed_games_one paths0 dataset = Ok paths ->
        exists (added : list (Episode Frame fnum)) (segs : list (list Q))
               (rest : list Q),
          paths = paths0 ++ added /\
          map (@e_rewards Frame fnum) added = map normalized segs /\
          Forall (fun raw => raw <> []) segs /\
          concat segs ++ rest
          = firstn (length (sample_range dataset)) (d_rewards dataset)) /\
    (forall (datasets : list (D4RL Frame)) (paths : list (Episode Frame fnum)),
        mixed_games datasets = Ok paths ->
        Forall (fun p => exists raw, raw <> [] /\ e_rewards p = normalized raw)
               paths) /\
    (forall raw : list Q,
        ~ (total_reward raw == 0)%Q ->
        normalized raw
        = map Finite (map (fun r => r / total_reward raw)%Q raw) /\
        (sumQ (map (fun r => r / total_reward raw)%Q raw) == 1)%Q) /\
    (forall raw : list Q,
        (total_reward raw == 0)%Q ->
        Forall (fun x => is_finite x = false) (normalized raw)) /\
    (forall raw : list Q,
        Forall (fun r => r == 0)%Q raw ->
        normalized raw = map (fun _ => NaN) raw).
Proof.
  intros Frame. repeat split.
  - intros dataset paths0 paths. apply mixed_games_one_spec.
  - intros datasets paths. apply mixed_games_spec.
  - now apply normalized_sums_to_one.
  - now apply normalized_sums_to_one.
  - apply normalized_zero_total.
  - apply normalized_all_zero.
Qed.

Lemma mixed_rewards_normalised_witness :
  (exists paths,
      mixed_games [idle_dataset] = Ok paths /\
      map (@e_rewards string fnum) paths
      = [[NaN; NaN]; [Finite (1 # 4); Finite (3 # 4)]]) /\
  normalized [0; 0]%Q = [NaN; NaN] /\
  (sumQ (map (fun r => r / total_reward [1; 3])%Q [1; 3]%Q) == 1)%Q.
Proof.
  pose proof (@mixed_rewards_normalised string)
    as (_ & _ & Hone & _ & Hzero).
  split; [| split].
  - eexists. split; reflexivity.
  - apply (Hzero [0; 0]%Q). repeat constructor.
  - apply (Hone [1; 3]%Q). discriminate.
Defined.

(** ** Construction of the modules *)

Lemma raises_assertion_bind {A B : Type} (r : result A) (k : A -> result B) :
  raises_assertion (bind r k) <->
  raises_assertion r \/ exists a, r = Ok a /\ raises_assertion (k a).
Proof.
  unfold raises_assertion, Raise. destruct r as [e | a]; simpl; split.
  - intros (msg & H). left. exists msg. congruence.
  - intros [(msg & H) | (a & Ha & _)]; [exists msg; congruence | discriminate].
  - intros H. right. exists a. split; [reflexivity | exact H].
  - intros [(msg & H) | (a' & Ha & H)]; [discriminate |].
    inversion Ha. now subst.
Qed.

Lemma raises_assertion_ok {A : Type} (a : A) : ~ raises_assertion (Ok a).
Proof. intros (msg & H). discriminate. Qed.

Lemma torch_empty_cases (dims : shape) :
  (Forall (fun d => 0 <= d)%Z dims /\ torch_empty dims = Ok tt) \/
  (~ Forall (fun d => 0 <= d)%Z dims /\
   exists msg, torch_empty dims = Raise (RuntimeError msg)).
Proof.
  unfold torch_empty.
  destruct (forallb (fun d => (0 <=? d)%Z) dims) eqn:E.
  - left. split; [| reflexivity].
    apply Forall_forall. intros d Hin.
    rewrite forallb_forall in E. apply Z.leb_le. now apply E.
  - right. split; [| eexists; reflexivity].
    intros H. rewrite Forall_forall in H.
    assert (forallb (fun d => (0 <=? d)%Z) dims = true).
    { apply forallb_forall. intros d Hin. apply Z.leb_le. now apply H. }
    congruence.
Qed.

Lemma torch_empty_no_assert (dims : shape) : ~ raises_assertion (torch_empty dims).
Proof.
  intros (msg & H).
  destruct (torch_empty_cases dims) as [(_ & E) | (_ & msg' & E)];
    rewrite E in H; discriminate.
Qed.

Lemma torch_empty_ok_inv (dims : shape) (u : unit) :
  torch_empty dims = Ok u -> Forall (fun d => 0 <= d)%Z dims.
Proof.
  intros H.
  destruct (torch_empty_cases dims) as [(F & _) | (_ & msg & E)];
    [exact F | rewrite E in H; discriminate].
Qed.

Lemma nn_Linear_inv (i o : Z) (l : Linear_) :
  nn_Linear i o = Ok l -> (0 <= i)%Z /\ (0 <= o)%Z /\ l = mkLinear i o.
Proof.
  unfold nn_Linear. intros H. apply bind_ok in H as (u & Hu & H).
  apply torch_empty_ok_inv in Hu. inversion H.
  inversion Hu as [| ? ? Ho Hu']; inversion Hu'; subst. auto.
Qed.

Lemma nn_Embedding_inv (n d : Z) (e : Embedding_) :
  nn_Embedding n d = Ok e -> (0 <= n)%Z /\ (0 <= d)%Z /\ e = mkEmbedding n d.
Proof.
  unfold nn_Embedding. intros H. apply bind_ok in H as (u & Hu & H).
  apply torch_empty_ok_inv in Hu. inversion H.
  inversion Hu as [| ? ? Ho Hu']; inversion Hu'; subst. auto.
Qed.

Lemma nn_Conv2d_inv (i o k s : Z) (c : Conv2d_) :
  nn_Conv2d i o k s = Ok c -> (0 <= i)%Z /\ c = mkConv2d i o k s.
Proof.
  unfold nn_Conv2d. intros H. apply bind_ok in H as (u & Hu & H).
  apply torch_empty_ok_inv in Hu. inversion H.
  inversion Hu as [| ? ? Ho Hu']; inversion Hu'; subst. auto.
Qed.

Lemma nn_LayerNorm_inv (h : Z) (ln : LayerNorm_) :
  nn_LayerNorm h = Ok ln -> (0 <= h)%Z /\ ln = mkLayerNorm h.
Proof.
  unfold nn_LayerNorm. intros H. apply bind_ok in H as (u & Hu & H).
  apply torch_empty_ok_inv in Hu. inversion H.
  inversion Hu; subst. auto.
Qed.

Lemma nn_Linear_no_assert (i o : Z) : ~ raises_assertion (nn_Linear i o).
Proof.
  unfold nn_Linear. rewrite raises_assertion_bind.
  intros [H | (u & _ & H)];
    [now apply torch_empty_no_assert in H | now apply raises_assertion_ok in H].
Qed.

Lemma nn_Embedding_no_assert (n d : Z) : ~ raises_assertion (nn_Embedding n d).
Proof.
  unfold nn_Embedding. rewrite raises_assertion_bind.
  intros [H | (u & _ & H)];
    [now apply torch_empty_no_assert in H | now apply raises_assertion_ok in H].
Qed.

Lemma nn_Conv2d_no_assert (i o k s : Z) : ~ raises_assertion (nn_Conv2d i o k s).
Proof.
  unfold nn_Conv2d. rewrite raises_assertion_bind.
  intros [H | (u & _ & H)];
    [now apply torch_empty_no_assert in H | now apply raises_assertion_ok in H].
Qed.

Lemma nn_LayerNorm_no_assert (h : Z) : ~ raises_assertion (nn_LayerNorm h).
Proof.
  unfold nn_LayerNorm. rewrite raises_assertion_bind.
  intros [H | (u & _ & H)];
    [now apply torch_empty_no_assert in H | now apply raises_assertion_ok in H].
Qed.

Lemma nn_Dropout_no_assert (p : Q) : ~ raises_assertion (nn_Dropout p).
Proof.
  unfold nn_Dropout. intros (msg & H).
  destruct (Qle_bool 0 p && Qle_bool p 1); discriminate.
Qed.

(** None of the torch constructors ends with an [AssertionError]. *)
Ltac no_assert H :=
  exfalso;
  first [ apply torch_empty_no_assert in H
        | apply nn_Linear_no_assert in H
        | apply nn_Embedding_no_assert in H
        | apply nn_Conv2d_no_assert in H
        | apply nn_LayerNorm_no_assert in H
        | apply nn_Dropout_no_assert in H
        | apply raises_assertion_ok in H ];
  exact H.

(** A bind whose first computation is a torch constructor raises an
    assertion only through its continuation. *)
Ltac step_bind H :=
  let a := fresh "a" in
  let E := fresh "E" in
  apply raises_assertion_bind in H;
  destruct H as [H | [a [E H]]];
  [no_assert H |].

(** The divisibility test, as arithmetic. *)
Lemma mod_zero_divide (h n : Z) : n <> 0%Z -> ((h mod n)%Z = 0%Z <-> (n | h)%Z).
Proof. intros Hn. now apply Z.mod_divide. Qed.

Lemma MaskedCausalAttention_init_assert (h_dim max_T n_heads : Z) (drop_p : Q) :
  raises_assertion (MaskedCausalAttention_init h_dim max_T n_heads drop_p) <->
  n_heads <> 0%Z /\ ~ (n_heads | h_dim)%Z.
Proof.
  unfold MaskedCausalAttention_init, py_mod, py_assert.
  destruct (n_heads =? 0)%Z eqn:En.
  - apply Z.eqb_eq in En. split.
    + intros (msg & H). discriminate.
    + intros (Hn & _). contradiction.
  - apply Z.eqb_neq in En. cbn [bind Ok].
    destruct (h_dim mod n_heads =? 0)%Z eqn:Em.
    + apply Z.eqb_eq in Em. cbn [bind Ok]. split.
      * intros H. exfalso.
        step_bind H. step_bind H. step_bind H. step_bind H. step_bind H.
        now apply raises_assertion_ok in H.
      * intros (_ & Hd). exfalso. apply Hd. now apply mod_zero_divide.
    + apply Z.eqb_neq in Em. split.
      * intros _. split; [exact En |]. intros Hd. apply Em.
        now apply mod_zero_divide.
      * intros _. eexists. reflexivity.
Qed.

Lemma MaskedCausalAttention_init_ok (h_dim max_T n_heads : Z) (drop_p : Q)
    (a : MaskedCausalAttention) :
  MaskedCausalAttention_init h_dim max_T n_heads drop_p = Ok a ->
  attn_n_heads a = n_heads /\ attn_h_dim a = h_dim /\ attn_max_T a = max_T /\
  n_heads <> 0%Z /\ (n_heads | h_dim)%Z /\
  attn_c_attn a = mkLinear h_dim (3 * h_dim) /\
  attn_c_proj a = mkLinear h_dim h_dim /\
  (0 <= h_dim)%Z.
Proof.
  unfold MaskedCausalAttention_init, py_mod, py_assert. intros H.
  destruct (n_heads =? 0)%Z eqn:En; [discriminate |].
  apply Z.eqb_neq in En. cbn [bind Ok] in H.
  destruct (h_dim mod n_heads =? 0)%Z eqn:Em; [| discriminate].
  apply Z.eqb_eq in Em. cbn [bind Ok] in H.
  apply bind_ok in H as (c_attn & H1 & H).
  apply bind_ok in H as (c_proj & H2 & H).
  apply bind_ok in H as (u1 & _ & H).
  apply bind_ok in H as (u2 & _ & H).
  apply bind_ok in H as (u3 & _ & H).
  apply nn_Linear_inv in H1 as (Hh & _ & ->).
  apply nn_Linear_inv in H2 as (_ & _ & ->).
  inversion H; subst; clear H. cbn.
  repeat split; auto. now apply mod_zero_divide.
Qed.

Lemma Block_init_assert (h_dim max_T n_heads : Z) (drop_p : Q) :
  raises_assertion (Block_init h_dim max_T n_heads drop_p) <->
  n_heads <> 0%Z /\ ~ (n_heads | h_dim)%Z.
Proof.
  rewrite <- (MaskedCausalAttention_init_assert h_dim max_T n_heads drop_p).
  unfold Block_init. rewrite raises_assertion_bind. split.
  - intros [H | (a & _ & H)]; [exact H | exfalso].
    step_bind H. step_bind H. step_bind H. step_bind H. step_bind H.
    now apply raises_assertion_ok in H.
  - intros H. now left.
Qed.

Lemma Block_init_ok (h_dim max_T n_heads : Z) (drop_p : Q) (b : Block) :
  Block_init h_dim max_T n_heads drop_p = Ok b ->
  attn_n_heads (blk_attn b) = n_heads /\ attn_h_dim (blk_attn b) = h_dim /\
  attn_max_T (blk_attn b) = max_T /\
  n_heads <> 0%Z /\ (n_heads | h_dim)%Z /\
  attn_c_attn (blk_attn b) = mkLinear h_dim (3 * h_dim) /\
  attn_c_proj (blk_attn b) = mkLinear h_dim h_dim /\
  blk_c_fc b = mkLinear h_dim (4 * h_dim) /\
  blk_c_proj b = mkLinear (4 * h_dim) h_dim /\
  blk_ln_1 b = mkLayerNorm h_dim /\ blk_ln_2 b = mkLayerNorm h_dim.
Proof.
  unfold Block_init. intros H.
  apply bind_ok in H as (a & Ha & H).
  apply bind_ok in H as (c_fc & H1 & H).
  apply bind_ok in H as (c_proj & H2 & H).
  apply bind_ok in H as (u & _ & H).
  apply bind_ok in H as (ln_1 & H3 & H).
  apply bind_ok in H as (ln_2 & H4 & H).
  apply MaskedCausalAttention_init_ok in Ha
    as (E1 & E2 & E3 & E4 & E5 & E6 & E7 & _).
  apply nn_Linear_inv in H1 as (_ & _ & ->).
  apply nn_Linear_inv in H2 as (_ & _ & ->).
  apply nn_LayerNorm_inv in H3 as (_ & ->).
  apply nn_LayerNorm_inv in H4 as (_ & ->).
  inversion H; subst; clear H. cbn. repeat split; auto.
Qed.

Lemma replicateM_assert {A : Type} (n : nat) (f : result A) :
  raises_assertion (replicateM n f) <-> (0 < n)%nat /\ raises_assertion f.
Proof.
  induction n as [| n IH]; simpl.
  - split; [intros H; now apply raises_assertion_ok in H | intros (H & _); lia].
  - rewrite raises_assertion_bind. split.
    + intros [H | (a & Ha & H)]; [split; [lia | exact H] |].
      apply raises_assertion_bind in H as [H | (xs & _ & H)].
      * apply IH in H as (_ & (msg & H)). rewrite Ha in H. discriminate.
      * now apply raises_assertion_ok in H.
    + intros (_ & H). now left.
Qed.

Lemma replicateM_ok {A : Type} (n : nat) (f : result A) (xs : list A) :
  replicateM n f = Ok xs ->
  length xs = n /\ forall x, In x xs -> f = Ok x.
Proof.
  revert xs. induction n as [| n IH]; simpl; intros xs H.
  - inversion H. split; [reflexivity | intros x []].
  - apply bind_ok in H as (x & Hx & H).
    apply bind_ok in H as (xs' & Hxs & H).
    inversion H; subst; clear H.
    destruct (IH xs' Hxs) as (Hl & Hin). split; [simpl; lia |].
    intros y [<- | Hy]; auto.
Qed.

Lemma torch_empty_nonneg (dims : shape) :
  Forall (fun d => 0 <= d)%Z dims -> torch_empty dims = Ok tt.
Proof.
  intros H. destruct (torch_empty_cases dims) as [(_ & E) | (N & _)];
    [exact E | contradiction].
Qed.

Lemma nn_Linear_nonneg (i o : Z) :
  (0 <= i)%Z -> (0 <= o)%Z -> nn_Linear i o = Ok (mkLinear i o).
Proof.
  intros Hi Ho. unfold nn_Linear.
  now rewrite torch_empty_nonneg by (repeat constructor; assumption).
Qed.

Lemma nn_Embedding_nonneg (n d : Z) :
  (0 <= n)%Z -> (0 <= d)%Z -> nn_Embedding n d = Ok (mkEmbedding n d).
Proof.
  intros Hi Ho. unfold nn_Embedding.
  now rewrite torch_empty_nonneg by (repeat constructor; assumption).
Qed.

Lemma nn_Conv2d_nonneg (i o k s : Z) :
  (0 <= i)%Z -> (0 <= o)%Z -> (0 <= k)%Z ->
  nn_Conv2d i o k s = Ok (mkConv2d i o k s).
Proof.
  intros Hi Ho Hk. unfold nn_Conv2d.
  now rewrite torch_empty_nonneg by (repeat constructor; assumption).
Qed.

Lemma nn_LayerNorm_nonneg (h : Z) :
  (0 <= h)%Z -> nn_LayerNorm h = Ok (mkLayerNorm h).
Proof.
  intros Hh. unfold nn_LayerNorm.
  now rewrite torch_empty_nonneg by (repeat constructor; assumption).
Qed.

Ltac enter_bind :=
  apply raises_assertion_bind; right; eexists; split.

Lemma DecisionTransformer_init_assert
    (state_dim act_dim n_blocks h_dim context_len n_heads : Z) (drop_p : Q)
    (max_timestep : Z) :
  raises_assertion
    (DecisionTransformer_init state_dim act_dim n_blocks h_dim context_len
       n_heads drop_p max_timestep) <->
  heads_sizes_ok act_dim h_dim context_len max_timestep /\
  (0 < n_blocks)%Z /\ n_heads <> 0%Z /\ ~ (n_heads | h_dim)%Z.
Proof.
  unfold DecisionTransformer_init, heads_sizes_ok. split.
  - intros H.
    step_bind H. step_bind H. step_bind H. step_bind H.
    step_bind H. step_bind H. step_bind H. step_bind H.
    repeat match goal with
           | E : nn_Embedding _ _ = Ok _ |- _ =>
               apply nn_Embedding_inv in E; destruct E as (? & ? & ?)
           | E : nn_Linear _ _ = Ok _ |- _ =>
               apply nn_Linear_inv in E; destruct E as (? & ? & ?)
           | E : nn_Conv2d _ _ _ _ = Ok _ |- _ =>
               apply nn_Conv2d_inv in E; destruct E as (? & ?)
           end.
    apply raises_assertion_bind in H as [H | (bs & _ & H)].
    + apply replicateM_assert in H as (Hn & H).
      apply Block_init_assert in H as (Hh & Hd).
      repeat split; auto; lia.
    + exfalso. step_bind H. step_bind H. step_bind H. step_bind H.
      now apply raises_assertion_ok in H.
  - intros ((Hmt & Hh & Hcl & Had) & Hn & Hnh & Hd).
    enter_bind; [apply nn_Embedding_nonneg; lia |].
    enter_bind; [apply nn_Linear_nonneg; nia |].
    enter_bind; [apply nn_Conv2d_nonneg; lia |].
    enter_bind; [apply nn_Conv2d_nonneg; lia |].
    enter_bind; [apply nn_Conv2d_nonneg; lia |].
    enter_bind; [apply nn_Linear_nonneg; nia |].
    enter_bind; [apply nn_Embedding_nonneg; lia |].
    enter_bind; [apply nn_LayerNorm_nonneg; lia |].
    apply raises_assertion_bind. left.
    apply replicateM_assert. split; [lia |].
    apply Block_init_assert. auto.
Qed.

Lemma DecisionTransformer_init_ok
    (state_dim act_dim n_blocks h_dim context_len n_heads : Z) (drop_p : Q)
    (max_timestep : Z) (m : DecisionTransformer) :
  DecisionTransformer_init state_dim act_dim n_blocks h_dim context_len
    n_heads drop_p max_timestep = Ok m ->
  dt_state_dim m = state_dim /\ dt_act_dim m = act_dim /\
  dt_h_dim m = h_dim /\ dt_context_len m = context_len /\
  length (dt_blocks m) = Z.to_nat n_blocks /\
  (forall b, In b (dt_blocks m) ->
     Block_init h_dim (3 * context_len) n_heads drop_p = Ok b) /\
  dt_embed_timestep m = mkEmbedding max_timestep h_dim /\
  dt_embed_rtg m = mkLinear (1 * context_len) (h_dim * context_len) /\
  dt_embed_state_conv1 m = mkConv2d context_len 32 8 4 /\
  dt_embed_state_conv2 m = mkConv2d 32 64 4 2 /\
  dt_embed_state_conv3 m = mkConv2d 64 64 3 1 /\
  dt_embed_state_fc m = mkLinear 3136 (h_dim * context_len) /\
  dt_embed_action m = mkEmbedding act_dim h_dim /\
  dt_embed_ln m = mkLayerNorm h_dim /\
  dt_ln_f m = mkLayerNorm h_dim /\
  dt_predict_rtg m = mkLinear h_dim 1 /\
  dt_predict_state m = mkLinear h_dim (state_dim * state_dim) /\
  dt_predict_action m = mkLinear h_dim act_dim.
Proof.
  unfold DecisionTransformer_init. intros H.
  apply bind_ok in H as (e1 & E1 & H).
  apply bind_ok in H as (e2 & E2 & H).
  apply bind_ok in H as (e3 & E3 & H).
  apply bind_ok in H as (e4 & E4 & H).
  apply bind_ok in H as (e5 & E5 & H).
  apply bind_ok in H as (e6 & E6 & H).
  apply bind_ok in H as (e7 & E7 & H).
  apply bind_ok in H as (e8 & E8 & H).
  apply bind_ok in H as (bs & Eb & H).
  apply bind_ok in H as (e9 & E9 & H).
  apply bind_ok in H as (e10 & E10 & H).
  apply bind_ok in H as (e11 & E11 & H).
  apply bind_ok in H as (e12 & E12 & H).
  apply nn_Embedding_inv in E1 as (_ & _ & ->).
  apply nn_Linear_inv in E2 as (_ & _ & ->).
  apply nn_Conv2d_inv in E3 as (_ & ->).
  apply nn_Conv2d_inv in E4 as (_ & ->).
  apply nn_Conv2d_inv in E5 as (_ & ->).
  apply nn_Linear_inv in E6 as (_ & _ & ->).
  apply nn_Embedding_inv in E7 as (_ & _ & ->).
  apply nn_LayerNorm_inv in E8 as (_ & ->).
  apply nn_LayerNorm_inv in E9 as (_ & ->).
  apply nn_Linear_inv in E10 as (_ & _ & ->).
  apply nn_Linear_inv in E11 as (_ & _ & ->).
  apply nn_Linear_inv in E12 as (_ & _ & ->).
  apply replicateM_ok in Eb as (Hl & Hin).
  inversion H; subst; clear H. cbn.
  repeat (split; [solve [auto] |]). reflexivity.
Qed.

(** C6 (as stated, refuted).  A [DecisionTransformer] with no block builds no
    attention module, so it is constructed although 5 is not divisible by 2;
    and with zero heads the remainder itself raises [ZeroDivisionError], not
    an assertion error. *)
Lemma construction_assertion_counterexample :
  ~ (raises_assertion
       (DecisionTransformer_init 84 4 0 5 30 2 (1 # 10) 1000)
     <-> ~ (2 | 5)%Z) /\
  ~ (raises_assertion (MaskedCausalAttention_init 5 90 0 (1 # 10))
     <-> ~ (0 | 5)%Z).
Proof.
  split.
  - intros [_ H].
    assert (Hnd : ~ (2 | 5)%Z) by (intros [c Hc]; lia).
    apply H in Hnd. destruct Hnd as (msg & Hm). discriminate.
  - intros [_ H].
    assert (Hnd : ~ (0 | 5)%Z) by (intros [c Hc]; lia).
    apply H in Hnd. destruct Hnd as (msg & Hm). discriminate.
Qed.

(** C6 (amended).  Constructing a [MaskedCausalAttention] ends with the
    assertion error exactly when the number of heads is non-zero and does
    not divide the hidden dimension (zero heads raise [ZeroDivisionError]);
    constructing a [DecisionTransformer] ends with it exactly when, in
    addition, the embedding heads could be built and there is at least one
    block.  A module that is constructed stores the sizes it was given,
    with the head count dividing the hidden dimension, and a failed
    construction leaves no module for a forward pass to run on. *)
Theorem construction_assertion :
  (forall (h_dim max_T n_heads : Z) (drop_p : Q),
      raises_assertion (MaskedCausalAttention_init h_dim max_T n_heads drop_p)
      <-> n_heads <> 0%Z /\ ~ (n_heads | h_dim)%Z) /\
  (forall (h_dim max_T : Z) (drop_p : Q),
      MaskedCausalAttention_init h_dim max_T 0 drop_p = Raise ZeroDivisionError) /\
  (forall (state_dim act_dim n_blocks h_dim context_len n_heads : Z)
          (drop_p : Q) (max_timestep : Z),
      raises_assertion
        (DecisionTransformer_init state_dim act_dim n_blocks h_dim context_len
           n_heads drop_p max_timestep)
      <-> heads_sizes_ok act_dim h_dim context_len max_timestep /\
          (0 < n_blocks)%Z /\ n_heads <> 0%Z /\ ~ (n_heads | h_dim)%Z) /\
  (forall (h_dim max_T n_heads : Z) (drop_p : Q) (a : MaskedCausalAttention),
      MaskedCausalAttention_init h_dim max_T n_heads drop_p = Ok a ->
      attn_n_heads a = n_heads /\ attn_h_dim a = h_dim /\
      (n_heads | h_dim)%Z) /\
  (forall (state_dim act_dim n_blocks h_dim context_len n_heads : Z)
          (drop_p : Q) (max_timestep : Z) (m : DecisionTransformer),
      DecisionTransformer_init state_dim act_dim n_blocks h_dim context_len
        n_heads drop_p max_timestep = Ok m ->
      dt_h_dim m = h_dim /\
      forall b, In b (dt_blocks m) ->
        attn_n_heads (blk_attn b) = n_heads /\
        attn_h_dim (blk_attn b) = h_dim /\
        (n_heads | h_dim)%Z) /\
  (forall (state_dim act_dim n_blocks h_dim context_len n_heads : Z)
          (drop_p : Q) (max_timestep : Z) (e : exn)
          (timesteps : LongTensor) (states : shape) (actions : LongTensor)
          (returns_to_go : shape),
      DecisionTransformer_init state_dim act_dim n_blocks h_dim context_len
        n_heads drop_p max_timestep = Raise e ->
      (m <- DecisionTransformer_init state_dim act_dim n_blocks h_dim
              context_len n_heads drop_p max_timestep ;;
       DecisionTransformer_forward_shape m timesteps states actions
         returns_to_go) = Raise e).
Proof.
  split; [| split; [| split; [| split; [| split]]]].
  - apply MaskedCausalAttention_init_assert.
  - reflexivity.
  - apply DecisionTransformer_init_assert.
  - intros h_dim max_T n_heads drop_p a H.
    apply MaskedCausalAttention_init_ok in H. tauto.
  - intros state_dim act_dim n_blocks h_dim context_len n_heads drop_p
      max_timestep m H.
    apply DecisionTransformer_init_ok in H as (_ & _ & Hh & _ & _ & Hb & _).
    split; [exact Hh |]. intros b Hin.
    apply Hb, Block_init_ok in Hin. tauto.
  - intros state_dim act_dim n_blocks h_dim context_len n_heads drop_p
      max_timestep e timesteps states actions returns_to_go H.
    now rewrite H.
Qed.

Lemma construction_assertion_witness :
  raises_assertion (MaskedCausalAttention_init 5 90 2 (1 # 10)) /\
  raises_assertion (DecisionTransformer_init 84 4 1 5 30 2 (1 # 10) 1000) /\
  (exists a, MaskedCausalAttention_init 768 90 12 (1 # 10) = Ok a /\
             attn_n_heads a = 12%Z /\ attn_h_dim a = 768%Z /\ (12 | 768)%Z) /\
  (m <- DecisionTransformer_init 84 4 1 5 30 2 (1 # 10) 1000 ;;
   DecisionTransformer_forward_shape m
     (mkLongTensor [1; 30] (repeat 0 30)) [1; 30; 84; 84]
     (mkLongTensor [1; 30] (repeat 0 30)) [1; 30])%Z
  = Raise (AssertionError divisible_msg).
Proof.
  destruct construction_assertion as (Ha & _ & Hd & Hok & _ & Hbefore).
  assert (Hnd : ~ (2 | 5)%Z) by (intros [c Hc]; lia).
  split; [| split; [| split]].
  - apply Ha. split; [discriminate | exact Hnd].
  - apply Hd. unfold heads_sizes_ok. repeat split; try lia; try discriminate.
    exact Hnd.
  - eexists. split; [reflexivity |]. apply (Hok 768 90 12 (1 # 10))%Z. reflexivity.
  - apply Hbefore. reflexivity.
Defined.

(** ** Shapes of a forward pass *)

Lemma map_infer_nonneg (k : Z) (dims : shape) :
  Forall (fun d => 0 <= d)%Z dims ->
  map (fun d => if (d =? -1)%Z then k else d) dims = dims.
Proof.
  intros Hd. induction Hd as [| d ds Hd0 _ IH]; simpl; [reflexivity |].
  destruct (d =? -1)%Z eqn:E; [apply Z.eqb_eq in E; lia |].
  now rewrite IH.
Qed.

Lemma sh_reshape_ok (s dims : shape) :
  Forall (fun d => 0 <= d)%Z dims ->
  prodZ s = prodZ dims ->
  sh_reshape s dims = Ok dims.
Proof.
  intros Hd Hp. unfold sh_reshape.
  rewrite reshape_ok_nonneg by exact Hd.
  rewrite Hp, Z.eqb_refl.
  now rewrite map_infer_nonneg.
Qed.

Ltac nonneg_dims := repeat (apply Forall_cons; [lia |]); apply Forall_nil.
Ltac prod_eq := unfold prodZ; cbn [fold_right]; first [ring | nia].
Ltac reshape_side := first [nonneg_dims | prod_eq].

Lemma sh_Linear_2 (a i o : Z) :
  sh_Linear (mkLinear i o) [a; i] = Ok [a; o].
Proof. unfold sh_Linear. simpl. now rewrite Z.eqb_refl. Qed.

Lemma sh_Linear_3 (a b i o : Z) :
  sh_Linear (mkLinear i o) [a; b; i] = Ok [a; b; o].
Proof. unfold sh_Linear. simpl. now rewrite Z.eqb_refl. Qed.

Lemma sh_LayerNorm_3 (a b h : Z) :
  sh_LayerNorm (mkLayerNorm h) [a; b; h] = Ok [a; b; h].
Proof. unfold sh_LayerNorm. simpl. now rewrite Z.eqb_refl. Qed.

Lemma sh_broadcast_same3 (a b c : Z) :
  sh_broadcast [a; b; c] [a; b; c] = Ok [a; b; c].
Proof. unfold sh_broadcast. simpl. now rewrite !Z.eqb_refl. Qed.

Lemma sh_stack3_same (a b c : Z) :
  sh_stack3_dim1 [a; b; c] [a; b; c] [a; b; c] = Ok [a; 3%Z; b; c].
Proof. unfold sh_stack3_dim1. simpl. now rewrite !Z.eqb_refl. Qed.

Lemma sh_masked_fill_causal (B N T : Z) :
  sh_masked_fill [B; N; T; T] [1; 1; T; T]%Z = Ok [B; N; T; T].
Proof.
  unfold sh_masked_fill, sh_broadcast. simpl. rewrite !Z.eqb_refl. simpl.
  destruct (N =? 1)%Z eqn:EN; simpl;
    destruct (B =? 1)%Z eqn:EB; simpl; now rewrite !Z.eqb_refl.
Qed.

Lemma sh_matmul_ok (a b m k n : Z) :
  sh_matmul [a; b; m; k] [a; b; k; n] = Ok [a; b; m; n].
Proof. unfold sh_matmul. now rewrite !Z.eqb_refl. Qed.

(** The attention module of a block built for a window of [T/3] steps maps a
    (B, T, h_dim) tensor to one of the same shape. *)
Lemma MaskedCausalAttention_forward_shape_ok (a : MaskedCausalAttention)
    (B T h N : Z) :
  attn_n_heads a = N -> attn_h_dim a = h -> attn_max_T a = T ->
  attn_c_attn a = mkLinear h (3 * h) -> attn_c_proj a = mkLinear h h ->
  (0 < N)%Z -> (0 < h)%Z -> (N | h)%Z -> (0 <= B)%Z -> (0 <= T)%Z ->
  MaskedCausalAttention_forward_shape a [B; T; h] = Ok [B; T; h].
Proof.
  intros EN Eh ET Ec Ep HN Hh Hdiv HB HT.
  unfold MaskedCausalAttention_forward_shape.
  rewrite EN, Eh, ET, Ec, Ep.
  unfold py_floordiv.
  destruct (N =? 0)%Z eqn:E0; [apply Z.eqb_eq in E0; lia |].
  cbn [bind Ok].
  rewrite sh_Linear_3. cbn [bind Ok].
  assert (HD : (N * (h / N) = h)%Z).
  { destruct Hdiv as [c Hc]. rewrite Hc, Z.div_mul by lia. lia. }
  assert (HD0 : (0 <= h / N)%Z) by (apply Z.div_pos; lia).
  unfold sh_split3_dim2.
  replace ((0 <? h) && (2 * h <? 3 * h) && (3 * h <=? 3 * h))%Z with true
    by (symmetry; rewrite !andb_true_iff; repeat split;
        [apply Z.ltb_lt | apply Z.ltb_lt | apply Z.leb_le]; lia).
  cbn [bind Ok].
  replace (3 * h - 2 * h)%Z with h by lia.
  rewrite (@sh_reshape_ok [B; T; h] [B; T; N; (h / N)%Z])
    by (try (repeat constructor; lia); unfold prodZ; simpl; nia).
  cbn [bind Ok sh_transpose_1_2 sh_transpose_2_3].
  rewrite !sh_matmul_ok. cbn [bind Ok].
  unfold math_sqrt_check.
  destruct (0 <=? h / N)%Z eqn:E1; [| apply Z.leb_gt in E1; lia].
  cbn [bind Ok]. unfold sh_mask_slice. rewrite Z.min_id.
  rewrite sh_masked_fill_causal. cbn [bind Ok].
  rewrite sh_matmul_ok. cbn [bind Ok sh_transpose_1_2].
  rewrite (@sh_reshape_ok [B; T; N; (h / N)%Z] [B; T; (N * (h / N))%Z])
    by (try (repeat constructor; nia); unfold prodZ; simpl; nia).
  cbn [bind Ok]. rewrite HD. apply sh_Linear_3.
Qed.

Lemma Block_forward_shape_ok (b : Block) (B T h N : Z) (drop_p : Q) :
  Block_init h T N drop_p = Ok b ->
  (0 < N)%Z -> (0 < h)%Z -> (0 <= B)%Z -> (0 <= T)%Z ->
  Block_forward_shape b [B; T; h] = Ok [B; T; h].
Proof.
  intros Hb HN Hh HB HT.
  apply Block_init_ok in Hb
    as (E1 & E2 & E3 & E4 & E5 & E6 & E7 & E8 & E9 & E10 & E11).
  unfold Block_forward_shape. rewrite E8, E9, E10, E11.
  rewrite sh_LayerNorm_3. cbn [bind Ok].
  rewrite (@MaskedCausalAttention_forward_shape_ok (blk_attn b) B T h N)
    by assumption.
  cbn [bind Ok]. rewrite sh_broadcast_same3. cbn [bind Ok].
  rewrite sh_LayerNorm_3. cbn [bind Ok].
  rewrite sh_Linear_3. cbn [bind Ok].
  rewrite sh_Linear_3. cbn [bind Ok].
  apply sh_broadcast_same3.
Qed.

Lemma blocks_forward_shape_ok (bs : list Block) (B T h N : Z) (drop_p : Q) :
  (forall b, In b bs -> Block_init h T N drop_p = Ok b) ->
  (0 < N)%Z -> (0 < h)%Z -> (0 <= B)%Z -> (0 <= T)%Z ->
  fold_left (fun acc block => x <- acc ;; Block_forward_shape block x)
            bs (Ok [B; T; h])
  = Ok [B; T; h].
Proof.
  intros Hbs HN Hh HB HT. induction bs as [| b bs IH]; simpl; [reflexivity |].
  rewrite (@Block_forward_shape_ok b B T h N drop_p);
    auto using in_eq.
  apply IH. intros b' Hin. apply Hbs. now right.
Qed.

(** The three convolutions take a frame of 84 to 91 pixels a side to 7. *)
Lemma conv_stack_side (sd : Z) :
  (84 <= sd <= 91)%Z ->
  conv_out (conv_out (conv_out sd 8 4) 4 2) 3 1 = 7%Z.
Proof.
  intros H.
  assert (C : (sd = 84 \/ sd = 85 \/ sd = 86 \/ sd = 87 \/
               sd = 88 \/ sd = 89 \/ sd = 90 \/ sd = 91)%Z) by lia.
  repeat (destruct C as [-> | C]; [reflexivity |]). now subst.
Qed.

Lemma sh_embed_state_ok (m : DecisionTransformer) (B cl sd out : Z) :
  dt_embed_state_conv1 m = mkConv2d cl 32 8 4 ->
  dt_embed_state_conv2 m = mkConv2d 32 64 4 2 ->
  dt_embed_state_conv3 m = mkConv2d 64 64 3 1 ->
  dt_embed_state_fc m = mkLinear 3136 out ->
  (84 <= sd <= 91)%Z ->
  sh_embed_state m [B; cl; sd; sd] = Ok [B; out].
Proof.
  intros E1 E2 E3 E4 Hsd. unfold sh_embed_state. rewrite E1, E2, E3, E4.
  assert (C : (sd = 84 \/ sd = 85 \/ sd = 86 \/ sd = 87 \/
               sd = 88 \/ sd = 89 \/ sd = 90 \/ sd = 91)%Z) by lia.
  unfold sh_Conv2d at 1. cbn [in_channels kernel_size stride out_channels].
  rewrite Z.eqb_refl.
  repeat (destruct C as [-> | C];
          [cbn; unfold sh_Linear; cbn; reflexivity |]).
  subst sd. cbn. unfold sh_Linear. cbn. reflexivity.
Qed.

(** An embedding table accepts a tensor whose entries are indices of the
    table. *)
Lemma sh_Embedding_ok (n d : Z) (s : shape) (entries : list Z) :
  Forall (fun i => 0 <= i < n)%Z entries ->
  sh_Embedding (mkEmbedding n d) (mkLongTensor s entries) = Ok (s ++ [d]).
Proof.
  intros H. unfold sh_Embedding. cbn [lt_entries lt_shape num_embeddings
                                      embedding_dim].
  replace (forallb (fun i => (0 <=? i) && (i <? n))%Z entries) with true;
    [reflexivity |].
  symmetry. apply forallb_forall. intros i Hi.
  rewrite Forall_forall in H. specialize (H i Hi).
  apply andb_true_iff. split; [apply Z.leb_le | apply Z.ltb_lt]; lia.
Qed.

(** The forward pass of a constructed model on a batch whose window length
    is the [context_len] the model was built for and whose timesteps and
    actions are indices of the two embedding tables. *)
Lemma DecisionTransformer_forward_shape_ok
    (state_dim act_dim n_blocks h_dim context_len n_heads : Z) (drop_p : Q)
    (max_timestep : Z) (m : DecisionTransformer) (B : Z)
    (timesteps actions : list Z) :
  DecisionTransformer_init state_dim act_dim n_blocks h_dim context_len
    n_heads drop_p max_timestep = Ok m ->
  (84 <= state_dim <= 91)%Z -> (0 < h_dim)%Z -> (0 < n_heads)%Z ->
  (0 < context_len)%Z -> (0 <= B)%Z ->
  Forall (fun t => 0 <= t < max_timestep)%Z timesteps ->
  Forall (fun a => 0 <= a < act_dim)%Z actions ->
  DecisionTransformer_forward_shape m
    (mkLongTensor [B; context_len] timesteps)
    [B; context_len; state_dim; state_dim]
    (mkLongTensor [B; context_len] actions) [B; context_len]
  = Ok ([B; context_len; state_dim; state_dim],
        [B; context_len; act_dim],
        [B; context_len; 1%Z]).
Proof.
  intros Hinit Hsd Hh Hn Hcl HB Hts Has.
  apply DecisionTransformer_init_ok in Hinit
    as (E1 & E2 & E3 & E4 & E5 & Hbs & E6 & E7 & E8 & E9 & E10 & E11 & E12
        & E13 & E14 & E15 & E16 & E17).
  unfold DecisionTransformer_forward_shape.
  rewrite E1, E3, E6, E7, E12, E13, E14, E15, E16, E17.
  change (shape_at [B; context_len; state_dim; state_dim] 0) with (Ok B).
  change (shape_at (lt_shape (mkLongTensor [B; context_len] timesteps)) 1)
    with (Ok context_len).
  rewrite !sh_Embedding_ok by assumption.
  cbn [bind Ok app].
  rewrite (@sh_reshape_ok [B; context_len; h_dim] [B; context_len; h_dim])
    by reshape_side.
  cbn [bind Ok].
  rewrite (@sh_embed_state_ok m B context_len state_dim (h_dim * context_len))
    by assumption.
  cbn [bind Ok].
  rewrite (@sh_reshape_ok [B; (h_dim * context_len)%Z] [B; context_len; h_dim])
    by reshape_side.
  cbn [bind Ok]. rewrite sh_broadcast_same3. cbn [bind Ok].
  rewrite Z.mul_1_l, sh_Linear_2. cbn [bind Ok].
  rewrite (@sh_reshape_ok [B; (h_dim * context_len)%Z] [B; context_len; h_dim])
    by reshape_side.
  cbn [bind Ok]. rewrite sh_broadcast_same3. cbn [bind Ok].
  rewrite sh_stack3_same. cbn [bind Ok].
  rewrite (@sh_reshape_ok [B; 3%Z; context_len; h_dim]
             [B; (3 * context_len)%Z; h_dim])
    by reshape_side.
  cbn [bind Ok]. rewrite sh_LayerNorm_3. cbn [bind Ok].
  match goal with
  | |- context [fold_left ?f ?l ?a] =>
      replace (fold_left f l a)
        with (Ok [B; (3 * context_len)%Z; h_dim] : result shape)
        by (symmetry;
            apply (@blocks_forward_shape_ok (dt_blocks m) B (3 * context_len)
                     h_dim n_heads drop_p); auto; lia)
  end.
  cbn [bind Ok]. rewrite sh_LayerNorm_3. cbn [bind Ok].
  rewrite (@sh_reshape_ok [B; (3 * context_len)%Z; h_dim]
             [B; context_len; 3%Z; h_dim])
    by reshape_side.
  cbn [bind Ok sh_permute_0213 sh_transpose_1_2].
  change (sh_select_dim1 [B; 3%Z; context_len; h_dim] 2)
    with (Ok [B; context_len; h_dim]).
  change (sh_select_dim1 [B; 3%Z; context_len; h_dim] 1)
    with (Ok [B; context_len; h_dim]).
  cbn [bind Ok]. rewrite !sh_Linear_3. cbn [bind Ok].
  rewrite (@sh_reshape_ok [B; context_len; (state_dim * state_dim)%Z]
             [B; context_len; state_dim; state_dim])
    by reshape_side.
  reflexivity.
Qed.

(** C8 (as stated, refuted).  The default configuration is valid (768 is
    divisible by 12) and constructs, but a batch of one window of length 1
    is refused: the embedding heads are sized for windows of
    [context_len = 30] steps.  A window of 30 steps is refused as well when
    one of its actions is 4, which is no index of the table of 4 actions, or
    one of its timesteps is 1000, which is no index of the table of 1000
    timesteps.  With frames of 92 x 92 pixels ([state_dim = 92], a valid
    configuration too) the convolutions leave 64 * 8 * 8 features, not the
    3136 the Linear behind them is built for. *)
Lemma forward_shapes_counterexample :
  (cfg_embed_dim GPTConfig_default mod cfg_n_heads GPTConfig_default = 0)%Z /\
  is_ok (DecisionTransformer_of_config GPTConfig_default) = true /\
  (m <- DecisionTransformer_of_config GPTConfig_default ;;
   DecisionTransformer_forward_shape m
     (mkLongTensor [1; 1] [0]) [1; 1; 84; 84] (mkLongTensor [1; 1] [0])
     [1; 1])%Z
  = Raise (RuntimeError "shape mismatch") /\
  (m <- DecisionTransformer_of_config GPTConfig_default ;;
   DecisionTransformer_forward_shape m
     (mkLongTensor [1; 30] (repeat 0 30)) [1; 30; 84; 84]
     (mkLongTensor [1; 30] (repeat 0 29 ++ [4])) [1; 30])%Z
  = Raise IndexError /\
  (m <- DecisionTransformer_of_config GPTConfig_default ;;
   DecisionTransformer_forward_shape m
     (mkLongTensor [1; 30] (repeat 0 29 ++ [1000])) [1; 30; 84; 84]
     (mkLongTensor [1; 30] (repeat 0 30)) [1; 30])%Z
  = Raise IndexError /\
  (cfg_embed_dim wide_frames_config mod cfg_n_heads wide_frames_config = 0)%Z /\
  (m <- DecisionTransformer_of_config wide_frames_config ;;
   DecisionTransformer_forward_shape m
     (mkLongTensor [1; 30] (repeat 0 30)) [1; 30; 92; 92]
     (mkLongTensor [1; 30] (repeat 0 30)) [1; 30])%Z
  = Raise (RuntimeError "shape mismatch").
Proof. repeat split; vm_compute; reflexivity. Qed.

(** C8 (amended).  For every configuration that constructs, with a positive
    head count, a positive embedding dimension and frames of 84 to 91 pixels
    a side, and every batch of size B (an empty batch included) whose window
    length equals the [context_len] of the model, whose timesteps are
    indices of the table of timesteps and whose actions are indices of the
    table of actions, the forward pass returns state predictions of shape
    (B, T, state_dim, state_dim), action predictions of shape
    (B, T, act_dim) and return predictions of shape (B, T, 1). *)
Theorem forward_shapes :
  forall (conf : GPTConfig) (m : DecisionTransformer) (B : Z)
         (timesteps actions : list Z),
    DecisionTransformer_of_config conf = Ok m ->
    (84 <= cfg_state_dim conf <= 91)%Z ->
    (0 < cfg_embed_dim conf)%Z -> (0 < cfg_n_heads conf)%Z ->
    (0 < cfg_context_len conf)%Z -> (0 <= B)%Z ->
    Forall (fun t => 0 <= t < default_max_timestep)%Z timesteps ->
    Forall (fun a => 0 <= a < cfg_act_dim conf)%Z actions ->
    let T := cfg_context_len conf in
    DecisionTransformer_forward_shape m
      (mkLongTensor [B; T] timesteps)
      [B; T; cfg_state_dim conf; cfg_state_dim conf]
      (mkLongTensor [B; T] actions) [B; T]
    = Ok ([B; T; cfg_state_dim conf; cfg_state_dim conf],
          [B; T; cfg_act_dim conf],
          [B; T; 1%Z]).
Proof.
  intros conf m B timesteps actions Hinit Hsd Hh Hn Hcl HB Hts Has T.
  unfold DecisionTransformer_of_config in Hinit.
  eapply DecisionTransformer_forward_shape_ok; eauto.
Qed.

Lemma forward_shapes_witness :
  exists m,
    DecisionTransformer_of_config scenario_config = Ok m /\
    DecisionTransformer_forward_shape m
      (mkLongTensor [5; 30]%Z (repeat 999%Z 150)) [5; 30; 84; 84]%Z
      (mkLongTensor [5; 30]%Z (repeat 3%Z 150)) [5; 30]%Z
    = Ok ([5; 30; 84; 84]%Z, [5; 30; 4]%Z, [5; 30; 1]%Z) /\
    DecisionTransformer_forward_shape m
      (mkLongTensor [0; 30]%Z []) [0; 30; 84; 84]%Z
      (mkLongTensor [0; 30]%Z []) [0; 30]%Z
    = Ok ([0; 30; 84; 84]%Z, [0; 30; 4]%Z, [0; 30; 1]%Z).
Proof.
  eexists. split; [reflexivity | split].
  - apply (@forward_shapes scenario_config _ 5%Z (repeat 999%Z 150)
             (repeat 3%Z 150)).
    + reflexivity.
    + simpl; lia.
    + simpl; lia.
    + simpl; lia.
    + simpl; lia.
    + lia.
    + apply Forall_forall. intros x Hx. apply repeat_spec in Hx. subst.
      unfold default_max_timestep. lia.
    + apply Forall_forall. intros x Hx. apply repeat_spec in Hx. subst.
      simpl. lia.
  - apply (@forward_shapes scenario_config _ 0%Z [] []); simpl; try lia;
      try reflexivity; constructor.
Defined.

(** ** The data flow of a forward pass *)

Section ZipFacts.
Context {A B C : Type}.

Lemma zip_with_length (f : A -> B -> C) (xs : list A) (ys : list B) :
  length (zip_with f xs ys) = Nat.min (length xs) (length ys).
Proof.
  revert ys. induction xs as [| x xs IH]; intros [| y ys]; simpl; auto.
Qed.

Lemma firstn_zip_with (f : A -> B -> C) (n : nat) (xs : list A) (ys : list B) :
  firstn n (zip_with f xs ys) = zip_with f (firstn n xs) (firstn n ys).
Proof.
  revert xs ys. induction n as [| n IH]; intros [| x xs] [| y ys]; simpl; auto.
  now rewrite IH.
Qed.

Lemma zip_with_firstn_r (f : A -> B -> C) (n : nat) (xs : list A) (ys : list B) :
  (length xs <= n)%nat -> zip_with f xs (firstn n ys) = zip_with f xs ys.
Proof.
  revert xs ys. induction n as [| n IH]; intros [| x xs] [| y ys] H;
    simpl in *; auto; try lia.
  rewrite IH by lia. reflexivity.
Qed.

Lemma zip_with_ext_in (f g : A -> B -> C) (xs : list A) (ys : list B) :
  (forall x y, In x xs -> f x y = g x y) ->
  zip_with f xs ys = zip_with g xs ys.
Proof.
  revert ys. induction xs as [| x xs IH]; intros [| y ys] H; simpl; auto.
  rewrite H by (now left). rewrite IH; [reflexivity |].
  intros x' y' Hin. apply H. now right.
Qed.

Lemma zip_with_app (f : A -> B -> C) (xs xs' : list A) (ys : list B) :
  zip_with f (xs ++ xs') ys
  = zip_with f xs (firstn (length xs) ys)
    ++ zip_with f xs' (skipn (length xs) ys).
Proof.
  revert ys. induction xs as [| x xs IH]; intros ys; simpl.
  - reflexivity.
  - destruct ys as [| y ys]; simpl.
    + now destruct xs'.
    + now rewrite IH.
Qed.

End ZipFacts.

Lemma zip_with_map_l {A A' B C : Type} (f : A' -> B -> C) (h : A -> A')
    (xs : list A) (ys : list B) :
  zip_with f (map h xs) ys = zip_with (fun x y => f (h x) y) xs ys.
Proof.
  revert ys. induction xs as [| x xs IH]; intros [| y ys]; simpl; auto.
  now rewrite IH.
Qed.

Lemma zip_with_map_r {A B B' C : Type} (f : A -> B' -> C) (h : B -> B')
    (xs : list A) (ys : list B) :
  zip_with f xs (map h ys) = zip_with (fun x y => f x (h y)) xs ys.
Proof.
  revert ys. induction xs as [| x xs IH]; intros [| y ys]; simpl; auto.
  now rewrite IH.
Qed.

Lemma firstn_seq_from (n start len : nat) :
  firstn n (seq start len) = seq start (Nat.min n len).
Proof.
  revert start len. induction n as [| n IH]; intros start [| len]; simpl; auto.
  now rewrite IH.
Qed.

Lemma firstn_seq_0 (n len : nat) :
  firstn n (seq 0 len) = seq 0 (Nat.min n len).
Proof. apply firstn_seq_from. Qed.

Lemma firstn_imap {A B : Type} (f : nat -> A -> B) (n : nat) (xs : list A) :
  firstn n (imap f xs) = imap f (firstn n xs).
Proof.
  unfold imap. rewrite firstn_zip_with, firstn_seq_0, length_firstn.
  reflexivity.
Qed.

Lemma imap_map {A A' B : Type} (f : nat -> A' -> B) (h : A -> A')
    (xs : list A) :
  imap f (map h xs) = imap (fun i x => f i (h x)) xs.
Proof. unfold imap. now rewrite length_map, zip_with_map_r. Qed.

Lemma imap_ext_in {A B : Type} (f g : nat -> A -> B) (xs : list A) :
  (forall i x, (i < length xs)%nat -> f i x = g i x) ->
  imap f xs = imap g xs.
Proof.
  intros H. unfold imap. apply zip_with_ext_in.
  intros i x Hin. apply in_seq in Hin. apply H. lia.
Qed.

Lemma imap_length {A B : Type} (f : nat -> A -> B) (xs : list A) :
  length (imap f xs) = length xs.
Proof. unfold imap. rewrite zip_with_length, length_seq. lia. Qed.

Lemma zip_with_seq_shift {A B : Type} (f : nat -> A -> B) (k : nat) :
  forall (n s : nat) (ys : list A),
    zip_with f (seq (k + s) n) ys
    = zip_with (fun j => f (k + j)%nat) (seq s n) ys.
Proof.
  induction n as [| n IH]; intros s ys; simpl; [reflexivity |].
  destruct ys as [| y ys]; [reflexivity |].
  f_equal. rewrite plus_n_Sm. apply IH.
Qed.

Lemma imap_app {A B : Type} (f : nat -> A -> B) (xs ys : list A) :
  imap f (xs ++ ys) = imap f xs ++ imap (fun j => f (length xs + j)%nat) ys.
Proof.
  unfold imap. rewrite length_app, seq_app, zip_with_app, length_seq.
  rewrite firstn_app, Nat.sub_diag, firstn_all, firstn_O, app_nil_r.
  rewrite skipn_app, Nat.sub_diag, skipn_all, skipn_O. simpl.
  f_equal. rewrite <- (Nat.add_0_r (length xs)) at 1.
  apply zip_with_seq_shift.
Qed.

Lemma imap_const {A B : Type} (c : B) (xs : list A) :
  imap (fun _ _ => c) xs = repeat c (length xs).
Proof.
  unfold imap. generalize 0%nat as s.
  induction xs as [| x xs IH]; intros s; simpl; [reflexivity |].
  now rewrite IH.
Qed.

Lemma map_imap {A B C : Type} (h : B -> C) (f : nat -> A -> B) (xs : list A) :
  map h (imap f xs) = imap (fun i x => h (f i x)) xs.
Proof.
  unfold imap. generalize 0%nat as s.
  induction xs as [| x xs IH]; intros s; simpl; [reflexivity |].
  now rewrite IH.
Qed.

Section AttentionFacts.
Local Open Scope R_scope.

Lemma sumR_app (a b : vec) : sumR (a ++ b) = sumR a + sumR b.
Proof.
  unfold sumR. induction a as [| x a IH]; simpl; [lra | rewrite IH; lra].
Qed.

Lemma sumR_zeros (m : nat) : sumR (repeat 0 m) = 0.
Proof. unfold sumR. induction m as [| m IH]; simpl; [reflexivity | lra]. Qed.

Lemma softmax_masked_tail (p : list (option R)) (m : nat) :
  softmax (p ++ repeat None m) = softmax p ++ repeat 0 m.
Proof.
  unfold softmax. rewrite !map_app, sumR_app.
  assert (Hz : map exp_ext (repeat None m) = repeat 0 m).
  { induction m as [| m IH]; simpl; [reflexivity | now rewrite IH]. }
  rewrite Hz, sumR_zeros, Rplus_0_r. f_equal.
  clear Hz. induction m as [| m IH]; simpl; [reflexivity |].
  rewrite IH. f_equal. unfold Rdiv. apply Rmult_0_l.
Qed.

Lemma apply_att_rows (D : nat) (att : list (list (option R))) (v : list vec) :
  apply_att D (map softmax att) v = map (fun row => row_out D row v) att.
Proof. unfold apply_att. now rewrite map_map. Qed.

Lemma weighted_zero_tail (d m : nat) (sp : list R) (v : list vec) :
  sumR (zip_with (fun a vj => a * nth d vj 0) (sp ++ repeat 0 m) v)
  = sumR (zip_with (fun a vj => a * nth d vj 0) sp v).
Proof.
  rewrite zip_with_app, sumR_app.
  rewrite zip_with_firstn_r by lia.
  assert (Hz : forall (l : list vec),
             sumR (zip_with (fun a vj => a * nth d vj 0) (repeat 0 m) l) = 0).
  { induction m as [| m IH]; intros [| x l]; simpl; try reflexivity.
    rewrite IH. lra. }
  rewrite Hz. lra.
Qed.

(** Keys that are masked for a query do not reach its output. *)
Lemma row_out_prefix (D n m : nat) (p : list (option R)) (v : list vec) :
  (length p <= n)%nat ->
  row_out D (p ++ repeat None m) v = row_out D p (firstn n v).
Proof.
  intros Hp. unfold row_out. apply map_ext. intros d.
  rewrite softmax_masked_tail, weighted_zero_tail.
  rewrite zip_with_firstn_r; [reflexivity |].
  unfold softmax. now rewrite !length_map.
Qed.

Lemma tril_ones_causal (max_T : nat) : causal (tril_ones max_T).
Proof.
  intros i j H. unfold mask_at, tril_ones in H.
  destruct (Nat.lt_ge_cases i max_T) as [Hi | Hi].
  - rewrite nth_map_seq in H by exact Hi.
    destruct (Nat.lt_ge_cases j max_T) as [Hj | Hj].
    + rewrite nth_map_seq in H by exact Hj. now apply Nat.leb_le.
    + rewrite nth_overflow in H by (now rewrite length_map, length_seq).
      discriminate.
  - rewrite (nth_overflow (map _ _)) in H
      by (now rewrite length_map, length_seq).
    destruct j; discriminate.
Qed.

Lemma masked_row_split (mask : list (list bool)) (i n : nat) (row : list R) :
  causal mask -> (i < n)%nat ->
  imap (mask_entry mask i) row
  = imap (mask_entry mask i) (firstn n row)
    ++ repeat None (length row - n).
Proof.
  intros Hc Hi.
  rewrite <- (firstn_skipn n row) at 1. rewrite imap_app. f_equal.
  destruct (Nat.lt_ge_cases (length row) n) as [Hl | Hl].
  - rewrite skipn_all2 by lia. replace (length row - n)%nat with 0%nat by lia.
    reflexivity.
  - rewrite length_firstn, Nat.min_l by exact Hl.
    rewrite <- (length_skipn n row). rewrite <- imap_const.
    apply imap_ext_in. intros j a _. unfold mask_entry.
    destruct (mask_at mask i (n + j)) eqn:E; [| reflexivity].
    apply Hc in E. lia.
Qed.

Lemma head_out_rows (mask : list (list bool)) (D : nat) (q k v : list vec) :
  head_out mask D q k v
  = imap (fun i qi =>
            row_out D
              (imap (mask_entry mask i)
                    (map (fun kj => dot qi kj / sqrt (INR D)) k)) v) q.
Proof.
  unfold head_out, masked_fill, scores.
  rewrite apply_att_rows, imap_map, map_imap. reflexivity.
Qed.

(** Causality of one head: its first [n] outputs are computed from the
    first [n] queries, keys and values. *)
Lemma head_out_prefix (mask : list (list bool)) (D n : nat) (q k v : list vec) :
  causal mask ->
  firstn n (head_out mask D q k v)
  = head_out mask D (firstn n q) (firstn n k) (firstn n v).
Proof.
  intros Hc. rewrite !head_out_rows, firstn_imap.
  apply imap_ext_in. intros i qi Hi.
  rewrite length_firstn in Hi.
  rewrite (@masked_row_split mask i n _ Hc) by lia.
  rewrite (@row_out_prefix D n)
    by (rewrite imap_length, length_firstn; lia).
  now rewrite firstn_map.
Qed.

End AttentionFacts.

Lemma nth_firstn_lt {A : Type} (i n : nat) (l : list A) (d : A) :
  (i < n)%nat -> nth i (firstn n l) d = nth i l d.
Proof.
  revert i l. induction n as [| n IH]; intros i l Hi; [lia |].
  destruct l as [| x l]; [now destruct i |].
  destruct i as [| i]; simpl; [reflexivity | apply IH; lia].
Qed.

Lemma head_slice_firstn (h D n : nat) (t : list vec) :
  head_slice h D (firstn n t) = firstn n (head_slice h D t).
Proof. unfold head_slice. now rewrite firstn_map. Qed.

(** Causality of the attention module: the first [n] output tokens are the
    output on the first [n] input tokens. *)
Lemma MaskedCausalAttention_forward_prefix (a : AttentionW) (n : nat)
    (x : list vec) :
  firstn n (MaskedCausalAttention_forward a x)
  = MaskedCausalAttention_forward a (firstn n x).
Proof.
  destruct n as [| n]; [reflexivity |].
  destruct x as [| x0 x]; [reflexivity |].
  unfold MaskedCausalAttention_forward.
  change (hd [] (firstn (S n) (x0 :: x))) with x0.
  change (hd [] (x0 :: x)) with x0.
  set (D := (length x0 / aw_n_heads a)%nat).
  set (xs := x0 :: x).
  rewrite firstn_map. f_equal.
  unfold gather_heads. rewrite firstn_map, firstn_seq_0, length_firstn.
  apply map_ext_in. intros i Hi. apply in_seq in Hi.
  f_equal. rewrite !map_map. apply map_ext. intros h.
  cbv zeta.
  rewrite <- !firstn_map, !head_slice_firstn.
  pose proof (@head_out_prefix (tril_ones (aw_max_T a)) D (S n)) as Hp.
  unfold head_out in Hp.
  rewrite <- Hp by apply tril_ones_causal.
  rewrite nth_firstn_lt by lia. reflexivity.
Qed.

Lemma tadd_firstn (n : nat) (a b : list vec) :
  firstn n (tadd a b) = tadd (firstn n a) (firstn n b).
Proof. apply firstn_zip_with. Qed.

Lemma Block_forward_prefix (b : BlockW) (n : nat) (x : list vec) :
  firstn n (Block_forward b x) = Block_forward b (firstn n x).
Proof.
  unfold Block_forward. cbv zeta.
  rewrite !tadd_firstn, !firstn_map, MaskedCausalAttention_forward_prefix.
  rewrite !tadd_firstn, !firstn_map, MaskedCausalAttention_forward_prefix.
  rewrite !firstn_map. reflexivity.
Qed.

Lemma blocks_forward_prefix (bs : list BlockW) (n : nat) (x : list vec) :
  firstn n (fold_left (fun x block => Block_forward block x) bs x)
  = fold_left (fun x block => Block_forward block x) bs (firstn n x).
Proof.
  revert x. induction bs as [| b bs IH]; intros x; simpl; [reflexivity |].
  now rewrite IH, Block_forward_prefix.
Qed.

(** Causality of the stack: hidden states at the first [n] positions depend
    on the first [n] input tokens only. *)
Lemma transformer_prefix (w : DecisionTransformerW) (n : nat) (x : list vec) :
  firstn n (transformer w x) = transformer w (firstn n x).
Proof.
  unfold transformer. cbv zeta.
  now rewrite firstn_map, blocks_forward_prefix, firstn_map.
Qed.

Lemma transformer_agree (w : DecisionTransformerW) (n p : nat)
    (x x' : list vec) :
  firstn n x = firstn n x' -> (p < n)%nat ->
  nth p (transformer w x) [] = nth p (transformer w x') [].
Proof.
  intros Hx Hp.
  rewrite <- (nth_firstn_lt (transformer w x) [] Hp).
  rewrite <- (nth_firstn_lt (transformer w x') [] Hp).
  now rewrite !transformer_prefix, Hx.
Qed.

(** *** Where the tokens of a window lie in the input sequence *)

(** The sequence built by [stack] and [reshape] is lane-major: the [T]
    return tokens, then the [T] state tokens, then the [T] action tokens. *)
Lemma token_sequence_lanes {A : Type} (r s a : list A) :
  token_sequence r s a = r ++ s ++ a.
Proof.
  unfold token_sequence, merge_axes, stack_dim1. simpl.
  now rewrite app_nil_r.
Qed.

Lemma token_sequence_position {A : Type} (r s a : list A) (d : A) (T t : nat) :
  length r = T -> length s = T -> (t < T)%nat ->
  nth t (token_sequence r s a) d = nth t r d /\
  nth (T + t) (token_sequence r s a) d = nth t s d /\
  nth (2 * T + t) (token_sequence r s a) d = nth t a d.
Proof.
  intros Hr Hs Ht. rewrite token_sequence_lanes. repeat split.
  - rewrite app_nth1 by lia. reflexivity.
  - rewrite app_nth2 by lia. rewrite app_nth1 by lia. f_equal. lia.
  - rewrite app_nth2 by lia. rewrite app_nth2 by lia. f_equal. lia.
Qed.

(** Position [3t + l] of the hidden sequence is what the prediction heads
    read as lane [l] of timestep [t]. *)
Lemma lane_group3 {A : Type} (d : A) (l T t : nat) (h : list A) :
  (l < 3)%nat -> (t < T)%nat ->
  nth t (lane d l (group3 T h)) d = nth (3 * t + l) h d.
Proof.
  intros Hl Ht. unfold lane, group3, reshape_rows.
  rewrite map_map, nth_map_seq by exact Ht.
  rewrite nth_firstn_lt by exact Hl.
  rewrite nth_skipn. f_equal. lia.
Qed.

Lemma embeddings_length (w : DecisionTransformerW) (timesteps : list Z)
    (states : image) (returns_to_go : vec) :
  length (returns_embeddings w timesteps returns_to_go) = length timesteps /\
  length (state_embeddings w timesteps states) = length timesteps.
Proof.
  unfold returns_embeddings, state_embeddings, tadd, time_embeddings,
    reshape_rows.
  rewrite !zip_with_length, !length_map, !length_seq. lia.
Qed.

(** C1 (failing input).  For a window of two timesteps the sequence handed
    to the transformer is (r0, r1, s0, s1, a0, a1), not the interleaved
    (r0, s0, a0, r1, s1, a1) that the comment above the [stack] and the
    later [reshape(B, T, 3, h_dim)] assume: position 1 holds the embedded
    return of timestep 1, position 2 the embedded state of timestep 0. *)
Theorem token_sequence_window_two :
  token_sequence ["r0"; "r1"] ["s0"; "s1"] ["a0"; "a1"]
  = ["r0"; "r1"; "s0"; "s1"; "a0"; "a1"] /\
  token_sequence ["r0"; "r1"] ["s0"; "s1"] ["a0"; "a1"]
  <> ["r0"; "s0"; "a0"; "r1"; "s1"; "a1"] /\
  forall (w : DecisionTransformerW) (t0 t1 : Z) (states : image)
         (a0 a1 : Z) (returns_to_go : vec),
    let r := returns_embeddings w [t0; t1] returns_to_go in
    let s := state_embeddings w [t0; t1] states in
    let a := action_embeddings w [t0; t1] [a0; a1] in
    token_sequence r s a
    = [nth 0 r []; nth 1 r []; nth 0 s []; nth 1 s []; nth 0 a []; nth 1 a []].
Proof.
  split; [reflexivity | split; [discriminate |]].
  intros w t0 t1 states a0 a1 returns_to_go r s a.
  rewrite token_sequence_lanes. reflexivity.
Qed.

(** *** What the action prediction of a timestep reads *)

Lemma action_preds_nth (w : DecisionTransformerW) (timesteps : list Z)
    (states : image) (actions : list Z) (returns_to_go : vec) (t : nat) :
  (t < length timesteps)%nat ->
  nth t (action_preds
           (DecisionTransformer_forward w timesteps states actions returns_to_go))
      []
  = linear (w_predict_action w)
      (nth (3 * t + 1)
           (transformer w
              (token_sequence (returns_embeddings w timesteps returns_to_go)
                              (state_embeddings w timesteps states)
                              (action_embeddings w timesteps actions)))
           []).
Proof.
  intros Ht. unfold DecisionTransformer_forward. cbv zeta.
  cbn [action_preds].
  rewrite (nth_indep _ [] (linear (w_predict_action w) []))
    by (unfold lane, group3, reshape_rows;
        rewrite !length_map, length_seq; exact Ht).
  rewrite map_nth. f_equal. apply lane_group3; [lia | exact Ht].
Qed.

Lemma action_embeddings_prefix (w : DecisionTransformerW) (timesteps : list Z)
    (actions actions' : list Z) (t : nat) :
  firstn t actions = firstn t actions' ->
  firstn t (action_embeddings w timesteps actions)
  = firstn t (action_embeddings w timesteps actions').
Proof.
  intros H. unfold action_embeddings.
  now rewrite !tadd_firstn, !firstn_map, H.
Qed.

Lemma token_sequence_prefix (w : DecisionTransformerW) (timesteps : list Z)
    (states : image) (actions actions' : list Z) (returns_to_go : vec)
    (t : nat) :
  firstn t actions = firstn t actions' ->
  firstn (2 * length timesteps + t)
    (token_sequence (returns_embeddings w timesteps returns_to_go)
                    (state_embeddings w timesteps states)
                    (action_embeddings w timesteps actions))
  = firstn (2 * length timesteps + t)
      (token_sequence (returns_embeddings w timesteps returns_to_go)
                      (state_embeddings w timesteps states)
                      (action_embeddings w timesteps actions')).
Proof.
  intros H. rewrite !token_sequence_lanes.
  destruct (embeddings_length w timesteps states returns_to_go) as (Hr & Hs).
  replace (2 * length timesteps + t)%nat
    with (length (returns_embeddings w timesteps returns_to_go)
          + (length (state_embeddings w timesteps states) + t))%nat by lia.
  rewrite !firstn_app_2. f_equal. f_equal.
  now apply action_embeddings_prefix.
Qed.

(** C2 (amended).  Two forward passes (dropout disabled) on inputs with the
    same timesteps, returns-to-go and states, and the same actions at all
    timesteps strictly before [t], give the same action-prediction logits at
    timestep [t]: the action at [t] and every later action have no
    influence on them. *)
Theorem action_prediction_ignores_later_actions :
  forall (w : DecisionTransformerW) (timesteps : list Z) (states : image)
         (returns_to_go : vec) (actions actions' : list Z) (t : nat),
    (t < length timesteps)%nat ->
    firstn t actions = firstn t actions' ->
    nth t (action_preds
             (DecisionTransformer_forward w timesteps states actions
                returns_to_go)) []
    = nth t (action_preds
               (DecisionTransformer_forward w timesteps states actions'
                  returns_to_go)) [].
Proof.
  intros w timesteps states returns_to_go actions actions' t Ht Hagree.
  rewrite !action_preds_nth by exact Ht. f_equal.
  apply (@transformer_agree w (2 * length timesteps + t)%nat).
  - now apply token_sequence_prefix.
  - lia.
Qed.

(** *** A later return-to-go reaches an earlier action prediction *)

Section Leak.
Local Open Scope R_scope.

Lemma squash_den_pos (x : R) : 0 < sqrt (x * x + ln_eps).
Proof. apply sqrt_lt_R0. unfold ln_eps. nra. Qed.

Lemma squash_0 : squash 0 = 0.
Proof. unfold squash, Rdiv. ring. Qed.

Lemma squash_pos (x : R) : 0 < x -> 0 < squash x.
Proof.
  intros Hx. unfold squash. apply Rdiv_lt_0_compat; [exact Hx |].
  apply squash_den_pos.
Qed.

Lemma squash_odd (x : R) : squash (- x) = - squash x.
Proof.
  unfold squash. replace (- x * - x) with (x * x) by ring.
  unfold Rdiv. ring.
Qed.

Lemma mean_2 (u v : R) : mean [u; v] = (u + v) / 2.
Proof. unfold mean. simpl. field. Qed.

Lemma variance_2 (u v : R) :
  variance [u; v] = (u - v) / 2 * ((u - v) / 2).
Proof. unfold variance. rewrite mean_2. simpl. field. Qed.

Lemma layer_norm_unit_2 (u v : R) :
  layer_norm unit_layer_norm [u; v]
  = [squash ((u - v) / 2); squash ((v - u) / 2)].
Proof.
  unfold layer_norm. rewrite variance_2, mean_2.
  unfold unit_layer_norm, squash. simpl.
  replace (u - (u + v) / 2) with ((u - v) / 2) by field.
  replace (v - (u + v) / 2) with ((v - u) / 2) by field.
  replace ((v - u) / 2 * ((v - u) / 2)) with ((u - v) / 2 * ((u - v) / 2))
    by field.
  f_equal; [| f_equal]; unfold Rdiv; ring.
Qed.

Lemma layer_norm_unit_zero : layer_norm unit_layer_norm [0; 0] = [0; 0].
Proof.
  rewrite layer_norm_unit_2.
  replace ((0 - 0) / 2) with 0 by field. now rewrite squash_0.
Qed.

Lemma tanh_0 : tanh 0 = 0.
Proof. unfold tanh. rewrite sinh_0, cosh_0. field. Qed.

Lemma tanh_1_pos : 0 < tanh 1.
Proof.
  unfold tanh. apply Rdiv_lt_0_compat.
  - rewrite <- sinh_0. apply sinh_lt. lra.
  - unfold cosh. pose proof (exp_pos 1). pose proof (exp_pos (Ropp 1)). lra.
Qed.

End Leak.

Section LeakRun.
Local Open Scope R_scope.

Lemma nth_map_layer_norm (ln : LayerNorm) (p : nat) (x : list vec) :
  nth p (map (layer_norm ln) x) [] = layer_norm ln (nth p x []).
Proof.
  change (@nil R) with (layer_norm ln []) at 1. apply map_nth.
Qed.

Lemma dot_zeros (n : nat) (v : vec) : dot (zeros n) v = 0.
Proof.
  unfold dot, zeros. revert v.
  induction n as [| n IH]; intros [| x v]; simpl; try reflexivity.
  unfold sumR in *. rewrite IH. ring.
Qed.

Lemma linear_zero (out inp : nat) (v : vec) :
  linear (zero_linear out inp) v = zeros out.
Proof.
  unfold linear, zero_linear, zeros. simpl.
  induction out as [| out IH]; simpl; [reflexivity |].
  rewrite IH. f_equal. fold (zeros inp). rewrite dot_zeros. ring.
Qed.

Lemma relay_qkv (a b : R) :
  linear (aw_c_attn (bw_attn relay_block)) [a; b] = [0; 0; 0; 0; a; b].
Proof.
  unfold linear, dot. cbn. repeat (f_equal; try ring).
Qed.

Lemma relay_proj (a b : R) :
  linear (aw_c_proj (bw_attn relay_block)) [a; b] = [a; b].
Proof.
  unfold linear, dot. cbn. repeat (f_equal; try ring).
Qed.

(** The attention of [relay_block] on two tokens: the first token sees
    itself, the second sees both with equal weights. *)
Lemma relay_attention_two (a b c d : R) :
  MaskedCausalAttention_forward (bw_attn relay_block) [[a; b]; [c; d]]
  = [[a; b]; [(a + c) / 2; (b + d) / 2]].
Proof.
  unfold MaskedCausalAttention_forward. cbv zeta.
  cbn [map]. rewrite !relay_qkv.
  cbn [bw_attn relay_block aw_n_heads aw_h_dim aw_max_T length hd].
  change (2 / 1)%nat with 2%nat.
  cbn [map firstn skipn seq Nat.mul Nat.add head_slice].
  unfold head_slice. cbn [map firstn skipn seq Nat.mul Nat.add].
  unfold scores. cbn [map]. unfold dot. cbn [zip_with sumR fold_right].
  unfold masked_fill, imap. cbn [length seq zip_with].
  unfold mask_at, tril_ones. cbn [seq map nth Nat.leb].
  unfold softmax. cbn [map exp_ext sumR fold_right].
  unfold apply_att. cbn [map seq zip_with nth sumR fold_right].
  unfold gather_heads. cbn [map seq nth concat app].
  replace ((0 * 0 + (0 * 0 + 0)) / sqrt (INR 2)) with 0
    by (unfold Rdiv; ring).
  rewrite exp_0.
  change (aw_c_proj _) with (aw_c_proj (bw_attn relay_block)).
  rewrite !relay_proj.
  f_equal; [| f_equal]; f_equal; try (f_equal; field); field.
Qed.

(** The relay block on two tokens: the second token receives half of the
    sum of the two normalised tokens. *)
Lemma relay_block_two (a b c d : R) :
  nth 1 (Block_forward relay_block [[a; b]; [c; d]]) []
  = [c + (squash ((a - b) / 2) + squash ((c - d) / 2)) / 2;
     d + (squash ((b - a) / 2) + squash ((d - c) / 2)) / 2].
Proof.
  unfold Block_forward. cbv zeta.
  rewrite (map_ext (mlpf relay_block) (fun _ => zeros 2))
    by (intros tok; unfold mlpf; apply (linear_zero 2 8)).
  cbn [map]. change (bw_ln_1 relay_block) with unit_layer_norm.
  rewrite !layer_norm_unit_2, relay_attention_two.
  unfold tadd, vadd. cbn [map zip_with nth zeros repeat].
  f_equal; [| f_equal]; ring.
Qed.

Lemma leaky_model_return_tokens (r0 r1 : R) :
  returns_embeddings leaky_model [0; 1]%Z [r0; r1]
  = [[tanh r1; 0]; [0; 0]].
Proof.
  unfold returns_embeddings, embed_rtg, time_embeddings, embed_timestep,
    embedding, reshape_rows, tadd, linear, vadd, dot, leaky_model, zeros.
  simpl.
  rewrite tanh_0.
  replace (0 * r0 + (1 * r1 + 0) + 0) with r1 by ring.
  replace (0 * r0 + (0 * r1 + 0) + 0) with 0 by ring.
  rewrite tanh_0.
  repeat (f_equal; try ring).
Qed.

(** The hidden state that the action head reads for timestep 0: position 1
    of the output of the transformer, which depends on the first two tokens
    only. *)
Lemma leaky_model_hidden (x : list vec) (c : R) :
  firstn 2 x = [[c; 0]; [0; 0]] ->
  nth 1 (transformer leaky_model x) []
  = layer_norm unit_layer_norm
      (nth 1 (Block_forward relay_block
                [layer_norm unit_layer_norm [c; 0]; [0; 0]]) []).
Proof.
  intros Hx.
  rewrite <- (@nth_firstn_lt _ 1 2 (transformer leaky_model x) []) by lia.
  rewrite transformer_prefix, Hx.
  unfold transformer. cbv zeta.
  rewrite nth_map_layer_norm.
  cbn [w_blocks leaky_model fold_left map w_embed_ln w_ln_f].
  now rewrite layer_norm_unit_zero.
Qed.

(** The action logits of timestep 0 in [leaky_model], as a function of the
    return-to-go of timestep 1. *)
Lemma relay_logit (c : R) :
  linear (w_predict_action leaky_model)
    (layer_norm unit_layer_norm
       (nth 1 (Block_forward relay_block
                 [layer_norm unit_layer_norm [c; 0]; [0; 0]]) []))
  = [squash (squash (squash (c / 2)) / 2); 0].
Proof.
  rewrite layer_norm_unit_2, relay_block_two, layer_norm_unit_2.
  unfold linear, dot.
  cbn [w_predict_action leaky_model weight bias zip_with zeros repeat sumR
       fold_right].
  replace ((c - 0) / 2) with (c / 2) by field.
  replace ((0 - c) / 2) with (- (c / 2)) by field.
  replace ((0 - 0) / 2) with 0 by field.
  rewrite squash_odd, squash_0.
  set (a := squash (c / 2)).
  replace ((a - - a) / 2) with a by field.
  replace ((- a - a) / 2) with (- a) by field.
  rewrite squash_odd.
  set (s := squash a).
  replace ((0 + (s + 0) / 2 - (0 + (- s + 0) / 2)) / 2) with (s / 2) by field.
  replace ((0 + (- s + 0) / 2 - (0 + (s + 0) / 2)) / 2) with (- (s / 2))
    by field.
  rewrite squash_odd. f_equal; [ring | f_equal; ring].
Qed.

Lemma leaky_model_logit (r0 r1 : R) :
  nth 0 (action_preds
           (DecisionTransformer_forward leaky_model [0; 1]%Z zero_frames
              [0; 0]%Z [r0; r1])) []
  = [squash (squash (squash (tanh r1 / 2)) / 2); 0].
Proof.
  rewrite action_preds_nth by (simpl; lia).
  change (3 * 0 + 1)%nat with 1%nat.
  rewrite (@leaky_model_hidden _ (tanh r1)).
  - apply relay_logit.
  - rewrite token_sequence_lanes, leaky_model_return_tokens. reflexivity.
Qed.

Lemma leaky_model_embed_state (states : image) :
  embed_state leaky_model states = map tanh (zeros 4).
Proof.
  unfold embed_state. cbv zeta.
  change (w_embed_state_fc leaky_model) with (zero_linear 4 3136).
  now rewrite linear_zero.
Qed.

Lemma leaky_model_other_tokens (states : image) :
  state_embeddings leaky_model [0; 1]%Z states = [[0; 0]; [0; 0]] /\
  action_embeddings leaky_model [0; 1]%Z [0; 0]%Z = [[0; 0]; [0; 0]].
Proof.
  unfold state_embeddings. rewrite leaky_model_embed_state.
  unfold action_embeddings, embed_action, time_embeddings, embed_timestep,
    embedding, reshape_rows, tadd, vadd, leaky_model, zeros.
  simpl. rewrite tanh_0.
  replace (0 + 0) with 0 by ring. split; reflexivity.
Qed.

Lemma leaky_model_logit_interleaved (states : image) (r0 r1 : R) :
  linear (w_predict_action leaky_model)
    (nth 1 (transformer leaky_model
              (interleaved (returns_embeddings leaky_model [0; 1]%Z [r0; r1])
                           (state_embeddings leaky_model [0; 1]%Z states)
                           (action_embeddings leaky_model [0; 1]%Z [0; 0]%Z)))
         [])
  = [squash (squash (squash (tanh r1 / 2)) / 2); 0].
Proof.
  destruct (leaky_model_other_tokens states) as (Hs & Ha).
  rewrite Hs, Ha, leaky_model_return_tokens.
  rewrite (@leaky_model_hidden _ (tanh r1)) by reflexivity.
  apply relay_logit.
Qed.

Lemma relay_logit_pos : 0 < squash (squash (squash (tanh 1 / 2)) / 2).
Proof.
  pose proof tanh_1_pos as Ht.
  assert (H1 : 0 < squash (tanh 1 / 2)) by (apply squash_pos; lra).
  assert (H2 : 0 < squash (squash (tanh 1 / 2))) by (apply squash_pos; lra).
  apply squash_pos. lra.
Qed.

Lemma relay_logit_0 : squash (squash (squash (tanh 0 / 2)) / 2) = 0.
Proof.
  rewrite tanh_0. replace (0 / 2) with 0 by field.
  rewrite !squash_0. replace (0 / 2) with 0 by field. apply squash_0.
Qed.

End LeakRun.

(** *** A later state reaches an earlier action prediction *)

Section LeakState.
Local Open Scope R_scope.

Lemma weighted_zeros (g : nat -> R) (s n : nat) :
  sumR (zip_with (fun e we => we * g e) (seq s n) (zeros n)) = 0.
Proof.
  revert s. induction n as [| n IH]; intros s; simpl; [reflexivity |].
  unfold zeros in IH. rewrite IH. ring.
Qed.

Lemma imap_zeros (g : nat -> R) (n : nat) :
  sumR (imap (fun e we => we * g e) (zeros n)) = 0.
Proof.
  unfold imap, zeros. rewrite repeat_length. apply weighted_zeros.
Qed.

Lemma rows_zeros (f : nat -> nat -> R) (k s n : nat) :
  sumR (zip_with (fun a wa => sumR (imap (fun e we => we * f a e) wa))
          (seq s n) (repeat (zeros k) n)) = 0.
Proof.
  revert s. induction n as [| n IH]; intros s; simpl; [reflexivity |].
  rewrite IH, imap_zeros. ring.
Qed.

Lemma kernel_sum_zero (f : nat -> nat -> R) (k : nat) :
  kernel_sum f (zero_kernel k) = 0.
Proof.
  unfold kernel_sum, zero_kernel, imap. rewrite repeat_length.
  apply rows_zeros.
Qed.

Lemma kernel_sum_corner (f : nat -> nat -> R) (k : nat) :
  kernel_sum f (corner_kernel k) = f 0%nat 0%nat.
Proof.
  unfold kernel_sum, corner_kernel, imap.
  cbn [length seq zip_with sumR fold_right].
  rewrite repeat_length.
  fold (sumR (zip_with (fun a wa => sumR (zip_with (fun e we => we * f a e)
                                            (seq 0 (length wa)) wa))
                (seq 1 (k - 1)) (repeat (zeros k) (k - 1)))).
  pose proof (rows_zeros f k 1 (k - 1)) as Hz. unfold imap in Hz.
  rewrite Hz.
  fold (sumR (zip_with (fun e we => we * f 0%nat e)
                (seq 1 (length (zeros (k - 1)))) (zeros (k - 1)))).
  unfold zeros at 1. rewrite repeat_length.
  rewrite weighted_zeros. ring.
Qed.

Lemma kernels_zero (f : nat -> nat -> nat -> R) (k s n : nat) :
  sumR (zip_with (fun c wc => kernel_sum (f c) wc) (seq s n)
          (repeat (zero_kernel k) n)) = 0.
Proof.
  revert s. induction n as [| n IH]; intros s; simpl; [reflexivity |].
  rewrite IH, kernel_sum_zero. ring.
Qed.

Lemma imap_kernels_zero (f : nat -> nat -> nat -> R) (k n : nat) :
  sumR (imap (fun c wc => kernel_sum (f c) wc) (repeat (zero_kernel k) n)) = 0.
Proof. unfold imap. rewrite repeat_length. apply kernels_zero. Qed.

(** The weighted sum over the channels of a window, when only the corner
    weight of channel [c] is set. *)
Lemma channel_sum_corner (f : nat -> nat -> nat -> R) (k c m : nat) :
  sumR (imap (fun c' wc => kernel_sum (f c') wc)
          (repeat (zero_kernel k) c ++ corner_kernel k
             :: repeat (zero_kernel k) m))
  = f c 0%nat 0%nat.
Proof.
  rewrite imap_app, sumR_app, imap_kernels_zero, repeat_length.
  unfold imap. cbn [length seq zip_with sumR fold_right].
  rewrite kernel_sum_corner, Nat.add_0_r, repeat_length.
  fold (sumR (zip_with (fun c' wc => kernel_sum (f (c + c')%nat) wc)
                (seq 1 m) (repeat (zero_kernel k) m))).
  rewrite (kernels_zero (fun c' => f (c + c')%nat)). ring.
Qed.

(** The first pixel of the first output channel of a convolution. *)
Lemma conv2d_origin (cv : Conv2d) (img : image) (w0 : list (list vec))
    (ws : list (list (list vec))) (b0 : R) (bs : vec) :
  conv_weight cv = w0 :: ws -> conv_bias cv = b0 :: bs ->
  exists tail rows chans,
    conv2d cv img
    = ((sumR (imap (fun c wc =>
                      kernel_sum (fun a e => pixel img c a e) wc) w0) + b0
        :: tail) :: rows) :: chans.
Proof.
  intros Hw Hb. unfold conv2d. cbv zeta. rewrite Hw, Hb.
  cbn [zip_with seq map Nat.mul Nat.add].
  do 3 eexists. unfold kernel_sum. reflexivity.
Qed.

Lemma map_const {A B : Type} (c : B) (l : list A) :
  map (fun _ => c) l = repeat c (length l).
Proof. induction l as [| x l IH]; simpl; [reflexivity | now rewrite IH]. Qed.

Lemma vadd_zeros (tok : vec) : vadd tok (zeros (length tok)) = tok.
Proof.
  unfold vadd, zeros. induction tok as [| x tok IH]; simpl; [reflexivity |].
  rewrite IH. f_equal. ring.
Qed.

Lemma tadd_zero_rows (h : nat) (x : list vec) :
  Forall (fun tok => length tok = h) x ->
  tadd x (repeat (zeros h) (length x)) = x.
Proof.
  unfold tadd. induction 1 as [| tok x Htok _ IH]; simpl; [reflexivity |].
  rewrite IH. f_equal. rewrite <- Htok. apply vadd_zeros.
Qed.

Lemma MaskedCausalAttention_forward_idle (a : AttentionW) (h : nat)
    (x : list vec) :
  aw_c_proj a = zero_linear h h ->
  MaskedCausalAttention_forward a x = repeat (zeros h) (length x).
Proof.
  intros Hp. unfold MaskedCausalAttention_forward. cbv zeta. rewrite Hp.
  rewrite (map_ext _ (fun _ => zeros h)) by (intros tok; apply linear_zero).
  rewrite map_const. unfold gather_heads.
  now rewrite length_map, length_seq.
Qed.

Lemma Block_forward_idle (b : BlockW) (h : nat) (x : list vec) :
  idle_block h b ->
  Forall (fun tok => length tok = h) x ->
  Block_forward b x = x.
Proof.
  intros (Ha & Hm) Hx. unfold Block_forward. cbv zeta.
  rewrite (MaskedCausalAttention_forward_idle _ _ Ha), length_map.
  rewrite (tadd_zero_rows Hx).
  rewrite (map_ext (mlpf b) (fun _ => zeros h))
    by (intros tok; unfold mlpf; rewrite Hm; apply linear_zero).
  rewrite map_const, length_map.
  apply (tadd_zero_rows Hx).
Qed.

(** With idle blocks only, the transformer is the two layer norms, token by
    token. *)
Lemma transformer_idle (w : DecisionTransformerW) (h p : nat) (x : list vec) :
  Forall (idle_block h) (w_blocks w) ->
  Forall (fun tok => length tok = h) (map (layer_norm (w_embed_ln w)) x) ->
  nth p (transformer w x) []
  = layer_norm (w_ln_f w) (layer_norm (w_embed_ln w) (nth p x [])).
Proof.
  intros Hb Hx. unfold transformer. cbv zeta.
  assert (Hfold : fold_left (fun x block => Block_forward block x) (w_blocks w)
                    (map (layer_norm (w_embed_ln w)) x)
                  = map (layer_norm (w_embed_ln w)) x).
  { induction Hb as [| b bs Hb0 _ IH]; simpl; [reflexivity |].
    now rewrite (Block_forward_idle Hb0 Hx). }
  rewrite Hfold. now rewrite !nth_map_layer_norm.
Qed.

Lemma relu_nonneg (x : R) : 0 <= x -> relu x = x.
Proof. intros H. unfold relu. now apply Rmax_right. Qed.

Lemma linear_pick (x : R) (rest : vec) :
  linear (pick_linear 6 3136 2) (x :: rest) = [0; 0; x; 0; 0; 0].
Proof.
  unfold linear, pick_linear.
  change (zeros 6) with [0; 0; 0; 0; 0; 0].
  change (3136 - 1)%nat with 3135%nat.
  cbn [weight bias repeat app Nat.sub zip_with].
  rewrite !dot_zeros.
  unfold dot. cbn [zip_with sumR fold_right].
  fold (sumR (zip_with Rmult (zeros 3135) rest)). fold (dot (zeros 3135) rest).
  rewrite dot_zeros.
  repeat (f_equal; try ring).
Qed.

(** One convolution of [state_leak_model] followed by ReLU: the first pixel
    of the result is the ReLU of the first pixel of input channel [c]. *)
Lemma corner_conv_relu (out inp c k st : nat) (img : image) :
  exists tail rows chans,
    relu_image (conv2d (corner_conv (S out) inp c k st) img)
    = ((relu (pixel img c 0 0 + 0) :: tail) :: rows) :: chans.
Proof.
  destruct (@conv2d_origin (corner_conv (S out) inp c k st) img
              (repeat (zero_kernel k) c ++ corner_kernel k
                 :: repeat (zero_kernel k) (inp - c - 1))
              (repeat (repeat (zero_kernel k) inp) (S out - 1))
              0 (zeros out) eq_refl eq_refl)
    as (tail & rows & chans & H).
  rewrite H, (channel_sum_corner (fun c' a e => pixel img c' a e)).
  unfold relu_image. cbn [map]. do 3 eexists. reflexivity.
Qed.

Lemma state_leak_embed_state (p : R) :
  0 <= p ->
  embed_state state_leak_model (lit_frames p)
  = [tanh 0; tanh 0; tanh p; tanh 0; tanh 0; tanh 0].
Proof.
  intros Hp. unfold embed_state. cbv zeta.
  change (w_conv1 state_leak_model) with (corner_conv 32 3 2 8 4).
  change (w_conv2 state_leak_model) with (corner_conv 64 32 0 4 2).
  change (w_conv3 state_leak_model) with (corner_conv 64 64 0 3 1).
  change (w_embed_state_fc state_leak_model) with (pick_linear 6 3136 2).
  destruct (corner_conv_relu 31 3 2 8 4 (lit_frames p))
    as (t1 & r1 & c1 & ->).
  destruct (corner_conv_relu 63 32 0 4 2
              (((relu (pixel (lit_frames p) 2 0 0 + 0) :: t1) :: r1) :: c1))
    as (t2 & r2 & c2 & ->).
  destruct (corner_conv_relu 63 64 0 3 1
              (((relu (pixel (((relu (pixel (lit_frames p) 2 0 0 + 0) :: t1)
                                 :: r1) :: c1) 0 0 0 + 0) :: t2) :: r2) :: c2))
    as (t3 & r3 & c3 & ->).
  unfold flatten. cbn [concat app].
  rewrite linear_pick.
  change (pixel (lit_frames p) 2 0 0) with p.
  cbn [pixel nth].
  rewrite !Rplus_0_r, !(relu_nonneg Hp).
  reflexivity.
Qed.

Lemma state_leak_tokens (p : R) :
  0 <= p ->
  returns_embeddings state_leak_model [0; 1; 2]%Z [0; 0; 0]
  = [[0; 0]; [0; 0]; [0; 0]] /\
  state_embeddings state_leak_model [0; 1; 2]%Z (lit_frames p)
  = [[0; 0]; [tanh p; 0]; [0; 0]] /\
  action_embeddings state_leak_model [0; 1; 2]%Z [0; 0; 0]%Z
  = [[0; 0]; [0; 0]; [0; 0]].
Proof.
  intros Hp.
  unfold returns_embeddings, state_embeddings, embed_rtg.
  rewrite (state_leak_embed_state Hp).
  change (w_embed_rtg state_leak_model) with (zero_linear 6 3).
  rewrite linear_zero.
  unfold action_embeddings, embed_action, time_embeddings, embed_timestep,
    embedding, reshape_rows, tadd, vadd, state_leak_model, zeros.
  simpl. rewrite !tanh_0.
  replace (0 + 0) with 0 by ring.
  replace (tanh p + 0) with (tanh p) by ring.
  repeat split; reflexivity.
Qed.

(** With its idle block, [state_leak_model] reads the action logits of a
    position off the token at that position alone. *)
Lemma state_leak_logit (x : list vec) (pos : nat) (c : R) :
  Forall (fun tok => length tok = 2%nat) x ->
  nth pos x [] = [c; 0] ->
  linear (w_predict_action state_leak_model)
    (nth pos (transformer state_leak_model x) [])
  = [squash (squash (c / 2)); 0].
Proof.
  intros Hx Hpos.
  rewrite (@transformer_idle state_leak_model 2).
  - rewrite Hpos.
    change (w_embed_ln state_leak_model) with unit_layer_norm.
    change (w_ln_f state_leak_model) with unit_layer_norm.
    rewrite !layer_norm_unit_2.
    unfold linear, dot.
    cbn [w_predict_action state_leak_model weight bias zip_with zeros repeat
         sumR fold_right].
    replace ((c - 0) / 2) with (c / 2) by field.
    replace ((0 - c) / 2) with (- (c / 2)) by field.
    rewrite squash_odd.
    set (a := squash (c / 2)).
    replace ((a - - a) / 2) with a by field.
    replace ((- a - a) / 2) with (- a) by field.
    rewrite squash_odd. f_equal; [ring | f_equal; ring].
  - repeat constructor.
  - change (w_embed_ln state_leak_model) with unit_layer_norm.
    apply Forall_forall. intros tok Htok.
    apply in_map_iff in Htok as (u & <- & Hu).
    rewrite Forall_forall in Hx. specialize (Hx u Hu).
    destruct u as [| u0 [| u1 [| u2 u]]]; try discriminate.
    now rewrite layer_norm_unit_2.
Qed.

Lemma state_leak_logits (p : R) :
  0 <= p ->
  nth 1 (action_preds
           (DecisionTransformer_forward state_leak_model [0; 1; 2]%Z
              (lit_frames p) [0; 0; 0]%Z [0; 0; 0])) []
  = [squash (squash (tanh p / 2)); 0] /\
  linear (w_predict_action state_leak_model)
    (nth 4 (transformer state_leak_model
              (interleaved
                 (returns_embeddings state_leak_model [0; 1; 2]%Z [0; 0; 0])
                 (state_embeddings state_leak_model [0; 1; 2]%Z
                    (lit_frames p))
                 (action_embeddings state_leak_model [0; 1; 2]%Z
                    [0; 0; 0]%Z)))
         [])
  = [squash (squash (tanh p / 2)); 0].
Proof.
  intros Hp. destruct (state_leak_tokens Hp) as (Hr & Hs & Ha).
  split.
  - rewrite action_preds_nth by (simpl; lia).
    change (3 * 1 + 1)%nat with 4%nat.
    rewrite Hr, Hs, Ha.
    apply state_leak_logit; [repeat constructor | reflexivity].
  - rewrite Hr, Hs, Ha.
    apply state_leak_logit; [repeat constructor | reflexivity].
Qed.

Lemma state_leak_pos : 0 < squash (squash (tanh 1 / 2)).
Proof.
  pose proof tanh_1_pos as Ht.
  assert (H1 : 0 < squash (tanh 1 / 2)) by (apply squash_pos; lra).
  now apply squash_pos.
Qed.

Lemma state_leak_0 : squash (squash (tanh 0 / 2)) = 0.
Proof.
  rewrite tanh_0. replace (0 / 2) with 0 by field. now rewrite !squash_0.
Qed.

End LeakState.

(** The parameters of [state_leak_model] fit a model constructed for two
    actions, one block, hidden dimension 2, windows of three steps, one head
    and three timesteps, whose forward pass accepts a batch of one window of
    three steps. *)
Lemma state_leak_model_fits :
  exists m,
    DecisionTransformer_init 84 2 1 2 3 1 0 3 = Ok m /\
    fits m state_leak_model = true /\
    DecisionTransformer_forward_shape m
      (mkLongTensor [1; 3]%Z [0; 1; 2]%Z) [1; 3; 84; 84]%Z
      (mkLongTensor [1; 3]%Z [0; 0; 0]%Z) [1; 3]%Z
    = Ok ([1; 3; 84; 84]%Z, [1; 3; 2]%Z, [1; 3; 1]%Z).
Proof.
  eexists. split; [reflexivity | split].
  - vm_compute. reflexivity.
  - vm_compute. reflexivity.
Qed.

(** The parameters of [leaky_model] fit a model constructed for two
    actions, one block, hidden dimension 2, windows of two steps, one head
    and two timesteps, whose forward pass accepts a batch of one window of
    two steps. *)
Lemma leaky_model_fits :
  exists m,
    DecisionTransformer_init 84 2 1 2 2 1 0 2 = Ok m /\
    fits m leaky_model = true /\
    DecisionTransformer_forward_shape m
      (mkLongTensor [1; 2]%Z [0; 1]%Z) [1; 2; 84; 84]%Z
      (mkLongTensor [1; 2]%Z [0; 0]%Z) [1; 2]%Z
    = Ok ([1; 2; 84; 84]%Z, [1; 2; 2]%Z, [1; 2; 1]%Z).
Proof.
  eexists. split; [reflexivity | split].
  - vm_compute. reflexivity.
  - vm_compute. reflexivity.
Qed.

(** C2 (as stated, refuted).  A later return-to-go and a later state both
    reach an earlier action prediction, each through its embedding alone.

    Returns.  Two inputs to the forward pass of [leaky_model] agree on the
    states, on every action and on the return-to-go of timestep 0, and
    differ only in the return-to-go of timestep 1, a token later than the
    action lane of timestep 0.  The embedded return of timestep 0 differs
    between the two runs, because [embed_rtg] is one Linear over the whole
    window, while the embedded return of timestep 1 is the same in both.
    The action head of timestep 0 reads position 1, which attends to
    position 0, and its logits differ.

    States.  Two inputs to the forward pass of [state_leak_model] agree on
    the returns-to-go, on every action and on the frames of timesteps 0 and
    1, and differ only in the frame of timestep 2.  The action head of
    timestep 1 reads position 4, the embedded state of timestep 1, which
    [embed_state] computes from all frames of the window, and its logits
    differ.

    The order of the tokens plays no part in either: positions 0 and 4 hold
    the embedded return of timestep 0 and the embedded state of timestep 1
    in the sequence the code builds and in the interleaved sequence that its
    comment announces, and the logits computed from the interleaved
    sequence differ in the same way. *)
Lemma action_noninterference_counterexample :
  (firstn 1 [0; 0]%R = firstn 1 [0; 1]%R /\
   nth 0 (returns_embeddings leaky_model [0; 1]%Z [0; 0]%R) []
   <> nth 0 (returns_embeddings leaky_model [0; 1]%Z [0; 1]%R) [] /\
   nth 1 (returns_embeddings leaky_model [0; 1]%Z [0; 0]%R) []
   = nth 1 (returns_embeddings leaky_model [0; 1]%Z [0; 1]%R) [] /\
   nth 0 (action_preds
            (DecisionTransformer_forward leaky_model [0; 1]%Z zero_frames
               [0; 0]%Z [0; 0]%R)) []
   <> nth 0 (action_preds
               (DecisionTransformer_forward leaky_model [0; 1]%Z zero_frames
                  [0; 0]%Z [0; 1]%R)) [] /\
   linear (w_predict_action leaky_model)
     (nth 1 (transformer leaky_model
               (interleaved
                  (returns_embeddings leaky_model [0; 1]%Z [0; 0]%R)
                  (state_embeddings leaky_model [0; 1]%Z zero_frames)
                  (action_embeddings leaky_model [0; 1]%Z [0; 0]%Z)))
          [])
   <> linear (w_predict_action leaky_model)
        (nth 1 (transformer leaky_model
                  (interleaved
                     (returns_embeddings leaky_model [0; 1]%Z [0; 1]%R)
                     (state_embeddings leaky_model [0; 1]%Z zero_frames)
                     (action_embeddings leaky_model [0; 1]%Z [0; 0]%Z)))
             [])) /\
  (firstn 2 (lit_frames 0) = firstn 2 (lit_frames 1) /\
   nth 1 (action_preds
            (DecisionTransformer_forward state_leak_model [0; 1; 2]%Z
               (lit_frames 0) [0; 0; 0]%Z [0; 0; 0]%R)) []
   <> nth 1 (action_preds
               (DecisionTransformer_forward state_leak_model [0; 1; 2]%Z
                  (lit_frames 1) [0; 0; 0]%Z [0; 0; 0]%R)) [] /\
   linear (w_predict_action state_leak_model)
     (nth 4 (transformer state_leak_model
               (interleaved
                  (returns_embeddings state_leak_model [0; 1; 2]%Z
                     [0; 0; 0]%R)
                  (state_embeddings state_leak_model [0; 1; 2]%Z
                     (lit_frames 0))
                  (action_embeddings state_leak_model [0; 1; 2]%Z
                     [0; 0; 0]%Z)))
          [])
   <> linear (w_predict_action state_leak_model)
        (nth 4 (transformer state_leak_model
                  (interleaved
                     (returns_embeddings state_leak_model [0; 1; 2]%Z
                        [0; 0; 0]%R)
                     (state_embeddings state_leak_model [0; 1; 2]%Z
                        (lit_frames 1))
                     (action_embeddings state_leak_model [0; 1; 2]%Z
                        [0; 0; 0]%Z)))
             [])).
Proof.
  pose proof tanh_1_pos as Ht. pose proof relay_logit_pos as Hp.
  pose proof state_leak_pos as Hq.
  split.
  - split; [reflexivity | split; [| split; [| split]]].
    + rewrite !leaky_model_return_tokens. cbn [nth]. intros H.
      injection H as H. rewrite tanh_0 in H. lra.
    + now rewrite !leaky_model_return_tokens.
    + rewrite !leaky_model_logit, relay_logit_0. intros H.
      injection H as H. lra.
    + rewrite !leaky_model_logit_interleaved, relay_logit_0.
      intros H. injection H as H. lra.
  - destruct (@state_leak_logits 0%R) as (H0 & H0'); [lra |].
    destruct (@state_leak_logits 1%R) as (H1 & H1'); [lra |].
    split; [reflexivity | split].
    + rewrite H0, H1, state_leak_0. intros H. injection H as H. lra.
    + rewrite H0', H1', state_leak_0. intros H. injection H as H. lra.
Qed.

(** In [leaky_model] the two actions have different embeddings, so the two
    runs of the witness below differ in a token. *)
Lemma leaky_model_action_tokens :
  nth 1 (action_embeddings leaky_model [0; 1]%Z [0; 0]%Z) []
  <> nth 1 (action_embeddings leaky_model [0; 1]%Z [0; 1]%Z) [].
Proof.
  pose proof tanh_1_pos as Ht.
  unfold action_embeddings, embed_action, time_embeddings, embed_timestep,
    embedding, tadd, vadd, leaky_model, zeros.
  simpl. rewrite tanh_0. intros H. injection H as H. lra.
Qed.

Lemma action_prediction_ignores_later_actions_witness :
  (1 < length [0; 1]%Z)%nat /\
  firstn 1 [0; 0]%Z = firstn 1 [0; 1]%Z /\
  nth 1 (action_preds
           (DecisionTransformer_forward leaky_model [0; 1]%Z zero_frames
              [0; 0]%Z [0; 1]%R)) []
  = nth 1 (action_preds
             (DecisionTransformer_forward leaky_model [0; 1]%Z zero_frames
                [0; 1]%Z [0; 1]%R)) [].
Proof.
  split; [simpl; lia | split; [reflexivity |]].
  apply action_prediction_ignores_later_actions; [simpl; lia | reflexivity].
Defined.

(* ------------------------------------------------------------------ *)
(** ** dt_evaluation.py: the window, the queries and the decision loop *)

Section SliceFacts.
Context {A : Type}.

Lemma length_py_slice_from_negative (xs : list A) (k : Z) :
  (k < 0)%Z ->
  len (py_slice_from xs k) = Z.min (len xs) (- k).
Proof.
  intros Hk. unfold len, py_slice_from.
  destruct (k <? 0)%Z eqn:E; [| apply Z.ltb_ge in E; lia].
  rewrite length_skipn. lia.
Qed.

Lemma py_slice_from_all (xs : list A) (k : Z) :
  (k <= 0)%Z -> (len xs <= - k)%Z \/ k = 0%Z -> py_slice_from xs k = xs.
Proof.
  intros Hk Hl. unfold len, py_slice_from in *.
  destruct (k <? 0)%Z eqn:E.
  - apply Z.ltb_lt in E.
    replace (Z.to_nat (Z.max 0 (Z.of_nat (length xs) + k))) with 0%nat by lia.
    reflexivity.
  - apply Z.ltb_ge in E. assert (k = 0%Z) by lia. subst k. reflexivity.
Qed.

Lemma py_slice_from_idempotent (xs : list A) (k : Z) :
  (k <= 0)%Z -> py_slice_from (py_slice_from xs k) k = py_slice_from xs k.
Proof.
  intros Hk. apply py_slice_from_all; [exact Hk |].
  destruct (Z.eq_dec k 0) as [-> | Hn]; [now right | left].
  rewrite length_py_slice_from_negative by lia. lia.
Qed.

End SliceFacts.

Section GetReturnsMore.
Local Open Scope Q_scope.

Lemma accumulated_app (rewards extra : list Q) (i : nat) :
  (i <= length rewards)%nat ->
  accumulated (rewards ++ extra) i = accumulated rewards i.
Proof.
  intros Hi. unfold accumulated.
  assert (G : forall js a,
             Forall (fun j => j < length rewards)%nat js ->
             fold_left (fun acc j => acc + nth j (rewards ++ extra) 0) js a
             = fold_left (fun acc j => acc + nth j rewards 0) js a).
  { induction js as [| j js IH]; intros a Hjs; simpl; [reflexivity |].
    inversion Hjs; subst. rewrite app_nth1 by assumption. now apply IH. }
  apply G. apply Forall_forall. intros j Hj. apply in_seq in Hj. lia.
Qed.

Lemma get_returns_snoc (rewards : list Q) (r target : Q) :
  get_returns (rewards ++ [r]) target
  = get_returns rewards target
    ++ [target - accumulated rewards (length rewards)].
Proof.
  rewrite !get_returns_closed, length_app. simpl length.
  rewrite Nat.add_1_r, seq_S, map_app. simpl. f_equal.
  - apply map_ext_in. intros i Hi. apply in_seq in Hi.
    rewrite accumulated_app by lia. reflexivity.
  - rewrite accumulated_app by lia. reflexivity.
Qed.

Lemma sum_before_all (rewards : list Q) :
  sum_before rewards (length rewards) = sumQ rewards.
Proof. unfold sum_before, sumQ. now rewrite firstn_all. Qed.

End GetReturnsMore.

(** X1.  Appending one reward to the history extends the array of
    returns-to-go by one entry and leaves the earlier entries as they were;
    the new entry is the target return minus the sum of the earlier rewards,
    so the value of the newest reward does not enter the array at all. *)
Theorem get_returns_append :
  forall (rewards : list Q) (target_return : Q),
  exists last : Q,
    (last == target_return - sumQ rewards)%Q /\
    forall r : Q,
      get_returns (rewards ++ [r]) target_return
      = get_returns rewards target_return ++ [last].
Proof.
  intros rewards target.
  exists (target - accumulated rewards (length rewards))%Q. split.
  - rewrite accumulated_sum_before by lia. now rewrite sum_before_all.
  - intros r. apply get_returns_snoc.
Qed.

Lemma reshape_check_nonneg (numel : Z) (dims : list Z) :
  Forall (fun d => 0 <= d)%Z dims ->
  reshape_check numel dims
  = if (prodZ dims =? numel)%Z then Ok tt else Raise reshape_error.
Proof.
  intros Hd. unfold reshape_check. now rewrite reshape_ok_nonneg.
Qed.

Lemma py_index_head {A : Type} (xs : list A) :
  py_index xs 0 = match xs with [] => Raise IndexError | x :: _ => Ok x end.
Proof.
  destruct xs as [| x xs]; [reflexivity |].
  unfold py_index. cbn [length].
  replace ((0 <? 0)%Z) with false by reflexivity.
  replace ((0 <=? 0) && (0 <? Z.of_nat (S (length xs))))%Z with true; [reflexivity |].
  symmetry. apply andb_true_iff. split; [reflexivity | apply Z.ltb_lt; lia].
Qed.

Lemma py_index_neg_short {A : Type} (xs : list A) (c : Z) :
  (len xs < c)%Z -> py_index xs (- c) = Raise IndexError.
Proof.
  unfold len, py_index. intros Hc.
  destruct (- c <? 0)%Z eqn:E; [| apply Z.ltb_ge in E; lia].
  destruct ((0 <=? Z.of_nat (length xs) + - c)
            && (Z.of_nat (length xs) + - c <? Z.of_nat (length xs)))%Z eqn:E2;
    [| reflexivity].
  apply andb_true_iff in E2 as [E2 _]. apply Z.leb_le in E2. lia.
Qed.

Section MakeActionMore.
Variable Obs : Type.
Variable random_action : Z.
Variable model_sample : Query Obs -> Z.

(** The arm taken while the window fills, as one conditional. *)
Lemma make_action_query_filling_eq (trajectory : Trajectory Obs) (context_len : Z) :
  (1 <= len (observations trajectory) < context_len)%Z ->
  make_action_query trajectory context_len
  = (trajectory,
     if negb (len (observations trajectory) - 1 =? len (actions trajectory))%Z
     then Raise reshape_error
     else match steps trajectory with
          | [] => Raise IndexError
          | t0 :: _ =>
              if negb (len (observations trajectory) =? len (rewards trajectory))%Z
              then Raise reshape_error
              else Ok {| q_states := observations trajectory;
                         q_actions := actions trajectory;
                         q_timesteps := t0;
                         q_rtgs := get_returns (rewards trajectory)
                                               default_target_return |}
          end).
Proof.
  intros Hn. unfold make_action_query.
  destruct (len (observations trajectory) <? context_len)%Z eqn:E;
    [| apply Z.ltb_ge in E; lia].
  f_equal.
  rewrite !reshape_check_nonneg
    by (unfold frame_stack, state_dim; repeat constructor; lia).
  unfold prodZ, frame_stack, state_dim. cbn [fold_right].
  replace (1 * (len (observations trajectory) * (4 * (84 * (84 * 1))))
           =? len (observations trajectory) * (4 * 84 * 84))%Z
    with true by (symmetry; apply Z.eqb_eq; lia).
  cbn [bind Ok].
  replace (1 * ((len (observations trajectory) - 1) * (1 * 1)))%Z
    with (len (observations trajectory) - 1)%Z by lia.
  destruct (len (observations trajectory) - 1 =? len (actions trajectory))%Z;
    [| reflexivity].
  cbn [bind Ok negb]. rewrite py_index_head.
  destruct (steps trajectory) as [| t0 ts]; [reflexivity |].
  cbn [bind Ok].
  replace (1 * (len (observations trajectory) * (1 * 1)))%Z
    with (len (observations trajectory)) by lia.
  replace (len (get_returns (rewards trajectory) default_target_return))
    with (len (rewards trajectory))
    by (unfold len; now rewrite get_returns_length).
  destruct (len (observations trajectory) =? len (rewards trajectory))%Z;
    reflexivity.
Qed.

(** The sliding-window arm, as one conditional. *)
Lemma make_action_query_full_eq (trajectory : Trajectory Obs) (context_len : Z) :
  (2 <= context_len <= len (observations trajectory))%Z ->
  let window :=
    {| observations := py_slice_from (observations trajectory) (- context_len);
       actions := py_slice_from (actions trajectory) (- context_len + 1);
       rewards := py_slice_from (rewards trajectory) (- context_len);
       steps := steps trajectory |} in
  make_action_query trajectory context_len
  = (window,
     if negb (context_len - 1 <=? len (actions trajectory))%Z
     then Raise reshape_error
     else t0 <- py_index (steps trajectory) (- context_len) ;;
          if negb (context_len <=? len (rewards trajectory))%Z
          then Raise reshape_error
          else Ok {| q_states := observations window;
                     q_actions := actions window;
                     q_timesteps := t0;
                     q_rtgs := get_returns (rewards window)
                                           default_target_return |}).
Proof.
  intros Hc window. unfold make_action_query.
  destruct (len (observations trajectory) <? context_len)%Z eqn:E;
    [apply Z.ltb_lt in E; lia |].
  fold window. f_equal.
  cbn [observations actions rewards steps window].
  rewrite !py_slice_from_idempotent by lia.
  rewrite (@py_slice_from_all Q (get_returns _ _) (- context_len))
    by (try lia; left; unfold len; rewrite get_returns_length;
        fold (len (py_slice_from (rewards trajectory) (- context_len)));
        rewrite length_py_slice_from_negative by lia; lia).
  rewrite !reshape_check_nonneg
    by (unfold frame_stack, state_dim; repeat constructor; lia).
  unfold prodZ, frame_stack, state_dim. cbn [fold_right].
  rewrite !length_py_slice_from_negative by lia.
  replace (len (get_returns (py_slice_from (rewards trajectory) (- context_len))
                            default_target_return))
    with (Z.min (len (rewards trajectory)) (- - context_len))
    by (unfold len at 2; rewrite get_returns_length;
        fold (len (py_slice_from (rewards trajectory) (- context_len)));
        now rewrite length_py_slice_from_negative by lia).
  replace (1 * (context_len * (4 * (84 * (84 * 1))))
           =? Z.min (len (observations trajectory)) (- - context_len)
              * (4 * 84 * 84))%Z
    with true by (symmetry; apply Z.eqb_eq; lia).
  cbn [bind Ok].
  replace (1 * ((context_len - 1) * (1 * 1))
           =? Z.min (len (actions trajectory)) (- (- context_len + 1)))%Z
    with (context_len - 1 <=? len (actions trajectory))%Z
    by (destruct (Z.leb_spec (context_len - 1) (len (actions trajectory)));
        symmetry; [apply Z.eqb_eq | apply Z.eqb_neq]; lia).
  destruct (context_len - 1 <=? len (actions trajectory))%Z; [| reflexivity].
  cbn [bind Ok negb].
  destruct (py_index (steps trajectory) (- context_len)) as [e | t0];
    [reflexivity |].
  cbn [bind Ok].
  replace (1 * (context_len * (1 * 1))
           =? Z.min (len (rewards trajectory)) (- - context_len))%Z
    with (context_len <=? len (rewards trajectory))%Z
    by (destruct (Z.leb_spec context_len (len (rewards trajectory)));
        symmetry; [apply Z.eqb_eq | apply Z.eqb_neq]; lia).
  destruct (context_len <=? len (rewards trajectory))%Z; reflexivity.
Qed.

End MakeActionMore.

Section MakeActionFrame.
Variable Obs : Type.
Variable random_action : Z.
Variable model_sample : Query Obs -> Z.

(** The lists a call leaves in the trajectory. *)
Lemma make_action_trajectory (trajectory : Trajectory Obs) (context_len : Z) :
  fst (make_action random_action model_sample trajectory context_len)
  = if ((len (observations trajectory) =? 0)
        || (len (observations trajectory) <? context_len))%Z
    then trajectory
    else {| observations := py_slice_from (observations trajectory) (- context_len);
            actions := py_slice_from (actions trajectory) (- context_len + 1);
            rewards := py_slice_from (rewards trajectory) (- context_len);
            steps := steps trajectory |}.
Proof.
  unfold make_action, make_action_query.
  destruct (len (observations trajectory) =? 0)%Z; [reflexivity |].
  destruct (len (observations trajectory) <? context_len)%Z; reflexivity.
Qed.

Lemma make_action_result (trajectory : Trajectory Obs) (context_len : Z) :
  observations trajectory <> [] ->
  snd (make_action random_action model_sample trajectory context_len)
  = (q <- snd (make_action_query trajectory context_len) ;; Ok (model_sample q)).
Proof.
  intros Hne. unfold make_action.
  destruct (len (observations trajectory) =? 0)%Z eqn:E.
  - apply Z.eqb_eq in E. unfold len in E.
    destruct (observations trajectory); [contradiction | discriminate].
  - now destruct (make_action_query trajectory context_len).
Qed.

End MakeActionFrame.

Lemma get_returns_head (r : Q) (rs : list Q) (target : Q) :
  exists rest, get_returns (r :: rs) target = (target - 0)%Q :: rest.
Proof.
  rewrite get_returns_closed. cbn [length seq map].
  eexists. reflexivity.
Qed.

Lemma reshape_check_ok_inv (numel : Z) (dims : list Z) (u : unit) :
  Forall (fun d => 0 <= d)%Z dims ->
  reshape_check numel dims = Ok u -> prodZ dims = numel.
Proof.
  intros Hd H. rewrite reshape_check_nonneg in H by exact Hd.
  destruct (prodZ dims =? numel)%Z eqn:E; [now apply Z.eqb_eq | discriminate].
Qed.

(** X2.  When [make_action] returns and when it raises, for a non-empty
    trajectory whose actions and steps fit an int64 tensor and
    [context_len >= 2]: while the window fills (fewer
    observations than [context_len]) it returns an action exactly when the
    trajectory holds one action fewer than observations, as many rewards as
    observations and at least one step; once the window slides it returns
    exactly when at least [context_len - 1] actions, [context_len] rewards
    and [context_len] steps are held.  In every other case one of the
    reshapes or the indexing of the steps raises. *)
Theorem make_action_returns_iff :
  forall (Obs : Type) (random_action : Z) (model_sample : Query Obs -> Z)
         (trajectory : Trajectory Obs) (context_len : Z),
    (2 <= context_len)%Z ->
    observations trajectory <> [] ->
    Forall int64 (actions trajectory) ->
    Forall int64 (steps trajectory) ->
    (exists action,
        snd (make_action random_action model_sample trajectory context_len)
        = Ok action)
    <->
    (if (len (observations trajectory) <? context_len)%Z
     then len (actions trajectory) = (len (observations trajectory) - 1)%Z /\
          len (rewards trajectory) = len (observations trajectory) /\
          steps trajectory <> []
     else (context_len - 1 <= len (actions trajectory))%Z /\
          (context_len <= len (rewards trajectory))%Z /\
          (context_len <= len (steps trajectory))%Z).
Proof.
  intros Obs ra ms trajectory c Hc Hne _ _.
  rewrite make_action_result by exact Hne.
  assert (Hn : (1 <= len (observations trajectory))%Z).
  { unfold len. destruct (observations trajectory); [contradiction | simpl; lia]. }
  destruct (len (observations trajectory) <? c)%Z eqn:E.
  - apply Z.ltb_lt in E.
    rewrite make_action_query_filling_eq by lia. cbn [snd].
    destruct (Z.eqb_spec (len (observations trajectory) - 1)
                         (len (actions trajectory))) as [Ea | Ea]; cbn [negb].
    + destruct (steps trajectory) as [| t0 ts] eqn:Es.
      * split; [intros (a & H); discriminate | intros (_ & _ & H); now elim H].
      * destruct (Z.eqb_spec (len (observations trajectory))
                             (len (rewards trajectory))) as [Er | Er]; cbn [negb].
        -- split; [intros _ | intros _; eexists; reflexivity].
           repeat split; try lia. discriminate.
        -- split; [intros (a & H); discriminate | intros (_ & H & _); lia].
    + split; [intros (a & H); discriminate | intros (H & _); lia].
  - apply Z.ltb_ge in E.
    rewrite make_action_query_full_eq by lia. cbn [snd].
    destruct (Z.leb_spec (c - 1) (len (actions trajectory))) as [Ea | Ea];
      cbn [negb].
    + destruct (py_index (steps trajectory) (- c)) as [e | t0] eqn:Es.
      * split; [intros (a & H); discriminate | intros (_ & _ & H)].
        destruct (@py_index_neg_ok Z (steps trajectory) c) as [x Hx]; [lia |].
        rewrite Hx in Es. discriminate.
      * assert (Hs : (c <= len (steps trajectory))%Z).
        { destruct (Z.le_gt_cases c (len (steps trajectory))) as [H | H];
            [exact H |].
          rewrite py_index_neg_short in Es by lia. discriminate. }
        cbn [bind].
        destruct (Z.leb_spec c (len (rewards trajectory))) as [Er | Er];
          cbn [negb].
        -- split; [intros _; repeat split; lia | intros _; eexists; reflexivity].
        -- split; [intros (a & H); discriminate | intros (_ & H & _); lia].
    + split; [intros (a & H); discriminate | intros (H & _); lia].
Qed.

Lemma make_action_returns_iff_witness :
  (exists action,
      snd (make_action 0%Z (fun _ : Query nat => 1%Z)
             (get_trajectory (first_step 10%nat 1%Q) 11%nat 2%Z 0%Q 1%Z) 30)
      = Ok action).
Proof.
  apply (@make_action_returns_iff nat 0%Z (fun _ => 1%Z)
           (get_trajectory (first_step 10%nat 1%Q) 11%nat 2%Z 0%Q 1%Z) 30%Z).
  - lia.
  - discriminate.
  - repeat constructor; unfold int64; lia.
  - repeat constructor; unfold int64; lia.
  - simpl. repeat split; discriminate.
Defined.

Lemma last_n_all {A : Type} (n : nat) (xs : list A) :
  length xs = n -> last_n n xs = xs.
Proof. intros E. unfold last_n. now rewrite E, Nat.sub_diag. Qed.

Lemma length_last_n {A : Type} (n : nat) (xs : list A) :
  (n <= length xs)%nat -> length (last_n n xs) = n.
Proof. intros H. unfold last_n. rewrite length_skipn. lia. Qed.

Lemma py_index_neg_nth {A : Type} (xs : list A) (c : Z) (x : A) :
  (0 < c <= len xs)%Z ->
  py_index xs (- c) = Ok x ->
  nth_error xs (length xs - Z.to_nat c) = Some x.
Proof.
  unfold len, py_index. intros Hc H.
  destruct (- c <? 0)%Z eqn:E; [| apply Z.ltb_ge in E; lia].
  destruct ((0 <=? Z.of_nat (length xs) + - c)
            && (Z.of_nat (length xs) + - c <? Z.of_nat (length xs)))%Z;
    [| discriminate].
  replace (length xs - Z.to_nat c)%nat
    with (Z.to_nat (Z.of_nat (length xs) + - c)) by lia.
  destruct (nth_error xs (Z.to_nat (Z.of_nat (length xs) + - c)));
    [now inversion H | discriminate].
Qed.

(** The query and the trajectory a call leaves, for a window of at least
    two steps. *)
Lemma make_action_window_spec :
  forall (Obs : Type) (random_action : Z) (model_sample : Query Obs -> Z)
         (trajectory : Trajectory Obs) (context_len : Z),
    well_formed trajectory ->
    (2 <= context_len)%Z ->
    let n := length (observations trajectory) in
    let k := Nat.min n (Z.to_nat context_len) in
    let window :=
      {| observations := last_n k (observations trajectory);
         actions := last_n (k - 1) (actions trajectory);
         rewards := last_n k (rewards trajectory);
         steps := steps trajectory |} in
    exists t0,
      make_action random_action model_sample trajectory context_len
      = (window,
         Ok (model_sample
               {| q_states := observations window;
                  q_actions := actions window;
                  q_timesteps := t0;
                  q_rtgs := get_returns (rewards window)
                                        default_target_return |})) /\
      nth_error (steps trajectory)
        (if (n <? Z.to_nat context_len)%nat then 0
         else length (steps trajectory) - k) = Some t0 /\
      length (observations window) = k /\
      length (actions window) = (k - 1)%nat /\
      length (get_returns (rewards window) default_target_return) = k /\
      well_formed window.
Proof.
  intros Obs ra ms trajectory c Hwf Hc n k window.
  pose proof Hwf as (Hr & Hs & Ha). fold n in Hr, Hs, Ha.
  assert (Hne : observations trajectory <> []).
  { intros E. unfold n in Ha. rewrite E in Ha. discriminate. }
  assert (Hmk : make_action ra ms trajectory c
                = (fst (make_action_query trajectory c),
                   q <- snd (make_action_query trajectory c) ;; Ok (ms q))).
  { rewrite (surjective_pairing (make_action ra ms trajectory c)).
    rewrite make_action_result by exact Hne.
    f_equal. unfold make_action.
    destruct (len (observations trajectory) =? 0)%Z eqn:E.
    - apply Z.eqb_eq in E. unfold len in E. fold n in E. lia.
    - now destruct (make_action_query trajectory c). }
  rewrite Hmk. clear Hmk.
  destruct (Nat.ltb_spec n (Z.to_nat c)) as [Hlt | Hge].
  - (* the window is filling *)
    assert (Hk : k = n) by (unfold k; lia).
    assert (Hw : window = trajectory).
    { unfold window. rewrite Hk.
      rewrite !last_n_all by lia.
      now destruct trajectory. }
    rewrite Hw.
    rewrite make_action_query_filling_eq by (unfold len; fold n; lia).
    cbn [fst snd].
    replace (len (observations trajectory) - 1 =? len (actions trajectory))%Z
      with true by (symmetry; apply Z.eqb_eq; unfold len; fold n; lia).
    replace (len (observations trajectory) =? len (rewards trajectory))%Z
      with true by (symmetry; apply Z.eqb_eq; unfold len; fold n; lia).
    cbn [negb].
    destruct (steps trajectory) as [| t0 ts] eqn:Es; [simpl in Hs; lia |].
    exists t0. cbn [bind Ok].
    repeat split; try assumption; try (fold n; lia).
    + fold n. rewrite get_returns_length. lia.
    + rewrite Es. exact Hs.
  - (* the window slides *)
    assert (Hk : k = Z.to_nat c) by (unfold k; lia).
    assert (So : forall (B : Type) (xs : list B),
               py_slice_from xs (- c) = last_n k xs).
    { intros B xs. rewrite py_slice_from_neg by lia. now rewrite Hk. }
    assert (Sa : forall (B : Type) (xs : list B),
               py_slice_from xs (- c + 1) = last_n (k - 1) xs).
    { intros B xs. replace (- c + 1)%Z with (- (c - 1))%Z by lia.
      rewrite py_slice_from_neg by lia. unfold last_n. f_equal. lia. }
    rewrite make_action_query_full_eq by (unfold len; fold n; lia).
    cbn [fst snd]. rewrite !So, !Sa. fold window.
    replace (c - 1 <=? len (actions trajectory))%Z
      with true by (symmetry; apply Z.leb_le; unfold len; lia).
    replace (c <=? len (rewards trajectory))%Z
      with true by (symmetry; apply Z.leb_le; unfold len; lia).
    cbn [negb].
    destruct (@py_index_neg_ok Z (steps trajectory) c) as [t0 Ht0];
      [unfold len; lia |].
    exists t0. rewrite Ht0. cbn [bind Ok].
    assert (Hlo : length (observations window) = k)
      by (apply length_last_n; fold n; lia).
    assert (Hlr : length (rewards window) = k)
      by (apply length_last_n; lia).
    assert (Hla : length (actions window) = (k - 1)%nat)
      by (apply length_last_n; lia).
    repeat split; try assumption.
    + rewrite Hk. apply py_index_neg_nth; [unfold len; lia | exact Ht0].
    + now rewrite get_returns_length.
    + lia.
    + cbn [steps window]. lia.
    + lia.
Qed.

(** X3.  For a well-formed trajectory of n observations whose actions and
    steps fit an int64 tensor, and [context_len >= 2], [make_action] hands
    the model the last
    k = min(n, context_len) observations, the last k - 1 actions, the
    returns-to-go recomputed from the last k rewards and one timestep,
    [steps[0]] while the window fills and [steps[-context_len]] once it
    slides; it returns the action sampled for that query and leaves exactly
    these lists in the trajectory, with the steps untouched, so that the
    trajectory is well-formed again. *)
Theorem make_action_window :
  forall (Obs : Type) (random_action : Z) (model_sample : Query Obs -> Z)
         (trajectory : Trajectory Obs) (context_len : Z),
    well_formed trajectory ->
    Forall int64 (actions trajectory) ->
    Forall int64 (steps trajectory) ->
    (2 <= context_len)%Z ->
    let n := length (observations trajectory) in
    let k := Nat.min n (Z.to_nat context_len) in
    let window :=
      {| observations := last_n k (observations trajectory);
         actions := last_n (k - 1) (actions trajectory);
         rewards := last_n k (rewards trajectory);
         steps := steps trajectory |} in
    exists t0,
      make_action random_action model_sample trajectory context_len
      = (window,
         Ok (model_sample
               {| q_states := observations window;
                  q_actions := actions window;
                  q_timesteps := t0;
                  q_rtgs := get_returns (rewards window)
                                        default_target_return |})) /\
      nth_error (steps trajectory)
        (if (n <? Z.to_nat context_len)%nat then 0
         else length (steps trajectory) - k) = Some t0 /\
      length (observations window) = k /\
      length (actions window) = (k - 1)%nat /\
      length (get_returns (rewards window) default_target_return) = k /\
      well_formed window.
Proof.
  intros Obs random_action model_sample trajectory context_len Hwf _ _ Hc.
  exact (make_action_window_spec random_action model_sample Hwf Hc).
Qed.

Lemma make_action_window_witness :
  exists t0 : Z,
    make_action 0%Z (fun _ : Query nat => 1%Z)
      (get_trajectory (get_trajectory (first_step 10%nat 1%Q) 11%nat 2%Z 0%Q 1%Z)
                      12%nat 3%Z 5%Q 2%Z) 2
    = ({| observations := [11%nat; 12%nat]; actions := [3%Z];
          rewards := [0%Q; 5%Q]; steps := [0%Z; 1%Z; 2%Z] |},
       Ok 1%Z) /\
    nth_error [0%Z; 1%Z; 2%Z] 1 = Some t0.
Proof.
  destruct (@make_action_window nat 0%Z (fun _ => 1%Z)
              (get_trajectory
                 (get_trajectory (first_step 10%nat 1%Q) 11%nat 2%Z 0%Q 1%Z)
                 12%nat 3%Z 5%Q 2%Z) 2%Z)
    as (t0 & Hcall & Ht0 & _).
  - repeat split; simpl; lia.
  - repeat constructor; unfold int64; lia.
  - repeat constructor; unfold int64; lia.
  - lia.
  - exists t0. split; [exact Hcall | exact Ht0].
Defined.

(** X4.  Every query restarts the returns-to-go: they are recomputed from
    the rewards left in the window, so the first return-to-go handed to the
    model is the default target return of 200, whatever was earned before
    the window. *)
Theorem make_action_returns_to_go_restart :
  forall (Obs : Type) (trajectory : Trajectory Obs) (context_len : Z)
         (q : Query Obs),
    (1 <= context_len)%Z ->
    observations trajectory <> [] ->
    snd (make_action_query trajectory context_len) = Ok q ->
    q_rtgs q
    = get_returns (rewards (fst (make_action_query trajectory context_len)))
                  default_target_return /\
    exists first rest,
      q_rtgs q = first :: rest /\ (first == default_target_return)%Q.
Proof.
  intros Obs trajectory c q Hc Hne Hq.
  assert (Hn : (1 <= len (observations trajectory))%Z).
  { unfold len. destruct (observations trajectory); [contradiction | simpl; lia]. }
  assert (Hhead : forall rs : list Q,
             (1 <= len rs)%Z ->
             exists first rest,
               get_returns rs default_target_return = first :: rest /\
               (first == default_target_return)%Q).
  { intros [| r rs] Hl; [unfold len in Hl; simpl in Hl; lia |].
    destruct (get_returns_head r rs default_target_return) as [rest Hrest].
    exists (default_target_return - 0)%Q, rest. split; [exact Hrest | ring]. }
  unfold make_action_query in *.
  destruct (len (observations trajectory) <? c)%Z eqn:E; cbn [fst snd] in *.
  - apply bind_ok in Hq as (u1 & _ & Hq).
    apply bind_ok in Hq as (u2 & _ & Hq).
    apply bind_ok in Hq as (t0 & _ & Hq).
    apply bind_ok in Hq as (u3 & H3 & Hq).
    inversion Hq; subst q; clear Hq. cbn [q_rtgs].
    split; [reflexivity |].
    apply reshape_check_ok_inv in H3; [| repeat constructor; lia].
    apply Hhead. unfold prodZ in H3. cbn [fold_right] in H3.
    unfold len in H3 at 2. rewrite get_returns_length in H3.
    unfold len at 1. lia.
  - apply Z.ltb_ge in E.
    apply bind_ok in Hq as (u1 & _ & Hq).
    apply bind_ok in Hq as (u2 & _ & Hq).
    apply bind_ok in Hq as (t0 & _ & Hq).
    apply bind_ok in Hq as (u3 & H3 & Hq).
    inversion Hq; subst q; clear Hq. cbn [q_rtgs rewards] in *.
    assert (Hall : py_slice_from
                     (get_returns (py_slice_from (rewards trajectory) (- c))
                                  default_target_return) (- c)
                   = get_returns (py_slice_from (rewards trajectory) (- c))
                                 default_target_return).
    { apply py_slice_from_all; [lia | left].
      unfold len. rewrite get_returns_length.
      fold (len (py_slice_from (rewards trajectory) (- c))).
      rewrite length_py_slice_from_negative by lia. lia. }
    rewrite Hall in *. split; [reflexivity |].
    apply reshape_check_ok_inv in H3; [| repeat constructor; lia].
    apply Hhead. unfold prodZ in H3. cbn [fold_right] in H3.
    unfold len in H3 at 1. rewrite get_returns_length in H3.
    unfold len at 1. lia.
Qed.

Lemma make_action_returns_to_go_restart_witness :
  exists first rest,
    q_rtgs {| q_states := [11%nat; 12%nat]; q_actions := [3%Z];
              q_timesteps := 1%Z;
              q_rtgs := get_returns [0%Q; 5%Q] default_target_return |}
    = first :: rest /\ (first == default_target_return)%Q.
Proof.
  refine (proj2 (@make_action_returns_to_go_restart nat
           (get_trajectory
              (get_trajectory (first_step 10%nat 1%Q) 11%nat 2%Z 0%Q 1%Z)
              12%nat 3%Z 5%Q 2%Z) 2%Z _ _ _ _)).
  - lia.
  - discriminate.
  - reflexivity.
Defined.

(** X5.  Truncation is idempotent: for [context_len >= 1], a second call
    of [make_action] on the trajectory left by a first call (whatever the
    two calls sample) leaves that trajectory as it is. *)
Theorem make_action_truncation_idempotent :
  forall (Obs : Type) (random_action random_action' : Z)
         (model_sample model_sample' : Query Obs -> Z)
         (trajectory : Trajectory Obs) (context_len : Z),
    (1 <= context_len)%Z ->
    let once :=
      fst (make_action random_action model_sample trajectory context_len) in
    fst (make_action random_action' model_sample' once context_len) = once.
Proof.
  intros Obs ra ra' ms ms' trajectory c Hc once. unfold once.
  rewrite (make_action_trajectory ra ms trajectory c).
  destruct ((len (observations trajectory) =? 0)
            || (len (observations trajectory) <? c))%Z eqn:E.
  - rewrite make_action_trajectory. now rewrite E.
  - apply orb_false_iff in E as (E0 & E1).
    apply Z.eqb_neq in E0. apply Z.ltb_ge in E1.
    rewrite make_action_trajectory. cbn [observations actions rewards steps].
    rewrite !py_slice_from_idempotent by lia.
    rewrite length_py_slice_from_negative by lia.
    replace (Z.min (len (observations trajectory)) (- - c)) with c by lia.
    replace (c =? 0)%Z with false by (symmetry; apply Z.eqb_neq; lia).
    now rewrite Z.ltb_irrefl.
Qed.

Lemma make_action_truncation_idempotent_witness :
  fst (make_action 7%Z (fun _ : Query nat => 2%Z)
         (fst (make_action 0%Z (fun _ : Query nat => 1%Z)
                 (get_trajectory
                    (get_trajectory (first_step 10%nat 1%Q) 11%nat 2%Z 0%Q 1%Z)
                    12%nat 3%Z 5%Q 2%Z) 2)) 2)
  = {| observations := [11%nat; 12%nat]; actions := [3%Z];
       rewards := [0%Q; 5%Q]; steps := [0%Z; 1%Z; 2%Z] |}.
Proof.
  apply (@make_action_truncation_idempotent nat 0%Z 7%Z
           (fun _ => 1%Z) (fun _ => 2%Z)
           (get_trajectory
              (get_trajectory (first_step 10%nat 1%Q) 11%nat 2%Z 0%Q 1%Z)
              12%nat 3%Z 5%Q 2%Z) 2%Z).
  lia.
Defined.

(** *** experiment *)

Lemma get_trajectory_well_formed {Obs : Type} (trajectory : Trajectory Obs)
    (observation : Obs) (action : Z) (reward : Q) (step : Z) :
  well_formed trajectory ->
  well_formed (get_trajectory trajectory observation action reward step).
Proof.
  intros (Hr & Hs & Ha). unfold well_formed, get_trajectory.
  cbn [observations actions rewards steps].
  rewrite !length_app. simpl. lia.
Qed.

Section ExperimentFacts.
Variable Raw : Type.
Variable Obs : Type.
Variable Env : Type.
Variable env_reset : Env -> Env.
Variable env_step : Env -> Z -> Env * (Raw * Q * bool).
Variable env_render : Env -> Env.
Variable env_close : Env -> Env.
Variable scale : Raw -> Obs.
Variable np_random_random : nat -> Z -> Q.
Variable np_random_randint : nat -> Z -> Z.
Variable model_sample : nat -> Z -> Query Obs -> Z.

(** One turn of the loop on a well-formed trajectory: no call raises, the
    trajectory stays well-formed and the step counter advances by one. *)
Lemma play_step_ok (i : nat) (st : Play Obs Env) :
  well_formed (p_trajectory st) ->
  exists st' stop,
    play_step env_step env_render scale np_random_random np_random_randint
              model_sample i st = Ok (st', stop) /\
    well_formed (p_trajectory st') /\
    p_step st' = (p_step st + 1)%Z /\
    (stop = false -> (p_step st' < max_steps)%Z).
Proof.
  intros Hwf. unfold play_step.
  assert (Hact : exists trajectory action,
             (if Qlt_bool (np_random_random i (p_step st)) epsilon
              then (p_trajectory st, Ok (np_random_randint i (p_step st)))
              else make_action (np_random_randint i (p_step st))
                     (model_sample i (p_step st)) (p_trajectory st)
                     eval_context_len)
             = (trajectory, Ok action) /\ well_formed trajectory).
  { destruct (Qlt_bool (np_random_random i (p_step st)) epsilon).
    - eexists. eexists. split; [reflexivity | exact Hwf].
    - destruct (@make_action_window_spec Obs (np_random_randint i (p_step st))
                  (model_sample i (p_step st)) (p_trajectory st)
                  eval_context_len Hwf)
        as (t0 & Hcall & _ & _ & _ & _ & Hwf'); [unfold eval_context_len; lia |].
      eexists. eexists. split; [exact Hcall | exact Hwf']. }
  destruct Hact as (trajectory & action & -> & Hwf').
  cbn [bind Ok].
  destruct (env_step (p_env st) action) as [env [[observation reward] terminated]].
  eexists. eexists. split; [reflexivity |].
  cbn [p_trajectory p_step]. split; [| split; [reflexivity |]].
  - now apply get_trajectory_well_formed.
  - intros Hstop. apply orb_false_iff in Hstop as (_ & Hlim).
    now apply Z.leb_gt in Hlim.
Qed.

(** The loop breaks within the step limit. *)
Lemma play_loop_ok (i : nat) :
  forall (fuel : nat) (st : Play Obs Env),
    well_formed (p_trajectory st) ->
    (p_step st < max_steps)%Z ->
    (Z.to_nat (max_steps - 1 - p_step st) < fuel)%nat ->
    exists st',
      play_loop env_step env_render scale np_random_random np_random_randint
                model_sample fuel i st = Ok (Some st') /\
      (p_step st < p_step st' <= max_steps)%Z.
Proof.
  induction fuel as [| fuel IH]; intros st Hwf Hlt Hfuel; [lia |].
  destruct (@play_step_ok i st Hwf) as (st1 & stop & Hstep & Hwf1 & Hs1 & Hcont).
  cbn [play_loop]. rewrite Hstep. cbn [bind Ok].
  destruct stop.
  - exists st1. split; [reflexivity | lia].
  - specialize (Hcont eq_refl).
    destruct (IH st1 Hwf1 Hcont) as (st' & Hloop & Hb); [lia |].
    exists st'. split; [exact Hloop | lia].
Qed.

Lemma play_episode_ok (fuel i : nat) (env : Env) :
  (max_steps <= Z.of_nat fuel)%Z ->
  exists env' sum_reward step,
    play_episode env_reset env_step env_render scale np_random_random
                 np_random_randint model_sample fuel i env
    = Ok (Some (env', sum_reward, step)) /\
    (2 <= step <= max_steps)%Z.
Proof.
  intros Hfuel. unfold play_episode.
  change (make_action (np_random_randint i 0) (model_sample i 0)
            {| observations := []; actions := []; rewards := []; steps := [] |}
            eval_context_len)
    with ({| observations := @nil Obs; actions := []; rewards := [];
             steps := [] |}, @Ok Z (np_random_randint i 0)).
  cbn [bind Ok observations actions rewards steps app].
  destruct (env_step (env_reset env) (np_random_randint i 0))
    as [env1 [[observation reward] terminated]].
  match goal with
  | |- context [play_loop _ _ _ _ _ _ fuel i ?s] =>
      destruct (@play_loop_ok i fuel s) as (st' & Hloop & Hb)
  end.
  - unfold well_formed. cbn. lia.
  - unfold max_steps. cbn. lia.
  - unfold max_steps in *. cbn [p_step]. lia.
  - rewrite Hloop. cbn [bind Ok option_map].
    eexists. eexists. eexists. split; [reflexivity |].
    cbn [p_step] in Hb. lia.
Qed.

Lemma experiment_episodes_ok (fuel : nat) :
  (max_steps <= Z.of_nat fuel)%Z ->
  forall (range : list nat) (env : Env) (printed : list (Q * Z)) (cum : Q),
    (cum == sumQ (map fst printed))%Q ->
    Forall (fun p => 2 <= snd p <= max_steps)%Z printed ->
    exists env' printed' cum',
      fold_left
        (fun acc i =>
           acc <- acc ;;
           match acc with
           | None => Ok None
           | Some (env, printed, cum_reward) =>
               e <- play_episode env_reset env_step env_render scale
                      np_random_random np_random_randint model_sample
                      fuel i env ;;
               Ok (option_map
                     (fun '(env, sum_reward, step) =>
                        (env, printed ++ [(sum_reward, step)],
                         (cum_reward + sum_reward)%Q))
                     e)
           end)
        range (Ok (Some (env, printed, cum)))
      = Ok (Some (env', printed', cum')) /\
      length printed' = (length printed + length range)%nat /\
      Forall (fun p => 2 <= snd p <= max_steps)%Z printed' /\
      (cum' == sumQ (map fst printed'))%Q.
Proof.
  intros Hfuel. induction range as [| i range IH]; intros env printed cum Hc Hp.
  - exists env, printed, cum. simpl. repeat split; auto.
  - cbn [fold_left bind Ok].
    destruct (@play_episode_ok fuel i env Hfuel) as (env1 & r & s & He & Hs).
    rewrite He. cbn [bind Ok option_map].
    destruct (IH env1 (printed ++ [(r, s)]) (cum + r)%Q)
      as (env' & printed' & cum' & Hrun & Hlen & Hall & Hsum).
    + rewrite map_app. unfold sumQ in *. rewrite fold_right_Qplus_app.
      simpl. rewrite Hc. ring.
    + apply Forall_app. split; [exact Hp |]. now repeat constructor.
    + exists env', printed', cum'. split; [exact Hrun |].
      rewrite length_app in Hlen. simpl in *. repeat split; auto; lia.
Qed.

End ExperimentFacts.

(** X6.  [experiment] runs to its end whatever the environment, the
    samples of the model and the random draws are: no call of [make_action]
    raises (the trajectory kept by the loop stays well-formed, actions
    lagging observations by one), the loop of every episode breaks within
    the step limit, so that a bound of 10000 turns is enough, ten episodes
    are reported, each with a step count between 2 and 10000, and the
    cumulated reward is the sum of the reported episode rewards. *)
Theorem experiment_completes :
  forall (Raw Obs Env : Type) (env_reset : Env -> Env)
         (env_step : Env -> Z -> Env * (Raw * Q * bool))
         (env_render env_close : Env -> Env) (scale : Raw -> Obs)
         (np_random_random : nat -> Z -> Q) (np_random_randint : nat -> Z -> Z)
         (model_sample : nat -> Z -> Query Obs -> Z)
         (fuel : nat) (env : Env),
    (max_steps <= Z.of_nat fuel)%Z ->
    exists env' report,
      experiment env_reset env_step env_render env_close scale
        np_random_random np_random_randint model_sample fuel env
      = Ok (Some (env', report)) /\
      length (episodes report) = max_episodes /\
      Forall (fun p => 2 <= snd p <= max_steps)%Z (episodes report) /\
      (cum_reward report == sumQ (map fst (episodes report)))%Q.
Proof.
  intros Raw Obs Env env_reset env_step env_render env_close scale
    np_random_random np_random_randint model_sample fuel env Hfuel.
  unfold experiment, experiment_episodes.
  destruct (@experiment_episodes_ok Raw Obs Env env_reset env_step env_render
              scale np_random_random np_random_randint model_sample fuel Hfuel
              (seq 0 max_episodes) env [] 0%Q)
    as (env' & printed & cum & Hrun & Hlen & Hall & Hsum).
  - reflexivity.
  - constructor.
  - rewrite Hrun. cbn [bind Ok option_map].
    eexists. eexists. split; [reflexivity |].
    cbn [episodes cum_reward]. rewrite length_seq in Hlen.
    repeat split; auto.
Qed.

Lemma experiment_completes_witness :
  exists env' report,
    experiment (fun e : nat => 0%nat)
      (fun (e : nat) (a : Z) => (S e, (tt, 1%Q, Nat.leb 2 e)))
      (fun e => e) (fun e => e) (fun _ : unit => tt)
      (fun _ _ => 1%Q) (fun _ _ => 0%Z) (fun _ _ (_ : Query unit) => 1%Z)
      (Z.to_nat max_steps) 5%nat
    = Ok (Some (env', report)) /\
    length (episodes report) = max_episodes /\
    Forall (fun p => 2 <= snd p <= max_steps)%Z (episodes report) /\
    (cum_reward report == sumQ (map fst (episodes report)))%Q.
Proof.
  apply experiment_completes. unfold max_steps. lia.
Defined.

Section LoggedFacts.
Variable Raw : Type.
Variable Obs : Type.
Variable Env : Type.
Variable env_reset : Env -> Env.
Variable env_step : Env -> Z -> Env * (Raw * Q * bool).
Variable env_render : Env -> Env.
Variable scale : Raw -> Obs.
Variable np_random_random : nat -> Z -> Q.
Variable np_random_randint : nat -> Z -> Z.
Variable model_sample : nat -> Z -> Query Obs -> Z.

Lemma play_step_accounted (i : nat) (st st' : Play Obs (Env * list Q))
    (stop : bool) :
  play_step (logged_step env_step) (logged_render env_render) scale
            np_random_random np_random_randint model_sample i st
  = Ok (st', stop) ->
  accounted st -> accounted st'.
Proof.
  unfold play_step. intros H (Hlen & first & rest & Hlog & Hsum).
  destruct (if Qlt_bool (np_random_random i (p_step st)) epsilon
            then (p_trajectory st, Ok (np_random_randint i (p_step st)))
            else make_action (np_random_randint i (p_step st))
                   (model_sample i (p_step st)) (p_trajectory st)
                   eval_context_len) as [trajectory [e | action]];
    [discriminate |].
  cbn [bind Ok] in H. unfold logged_step in H.
  destruct (env_step (fst (p_env st)) action)
    as [env [[observation reward] terminated]].
  cbn [fst snd] in H. inversion H; subst st' stop; clear H.
  unfold accounted, logged_render. cbn [p_env p_step p_sum_reward fst snd].
  split.
  - rewrite length_app. simpl. lia.
  - exists first, (rest ++ [reward]). split.
    + rewrite Hlog. reflexivity.
    + unfold sumQ in *. rewrite fold_right_Qplus_app. simpl.
      rewrite Hsum. ring.
Qed.

Lemma play_loop_accounted (i : nat) :
  forall (fuel : nat) (st st' : Play Obs (Env * list Q)),
    play_loop (logged_step env_step) (logged_render env_render) scale
              np_random_random np_random_randint model_sample fuel i st
    = Ok (Some st') ->
    accounted st -> accounted st'.
Proof.
  induction fuel as [| fuel IH]; intros st st' H Hacc; [discriminate |].
  cbn [play_loop] in H.
  apply bind_ok in H as ([st1 stop] & Hstep & H).
  apply play_step_accounted in Hstep; [| exact Hacc].
  destruct stop.
  - inversion H. now subst.
  - now apply (IH st1).
Qed.

End LoggedFacts.

(** X7.  What an episode reports, against the rewards the environment
    handed out since its reset: the reported step count is the number of
    environment steps, and the reported reward is the sum of all these
    rewards but the first: the reward of the first step, taken before the
    loop, is stored in the trajectory but never added to [sum_reward]. *)
Theorem episode_reward_accounting :
  forall (Raw Obs Env : Type) (env_reset : Env -> Env)
         (env_step : Env -> Z -> Env * (Raw * Q * bool))
         (env_render : Env -> Env) (scale : Raw -> Obs)
         (np_random_random : nat -> Z -> Q) (np_random_randint : nat -> Z -> Z)
         (model_sample : nat -> Z -> Query Obs -> Z)
         (fuel i : nat) (env env' : Env) (before handed : list Q)
         (sum_reward : Q) (step : Z),
    play_episode (logged_reset env_reset) (logged_step env_step)
      (logged_render env_render) scale np_random_random np_random_randint
      model_sample fuel i (env, before)
    = Ok (Some ((env', handed), sum_reward, step)) ->
    Z.of_nat (length handed) = step /\
    exists first rest,
      handed = first :: rest /\ (sum_reward == sumQ rest)%Q.
Proof.
  intros Raw Obs Env env_reset env_step env_render scale np_random_random
    np_random_randint model_sample fuel i env env' before handed sum_reward
    step H.
  unfold play_episode in H.
  change (make_action (np_random_randint i 0%Z) (model_sample i 0%Z)
            {| observations := []; actions := []; rewards := []; steps := [] |}
            eval_context_len)
    with ({| observations := @nil Obs; actions := []; rewards := [];
             steps := [] |}, @Ok Z (np_random_randint i 0%Z)) in H.
  cbn [bind Ok observations actions rewards steps app] in H.
  unfold logged_step at 1, logged_reset in H. cbn [fst snd] in H.
  destruct (env_step (env_reset env) (np_random_randint i 0%Z))
    as [env1 [[observation reward] terminated]].
  apply bind_ok in H as (last & Hloop & H).
  destruct last as [st |]; [| discriminate].
  cbn [option_map] in H. inversion H; clear H.
  apply play_loop_accounted in Hloop.
  - destruct Hloop as (Hlen & Hrest).
    rewrite H1 in Hlen, Hrest. cbn [snd] in Hlen, Hrest. now split.
  - unfold accounted. cbn [p_env p_step p_sum_reward snd app length].
    split; [reflexivity |].
    exists reward, []. split; reflexivity.
Qed.

Lemma episode_reward_accounting_witness :
  Z.of_nat (length [7; 1; 2]%Q) = 3%Z /\
  exists first rest,
    [7; 1; 2]%Q = first :: rest /\ (3 == sumQ rest)%Q.
Proof.
  apply (@episode_reward_accounting unit unit nat (fun _ => 0%nat)
           (fun e a => (S e, (tt, match e with
                                  | O => 7%Q | S O => 1%Q | _ => 2%Q
                                  end, Nat.leb 2 e)))
           (fun e => e) (fun _ => tt)
           (fun _ _ => 1%Q) (fun _ _ => 0%Z) (fun _ _ _ => 1%Z)
           5%nat 0%nat 9%nat 3%nat [4%Q] [7; 1; 2]%Q 3%Q 3%Z).
  vm_compute. reflexivity.
Defined.

(* ------------------------------------------------------------------ *)
(** ** download_dataset.py: how the samples are split into episodes *)

Section LoopFacts.
Variable Frame : Type.
Implicit Type dataset : D4RL Frame.

Lemma append_sample_inv dataset (i : nat) (data_ data_' : Buffer Frame) :
  append_sample dataset (Z.of_nat i) data_ = Ok data_' ->
  exists o o' a r t,
    nth_error (d_observations dataset) i = Some o /\
    next_observation dataset (Z.of_nat i) = Ok o' /\
    nth_error (d_actions dataset) i = Some a /\
    nth_error (d_rewards dataset) i = Some r /\
    nth_error (d_terminals dataset) i = Some t /\
    data_' = {| b_observations := b_observations data_ ++ [o];
                b_next_observations := b_next_observations data_ ++ [o'];
                b_actions := b_actions data_ ++ [a];
                b_rewards := b_rewards data_ ++ [r];
                b_terminals := b_terminals data_ ++ [t] |}.
Proof.
  unfold append_sample. intros H.
  apply bind_ok in H as (o & Ho & H).
  apply bind_ok in H as (o' & Ho' & H).
  apply bind_ok in H as (a & Ha & H).
  apply bind_ok in H as (r & Hr & H).
  apply bind_ok in H as (t & Ht & H).
  inversion H; subst; clear H.
  apply py_index_nat in Ho, Ha, Hr, Ht.
  exists o, o', a, r, t. repeat split; auto.
Qed.

Lemma episode_ends_inv dataset (i : nat) (episode_step : Z) (ends : bool) :
  episode_ends dataset (Z.of_nat i) episode_step = Ok ends ->
  exists t,
    nth_error (d_terminals dataset) i = Some t /\
    match d_timeouts dataset with
    | Some timeouts =>
        exists f, nth_error timeouts i = Some f /\ ends = t || f
    | None => ends = t || (episode_step =? 4096)%Z
    end.
Proof.
  unfold episode_ends. intros H.
  apply bind_ok in H as (t & Ht & H).
  apply bind_ok in H as (f & Hf & H).
  inversion H; subst; clear H.
  apply py_index_nat in Ht. exists t. split; [exact Ht |].
  destruct (d_timeouts dataset) as [timeouts |].
  - exists f. split; [now apply py_index_nat | reflexivity].
  - now inversion Hf.
Qed.

(** One turn of the separate-games loop, read backwards. *)
Lemma separate_step_inv dataset (st st' : SepState Frame) (k : nat) :
  separate_step dataset st k = Ok st' ->
  exists ends data_,
    episode_ends dataset (Z.of_nat k) (s_episode_step st) = Ok ends /\
    append_sample dataset (Z.of_nat k) (s_data st) = Ok data_ /\
    st' = if ends
          then {| s_data := empty_buffer Frame;
                  s_episode_step := 0 + 1;
                  s_paths := s_paths st ++ [raw_episode data_] |}
          else {| s_data := data_;
                  s_episode_step := s_episode_step st + 1;
                  s_paths := s_paths st |}.
Proof.
  unfold separate_step. intros H.
  apply bind_ok in H as (ends & He & H).
  apply bind_ok in H as (data_ & Hd & H).
  exists ends, data_. repeat split; auto.
  destruct ends; now inversion H.
Qed.

Lemma concat_snoc {B : Type} (xss : list (list B)) (xs : list B) :
  concat (xss ++ [xs]) = concat xss ++ xs.
Proof. rewrite concat_app. simpl. now rewrite app_nil_r. Qed.

Lemma separate_step_partition dataset (st st' : SepState Frame) (k : nat) :
  separate_step dataset st k = Ok st' ->
  saved_prefix dataset k (s_paths st) (s_data st) /\
  Forall (@parallel Frame Q) (s_paths st) /\
  buffer_parallel (s_data st) ->
  saved_prefix dataset (S k) (s_paths st') (s_data st') /\
  Forall (@parallel Frame Q) (s_paths st') /\
  buffer_parallel (s_data st').
Proof.
  intros Hstep ((Ho & Ha & Hr & Ht) & Hpar & (Bo & Bn & Ba & Bt)).
  apply separate_step_inv in Hstep as (ends & data_ & _ & Hd & ->).
  apply append_sample_inv in Hd
    as (o & o' & a & r & t & Eo & _ & Ea & Er & Et & ->).
  apply firstn_S_nth_error in Eo, Ea, Er, Et.
  destruct ends; cbn [s_paths s_data].
  - split; [| split].
    + unfold saved_prefix. rewrite !map_app. cbn [map].
      rewrite !concat_snoc.
      cbn [raw_episode e_observations e_actions e_rewards e_terminals
           b_observations b_actions b_rewards b_terminals empty_buffer].
      rewrite !app_nil_r, !app_assoc, Ho, Ha, Hr, Ht. auto.
    + apply Forall_app. split; [exact Hpar |].
      constructor; [| constructor]. unfold parallel.
      cbn [raw_episode e_observations e_next_observations e_actions
           e_rewards e_terminals b_observations b_next_observations
           b_actions b_rewards b_terminals].
      rewrite !length_app. simpl.
      repeat split; try lia.
      now destruct (b_rewards (s_data st)).
    + unfold buffer_parallel. simpl. auto.
  - split; [| split].
    + unfold saved_prefix.
      cbn [b_observations b_actions b_rewards b_terminals].
      rewrite !app_assoc, Ho, Ha, Hr, Ht. auto.
    + exact Hpar.
    + unfold buffer_parallel.
      cbn [b_observations b_next_observations b_actions b_rewards
           b_terminals].
      rewrite !length_app. simpl. lia.
Qed.

Lemma separate_loop_partition dataset (n : nat) (st : SepState Frame) :
  run_loop (separate_step dataset) (seq 0 n) (separate_init Frame) = Ok st ->
  saved_prefix dataset n (s_paths st) (s_data st) /\
  Forall (@parallel Frame Q) (s_paths st) /\
  buffer_parallel (s_data st).
Proof.
  apply (run_loop_invariant (separate_step dataset)
           (fun k st => saved_prefix dataset k (s_paths st) (s_data st) /\
                        Forall (@parallel Frame Q) (s_paths st) /\
                        buffer_parallel (s_data st))).
  - unfold saved_prefix, buffer_parallel. simpl. repeat split; auto.
  - intros k s s' _ IH Hstep. now apply (@separate_step_partition dataset s s' k Hstep).
Qed.

(** A sample that closes an episode is saved with it at once, so the
    episode under construction never holds one. *)
Lemma separate_step_open dataset (st st' : SepState Frame) (k : nat) :
  separate_step dataset st k = Ok st' ->
  open_invariant dataset k st -> open_invariant dataset (S k) st'.
Proof.
  intros Hstep (Hfalse & Hlen & Hcase).
  apply separate_step_inv in Hstep as (ends & data_ & He & Hd & ->).
  apply episode_ends_inv in He as (t & Ht & He).
  apply append_sample_inv in Hd
    as (o & o' & a & r & t' & _ & _ & _ & _ & Et & ->).
  assert (t' = t) by congruence. subst t'.
  unfold open_invariant.
  destruct (d_timeouts dataset) as [timeouts |].
  - destruct He as (f & Hf & ->).
    assert (Hk : (k < length timeouts)%nat)
      by (apply nth_error_Some; congruence).
    destruct (t || f) eqn:E;
      cbn [s_paths s_data s_episode_step b_terminals empty_buffer length].
    + split; [constructor | split; [lia |]].
      rewrite skipn_all2; [constructor |].
      rewrite length_firstn. lia.
    + apply orb_false_iff in E as (-> & ->).
      split; [| split].
      * apply Forall_app. split; [exact Hfalse | now repeat constructor].
      * rewrite length_app. cbn [length]. lia.
      * rewrite (firstn_S_nth_error _ _ Hf).
        rewrite length_app. cbn [length].
        replace (S k - (length (b_terminals (s_data st)) + 1))%nat
          with (k - length (b_terminals (s_data st)))%nat by lia.
        rewrite skipn_app, length_firstn.
        replace (k - length (b_terminals (s_data st)) - Nat.min k (length timeouts))%nat
          with 0%nat by lia.
        apply Forall_app. split; [exact Hcase | now repeat constructor].
  - destruct Hcase as (Hs & Hle).
    destruct ends;
      cbn [s_paths s_data s_episode_step b_terminals empty_buffer length].
    + split; [constructor | split; [lia |]].
      split; [| lia]. now destruct (s_paths st).
    + symmetry in He. apply orb_false_iff in He as (-> & He).
      apply Z.eqb_neq in He.
      split; [| split; [| split]].
      * apply Forall_app. split; [exact Hfalse | now repeat constructor].
      * rewrite length_app. cbn [length]. lia.
      * unfold len in *. rewrite length_app. cbn [length]. lia.
      * lia.
Qed.

Lemma separate_loop_open dataset (n : nat) (st : SepState Frame) :
  run_loop (separate_step dataset) (seq 0 n) (separate_init Frame) = Ok st ->
  open_episode dataset n (s_paths st) (s_data st).
Proof.
  intros Hrun.
  assert (Hinv : open_invariant dataset n st).
  { revert st Hrun.
    apply (run_loop_invariant (separate_step dataset) (open_invariant dataset)).
    - unfold open_invariant. cbn.
      split; [constructor | split; [lia |]].
      destruct (d_timeouts dataset); [constructor | lia].
    - intros k s s' _ IH Hstep.
      now apply (@separate_step_open dataset s s' k Hstep). }
  destruct Hinv as (Hfalse & _ & Hcase).
  split; [exact Hfalse |].
  destruct (d_timeouts dataset); [exact Hcase |].
  destruct Hcase as (Hs & Hle). destruct (s_paths st); lia.
Qed.

End LoopFacts.

(** X8.  The separate-games loop saves the samples in order, without loss
    or duplication: key by key (observations, actions, rewards, terminals),
    the arrays of the saved episodes one after the other, followed by those
    of the episode under construction when the loop ends, are the first
    N//2 entries of the dataset array; every saved episode is non-empty and
    its five arrays have one entry per sample.  What the loop drops is that
    last episode only, and it is unfinished: its arrays have equal lengths
    and none of its samples closes an episode (no terminal flag and no
    timeout flag of its samples is set; without a ['timeouts'] key it is
    shorter than the cap of 4097 samples for a first and 4096 for a later
    episode). *)
Theorem separate_games_partition :
  forall (Frame : Type) (dataset : D4RL Frame) (paths : list (Episode Frame Q)),
    separate_games dataset = Ok paths ->
    Forall (@parallel Frame Q) paths /\
    exists rest : Buffer Frame,
      saved_prefix dataset (length (sample_range dataset)) paths rest /\
      buffer_parallel rest /\
      open_episode dataset (length (sample_range dataset)) paths rest.
Proof.
  intros Frame dataset paths H. unfold separate_games in H.
  apply bind_ok in H as (st & Hrun & H). inversion H; subst; clear H.
  unfold sample_range in *. rewrite length_seq.
  pose proof (separate_loop_open _ _ Hrun) as Hopen.
  apply separate_loop_partition in Hrun as (Hp & Hpar & Hbuf).
  split; [exact Hpar |]. now exists (s_data st).
Qed.

Lemma separate_games_partition_witness :
  exists paths,
    separate_games tail_dataset = Ok paths /\
    length paths = 1%nat /\
    Forall (@parallel string Q) paths /\
    exists rest,
      saved_prefix tail_dataset 5 paths rest /\
      buffer_parallel rest /\
      open_episode tail_dataset 5 paths rest.
Proof.
  eexists. split; [reflexivity | split; [reflexivity |]].
  apply (@separate_games_partition string tail_dataset). reflexivity.
Defined.

Section MixedIsNormalised.
Variable Frame : Type.
Implicit Type dataset : D4RL Frame.

Lemma normalized_episode_raw (data_ : Buffer Frame) :
  normalized_episode data_ (total_reward (b_rewards data_))
  = normalize_episode (raw_episode data_).
Proof. reflexivity. Qed.

(** One turn of the mixed-games loop is one turn of the separate-games loop
    on the corresponding variables. *)
Lemma mixed_step_mix_of dataset (paths0 : list (Episode Frame fnum))
    (st : SepState Frame) (k : nat) :
  mixed_step dataset (mix_of paths0 st) k
  = (st' <- separate_step dataset st k ;; Ok (mix_of paths0 st')).
Proof.
  unfold mixed_step, separate_step. cbn [mix_of m_episode_step m_data].
  destruct (episode_ends dataset (Z.of_nat k) (s_episode_step st))
    as [e | ends]; [reflexivity |].
  cbn [bind Ok].
  destruct (append_sample dataset (Z.of_nat k) (s_data st))
    as [e | data_] eqn:Hd; [reflexivity |].
  cbn [bind Ok].
  apply append_sample_inv in Hd
    as (o & o' & a & r & t & _ & _ & _ & Er & _ & Hdata).
  apply py_index_nat in Er. rewrite Er. cbn [bind Ok].
  assert (Htot : (total_reward (b_rewards (s_data st)) + r)%Q
                 = total_reward (b_rewards data_)).
  { rewrite Hdata. cbn [b_rewards]. unfold total_reward.
    now rewrite fold_left_app. }
  cbn [m_sum_reward m_paths mix_of].
  destruct ends; cbn [bind Ok]; unfold mix_of; cbn [s_data s_episode_step s_paths].
  - rewrite Htot, normalized_episode_raw, map_app, app_assoc. reflexivity.
  - now rewrite Htot.
Qed.

Lemma mixed_loop_mix_of dataset (paths0 : list (Episode Frame fnum))
    (range : list nat) :
  forall acc : result (SepState Frame),
    fold_left (fun acc i => st <- acc ;; mixed_step dataset st i) range
      (st <- acc ;; Ok (mix_of paths0 st))
    = (st <- fold_left (fun acc i => st <- acc ;; separate_step dataset st i)
               range acc ;;
       Ok (mix_of paths0 st)).
Proof.
  induction range as [| i range IH]; intros acc; [reflexivity |].
  cbn [fold_left]. rewrite <- IH. f_equal.
  destruct acc as [e | st]; [reflexivity |].
  cbn [bind Ok]. apply mixed_step_mix_of.
Qed.

(** The episodes one dataset adds in the mixed-games arm are those the
    separate-games arm saves for it, normalised. *)
Lemma mixed_games_one_separate dataset (paths0 : list (Episode Frame fnum)) :
  mixed_games_one paths0 dataset
  = (paths <- separate_games dataset ;;
     Ok (paths0 ++ map (@normalize_episode Frame) paths)).
Proof.
  unfold mixed_games_one, separate_games, run_loop.
  assert (Hinit : Ok (mixed_init paths0)
                  = (st <- Ok (separate_init Frame) ;; Ok (mix_of paths0 st))).
  { cbn [bind Ok]. unfold mixed_init, mix_of, separate_init.
    cbn [s_data s_episode_step s_paths map]. now rewrite app_nil_r. }
  rewrite Hinit, mixed_loop_mix_of.
  destruct (fold_left (fun acc i => st <- acc ;; separate_step dataset st i)
              (sample_range dataset) (Ok (separate_init Frame)))
    as [e | st]; reflexivity.
Qed.

Lemma mixed_games_snoc (datasets : list (D4RL Frame)) dataset :
  mixed_games (datasets ++ [dataset])
  = (paths <- mixed_games datasets ;; mixed_games_one paths dataset).
Proof. unfold mixed_games. now rewrite fold_left_app. Qed.

Lemma mixed_games_from (datasets : list (D4RL Frame)) :
  forall (saved : list (list (Episode Frame Q)))
         (paths0 : list (Episode Frame fnum)),
    Forall2 (fun dataset paths => separate_games dataset = Ok paths)
            datasets saved ->
    fold_left (fun acc dataset => paths <- acc ;; mixed_games_one paths dataset)
              datasets (Ok paths0)
    = Ok (paths0 ++ concat (map (map (@normalize_episode Frame)) saved)).
Proof.
  induction datasets as [| d ds IH]; intros saved paths0 H; inversion H; subst.
  - simpl. now rewrite app_nil_r.
  - cbn [fold_left bind Ok]. rewrite mixed_games_one_separate.
    match goal with E : separate_games d = Ok _ |- _ => rewrite E end.
    cbn [bind Ok]. rewrite IH with (saved := l') by assumption.
    cbn [map concat]. now rewrite app_assoc.
Qed.

End MixedIsNormalised.

(** X9.  The mixed-games arm is the separate-games arm followed by the
    normalisation of the rewards: for one dataset it appends to [paths]
    exactly the episodes that the separate-games arm saves for that dataset,
    each with its rewards divided by their total, and raises what that arm
    raises; nothing but [paths] carries over from one dataset to the next,
    so the list saved for several datasets is the concatenation of their
    normalised episodes. *)
Theorem mixed_games_normalise_separate :
  forall (Frame : Type),
    (forall (dataset : D4RL Frame) (paths0 : list (Episode Frame fnum)),
        mixed_games_one paths0 dataset
        = (paths <- separate_games dataset ;;
           Ok (paths0 ++ map (@normalize_episode Frame) paths))) /\
    (forall (datasets : list (D4RL Frame)) (dataset : D4RL Frame),
        mixed_games (datasets ++ [dataset])
        = (paths0 <- mixed_games datasets ;;
           paths <- separate_games dataset ;;
           Ok (paths0 ++ map (@normalize_episode Frame) paths))) /\
    (forall (datasets : list (D4RL Frame))
            (saved : list (list (Episode Frame Q))),
        Forall2 (fun dataset paths => separate_games dataset = Ok paths)
                datasets saved ->
        mixed_games datasets
        = Ok (concat (map (map (@normalize_episode Frame)) saved))).
Proof.
  intros Frame. split; [| split].
  - intros dataset paths0. apply mixed_games_one_separate.
  - intros datasets dataset. rewrite mixed_games_snoc.
    destruct (mixed_games datasets) as [e | paths0]; [reflexivity |].
    cbn [bind Ok]. apply mixed_games_one_separate.
  - intros datasets saved H. unfold mixed_games.
    now rewrite (@mixed_games_from Frame datasets saved []).
Qed.

Lemma mixed_games_normalise_separate_witness :
  exists paths,
    separate_games idle_dataset = Ok paths /\
    mixed_games [idle_dataset; idle_dataset]
    = Ok (concat (map (map (@normalize_episode string)) [paths; paths])).
Proof.
  eexists. split; [reflexivity |].
  apply (proj2 (proj2 (@mixed_games_normalise_separate string))
           [idle_dataset; idle_dataset]).
  repeat constructor.
Defined.

Section EpisodeCut.
Variable Frame : Type.
Implicit Type dataset : D4RL Frame.

Lemma episodes_cut_snoc {Rw : Type} (paths : list (Episode Frame Rw))
    (p : Episode Frame Rw) :
  episodes_cut paths ->
  cut_at (match paths with [] => 4097 | _ :: _ => 4096 end) (e_terminals p) ->
  episodes_cut (paths ++ [p]).
Proof.
  destruct paths as [| p0 ps]; simpl.
  - intros _ H. split; [exact H | constructor].
  - intros (H0 & Hps) H. split; [exact H0 |].
    apply Forall_app. split; [exact Hps | now repeat constructor].
Qed.

Lemma separate_step_cut dataset (st st' : SepState Frame) (k : nat) :
  d_timeouts dataset = None ->
  separate_step dataset st k = Ok st' ->
  (s_episode_step st
   = len (b_terminals (s_data st)) + (match s_paths st with [] => 0 | _ :: _ => 1 end))%Z /\
  (s_episode_step st <= 4096)%Z /\
  Forall (fun t => t = false) (b_terminals (s_data st)) /\
  episodes_cut (s_paths st) ->
  (s_episode_step st'
   = len (b_terminals (s_data st')) + (match s_paths st' with [] => 0 | _ :: _ => 1 end))%Z /\
  (s_episode_step st' <= 4096)%Z /\
  Forall (fun t => t = false) (b_terminals (s_data st')) /\
  episodes_cut (s_paths st').
Proof.
  intros Hto Hstep (Hs & Hle & Hfalse & Hcut).
  apply separate_step_inv in Hstep as (ends & data_ & He & Hd & ->).
  apply episode_ends_inv in He as (t & Ht & He). rewrite Hto in He.
  apply append_sample_inv in Hd
    as (o & o' & a & r & t' & _ & _ & _ & _ & Et & ->).
  assert (t' = t) by congruence. subst t'.
  destruct ends; cbn [s_paths s_data s_episode_step b_terminals empty_buffer].
  - split; [| split; [lia | split; [constructor |]]].
    + destruct (s_paths st); reflexivity.
    + apply episodes_cut_snoc; [exact Hcut |].
      exists (b_terminals (s_data st)), t.
      cbn [raw_episode e_terminals b_terminals].
      split; [reflexivity | split; [exact Hfalse |]].
      unfold len in *. rewrite length_app. cbn [length].
      symmetry in He. apply orb_true_iff in He.
      destruct (s_paths st); split; try lia;
        (destruct He as [He | He]; [now left | right; apply Z.eqb_eq in He; lia]).
  - symmetry in He. apply orb_false_iff in He as (-> & He).
    apply Z.eqb_neq in He.
    split; [| split; [lia | split; [| exact Hcut]]].
    + unfold len in *. rewrite length_app. cbn [length]. lia.
    + apply Forall_app. split; [exact Hfalse | now repeat constructor].
Qed.

Lemma separate_games_cut dataset (paths : list (Episode Frame Q)) :
  d_timeouts dataset = None ->
  separate_games dataset = Ok paths ->
  episodes_cut paths.
Proof.
  intros Hto H. unfold separate_games in H.
  apply bind_ok in H as (st & Hrun & H). inversion H; subst; clear H.
  unfold sample_range in Hrun.
  apply (run_loop_invariant (separate_step dataset)
           (fun (_ : nat) st =>
              (s_episode_step st
               = len (b_terminals (s_data st))
                 + (match s_paths st with [] => 0 | _ :: _ => 1 end))%Z /\
              (s_episode_step st <= 4096)%Z /\
              Forall (fun t => t = false) (b_terminals (s_data st)) /\
              episodes_cut (s_paths st))) in Hrun.
  - tauto.
  - simpl. repeat split; auto. lia.
  - intros k s s' _ IH Hstep.
    now apply (@separate_step_cut dataset s s' k Hto Hstep).
Qed.

Lemma episodes_cut_map {Rw Rw' : Type} (f : Episode Frame Rw -> Episode Frame Rw')
    (paths : list (Episode Frame Rw)) :
  (forall p, e_terminals (f p) = e_terminals p) ->
  episodes_cut paths -> episodes_cut (map f paths).
Proof.
  intros Hf. destruct paths as [| p ps]; simpl; [auto |].
  intros (H0 & Hps). rewrite Hf. split; [exact H0 |].
  apply Forall_map. eapply Forall_impl; [| exact Hps].
  intros q Hq. now rewrite Hf.
Qed.

End EpisodeCut.

Section EpisodeFull.
Variable Frame : Type.
Implicit Type dataset : D4RL Frame.

Lemma In_firstn {B : Type} (n : nat) (xs : list B) (x : B) :
  In x (firstn n xs) -> In x xs.
Proof.
  intros H. rewrite <- (firstn_skipn n xs). apply in_or_app. now left.
Qed.

Lemma cut_at_unset (cap : Z) (terminals : list bool) :
  cut_at cap terminals ->
  Forall (fun t => t = false) terminals ->
  len terminals = cap.
Proof.
  intros (front & last & -> & _ & _ & [Hl | Hl]) Hall; [| exact Hl].
  apply Forall_app in Hall as (_ & Hall). inversion Hall; subst. discriminate.
Qed.

Lemma separate_games_full dataset (paths : list (Episode Frame Q)) :
  d_timeouts dataset = None ->
  Forall (fun t => t = false) (d_terminals dataset) ->
  separate_games dataset = Ok paths ->
  episodes_full paths.
Proof.
  intros Hto Hunset H.
  pose proof (separate_games_cut dataset Hto H) as Hcut.
  unfold separate_games in H.
  apply bind_ok in H as (st & Hrun & H). inversion H; subst; clear H.
  unfold sample_range in Hrun.
  apply separate_loop_partition in Hrun as ((_ & _ & _ & Ht) & _ & _).
  assert (Hin : forall p, In p (s_paths st) ->
                          Forall (fun t => t = false) (e_terminals p)).
  { intros p Hp. apply Forall_forall. intros t Hin.
    rewrite Forall_forall in Hunset. apply Hunset.
    apply (@In_firstn _ (Z.to_nat (len (d_rewards dataset) / 2))).
    rewrite <- Ht. apply in_or_app. left.
    apply in_concat. exists (e_terminals p). split; [| exact Hin].
    now apply in_map. }
  destruct (s_paths st) as [| p ps]; [exact I |].
  destruct Hcut as (H0 & Hps). split.
  - apply cut_at_unset; [exact H0 | apply Hin; now left].
  - apply Forall_forall. intros q Hq. rewrite Forall_forall in Hps.
    apply cut_at_unset; [now apply Hps | apply Hin; now right].
Qed.

End EpisodeFull.

(** X10.  Without a ['timeouts'] key an episode is closed by its first set
    terminal flag or else by the step counter reaching 4096.  The counter
    starts at 0 for the first episode of a dataset and at 1 for every later
    one, so the first episode holds at most 4097 samples and every later one
    at most 4096; in a saved episode every flag before the last is unset,
    and an episode whose last flag is unset has exactly that maximal length.
    When no terminal flag of the dataset is set the saved episodes have
    exactly 4097, 4096, 4096, ... samples. *)
Theorem episodes_cut_without_timeouts :
  forall (Frame : Type) (dataset : D4RL Frame),
    d_timeouts dataset = None ->
    (forall paths : list (Episode Frame Q),
        separate_games dataset = Ok paths -> episodes_cut paths) /\
    (forall paths : list (Episode Frame fnum),
        mixed_games_one [] dataset = Ok paths -> episodes_cut paths) /\
    (forall paths : list (Episode Frame Q),
        Forall (fun t => t = false) (d_terminals dataset) ->
        separate_games dataset = Ok paths -> episodes_full paths).
Proof.
  intros Frame dataset Hto. split; [| split].
  - intros paths. now apply separate_games_cut.
  - intros paths H. rewrite mixed_games_one_separate in H.
    apply bind_ok in H as (sp & Hsp & H). inversion H; subst; clear H.
    cbn [app]. apply episodes_cut_map; [reflexivity |].
    now apply (@separate_games_cut Frame dataset).
  - intros paths. now apply separate_games_full.
Qed.

Lemma episodes_cut_without_timeouts_witness :
  exists paths,
    separate_games idle_dataset = Ok paths /\ episodes_cut paths.
Proof.
  eexists. split; [reflexivity |].
  apply (proj1 (@episodes_cut_without_timeouts string idle_dataset eq_refl)).
  reflexivity.
Defined.

Section IndexErrors.
Variable Frame : Type.
Implicit Type dataset : D4RL Frame.

Lemma py_index_raises {B : Type} (xs : list B) (k : Z) (e : exn) :
  py_index xs k = Raise e -> e = IndexError.
Proof.
  unfold py_index. intros H.
  destruct ((0 <=? (if (k <? 0)%Z then Z.of_nat (length xs) + k else k))
            && ((if (k <? 0)%Z then Z.of_nat (length xs) + k else k)
                <? Z.of_nat (length xs)))%Z.
  - destruct (nth_error xs _); inversion H; reflexivity.
  - now inversion H.
Qed.

Lemma next_observation_raises dataset (k : Z) (e : exn) :
  next_observation dataset k = Raise e -> e = IndexError.
Proof.
  unfold next_observation. intros H.
  destruct (py_index (d_observations dataset) (k + 1)) as [e' | o] eqn:E;
    [| discriminate].
  apply py_index_raises in E. subst e'.
  now apply py_index_raises in H.
Qed.

Lemma bind_raise {A B : Type} (r : result A) (k : A -> result B) (e : exn) :
  bind r k = Raise e -> r = Raise e \/ exists a, r = Ok a /\ k a = Raise e.
Proof.
  destruct r as [e' | a]; simpl; intros H.
  - left. unfold Raise in *. congruence.
  - right. exists a. split; [reflexivity | exact H].
Qed.

Lemma append_sample_raises dataset (k : Z) (data_ : Buffer Frame) (e : exn) :
  append_sample dataset k data_ = Raise e -> e = IndexError.
Proof.
  unfold append_sample. intros H.
  apply bind_raise in H as [H | (o & _ & H)]; [now apply py_index_raises in H |].
  apply bind_raise in H as [H | (o' & _ & H)];
    [now apply next_observation_raises in H |].
  apply bind_raise in H as [H | (a & _ & H)]; [now apply py_index_raises in H |].
  apply bind_raise in H as [H | (r & _ & H)]; [now apply py_index_raises in H |].
  apply bind_raise in H as [H | (t & _ & H)]; [now apply py_index_raises in H |].
  discriminate.
Qed.

Lemma episode_ends_raises dataset (k : Z) (episode_step : Z) (e : exn) :
  episode_ends dataset k episode_step = Raise e -> e = IndexError.
Proof.
  unfold episode_ends. intros H.
  apply bind_raise in H as [H | (t & _ & H)]; [now apply py_index_raises in H |].
  apply bind_raise in H as [H | (f & _ & H)]; [| discriminate].
  destruct (d_timeouts dataset); [now apply py_index_raises in H | discriminate].
Qed.

Lemma separate_step_raises dataset (st : SepState Frame) (k : nat) (e : exn) :
  separate_step dataset st k = Raise e -> e = IndexError.
Proof.
  unfold separate_step. intros H.
  apply bind_raise in H as [H | (ends & _ & H)];
    [now apply episode_ends_raises in H |].
  apply bind_raise in H as [H | (data_ & _ & H)];
    [now apply append_sample_raises in H |].
  destruct ends; discriminate.
Qed.

(** A turn of the loop that returns found sample [k] in every array. *)
Lemma separate_step_covered dataset (st st' : SepState Frame) (k : nat) :
  separate_step dataset st k = Ok st' -> arrays_cover dataset (S k).
Proof.
  intros H. apply separate_step_inv in H as (ends & data_ & He & Hd & _).
  apply episode_ends_inv in He as (t & Ht & He).
  apply append_sample_inv in Hd
    as (o & o' & a & r & t' & Eo & _ & Ea & Er & Et & _).
  assert (Hlt : forall (B : Type) (xs : list B) (x : B),
             nth_error xs k = Some x -> (S k <= length xs)%nat).
  { intros B xs x E. apply Nat.le_succ_l, nth_error_Some. congruence. }
  unfold arrays_cover.
  split; [eauto | split; [eauto | split; [eauto | split; [eauto |]]]].
  intros timeouts Hto. rewrite Hto in He. destruct He as (f & Ef & _). eauto.
Qed.

Lemma arrays_cover_le dataset (n m : nat) :
  (m <= n)%nat -> arrays_cover dataset n -> arrays_cover dataset m.
Proof.
  intros Hm (Ho & Ha & Hr & Ht & Hto). unfold arrays_cover.
  repeat split; try lia. intros timeouts E. specialize (Hto timeouts E). lia.
Qed.

Lemma arrays_cover_0 dataset : arrays_cover dataset 0.
Proof. unfold arrays_cover. repeat split; intros; lia. Qed.

Lemma run_loop_cases {St : Type} (step : St -> nat -> result St) (init : St) :
  forall n,
    (exists st, run_loop step (seq 0 n) init = Ok st /\
                forall k, (k < n)%nat -> exists s s', step s k = Ok s') \/
    (exists e k s, run_loop step (seq 0 n) init = Raise e /\
                   (k < n)%nat /\ step s k = Raise e).
Proof.
  induction n as [| n IH].
  - left. exists init. split; [reflexivity | intros k Hk; lia].
  - rewrite seq_S, run_loop_snoc. simpl.
    destruct IH as [(st & Hst & Hall) | (e & k & s & He & Hk & Hs)].
    + rewrite Hst. cbn [bind Ok].
      destruct (step st n) as [e | st'] eqn:E.
      * right. exists e, n, st. repeat split; auto.
      * left. exists st'. split; [reflexivity |].
        intros k Hk. destruct (Nat.eq_dec k n) as [-> | Hne]; [eauto |].
        apply Hall. lia.
    + right. rewrite He. exists e, k, s. repeat split; auto.
Qed.

Lemma separate_loop_returns dataset (n : nat) :
  (arrays_cover dataset n ->
   exists st, run_loop (separate_step dataset) (seq 0 n) (separate_init Frame)
              = Ok st) /\
  (~ arrays_cover dataset n ->
   run_loop (separate_step dataset) (seq 0 n) (separate_init Frame)
   = Raise IndexError).
Proof.
  split.
  - intros Hc. apply run_loop_total. intros i st Hi.
    now apply (@separate_step_total Frame dataset n i st Hc).
  - intros Hn.
    destruct (run_loop_cases (separate_step dataset) (separate_init Frame) n)
      as [(st & Hst & Hall) | (e & k & s & He & _ & Hs)].
    + exfalso. apply Hn. destruct n as [| n]; [apply arrays_cover_0 |].
      destruct (Hall n ltac:(lia)) as (s & s' & Hs).
      now apply separate_step_covered in Hs.
    + apply separate_step_raises in Hs. now subst e.
Qed.

Lemma separate_games_returns dataset :
  (arrays_cover dataset (length (sample_range dataset)) ->
   exists paths, separate_games dataset = Ok paths) /\
  (~ arrays_cover dataset (length (sample_range dataset)) ->
   separate_games dataset = Raise IndexError).
Proof.
  unfold separate_games, sample_range. rewrite length_seq.
  destruct (separate_loop_returns dataset
              (Z.to_nat (len (d_rewards dataset) / 2))) as (Hok & Herr).
  split.
  - intros Hc. destruct (Hok Hc) as (st & ->). eexists. reflexivity.
  - intros Hn. now rewrite (Herr Hn).
Qed.

End IndexErrors.

(** X11.  Only the look-ahead is guarded.  Both loops return exactly when
    every array of the dataset (and ['timeouts'], when the key is present)
    has at least N//2 entries, N being the number of rewards, and they raise
    [IndexError] exactly when one of them is shorter. *)
Theorem episode_loops_index_error :
  forall (Frame : Type) (dataset : D4RL Frame)
         (paths0 : list (Episode Frame fnum)),
    let n := length (sample_range dataset) in
    ((exists paths, separate_games dataset = Ok paths)
     <-> arrays_cover dataset n) /\
    (separate_games dataset = Raise IndexError <-> ~ arrays_cover dataset n) /\
    ((exists paths, mixed_games_one paths0 dataset = Ok paths)
     <-> arrays_cover dataset n) /\
    (mixed_games_one paths0 dataset = Raise IndexError
     <-> ~ arrays_cover dataset n).
Proof.
  intros Frame dataset paths0 n.
  destruct (separate_games_returns dataset) as (Hok & Herr). fold n in Hok, Herr.
  assert (S1 : (exists paths, separate_games dataset = Ok paths)
               <-> arrays_cover dataset n).
  { split; [| exact Hok]. intros (paths & Hp).
    unfold separate_games in Hp.
    apply bind_ok in Hp as (st & Hrun & _). unfold sample_range in *.
    unfold n. rewrite length_seq.
    destruct (run_loop_cases (separate_step dataset) (separate_init Frame)
                (Z.to_nat (len (d_rewards dataset) / 2)))
      as [(st' & _ & Hall) | (e & k & s & He & _ & _)];
      [| rewrite He in Hrun; discriminate].
    destruct (Z.to_nat (len (d_rewards dataset) / 2)) as [| m];
      [apply arrays_cover_0 |].
    destruct (Hall m ltac:(lia)) as (s & s' & Hs).
    now apply separate_step_covered in Hs. }
  assert (S2 : separate_games dataset = Raise IndexError
               <-> ~ arrays_cover dataset n).
  { split; [| exact Herr]. intros He Hc.
    apply Hok in Hc as (paths & Hp). rewrite Hp in He. discriminate. }
  split; [exact S1 | split; [exact S2 |]].
  rewrite mixed_games_one_separate. split.
  - rewrite <- S1. split.
    + intros (paths & Hp). apply bind_ok in Hp as (sp & Hsp & _). eauto.
    + intros (sp & ->). eexists. reflexivity.
  - rewrite <- S2. split.
    + intros H. apply bind_raise in H as [H | (sp & _ & H)];
        [exact H | discriminate].
    + intros ->. reflexivity.
Qed.

Section LookAhead.
Variable Frame : Type.
Implicit Type dataset : D4RL Frame.

Lemma nth_error_tl {B : Type} (xs : list B) (i : nat) :
  nth_error (tl xs) i = nth_error xs (S i).
Proof. destruct xs as [| x xs]; [now destruct i | reflexivity]. Qed.

(** While the observation array reaches beyond the processed samples the
    look-ahead reads the following observation. *)
Lemma look_ahead_inside dataset (n : nat) :
  (n < length (d_observations dataset))%nat \/ n = 0%nat ->
  look_ahead dataset n = map Ok (firstn n (tl (d_observations dataset))).
Proof.
  induction n as [| n IH]; intros Hn; [reflexivity |].
  destruct Hn as [Hn | Hn]; [| discriminate].
  rewrite look_ahead_S, IH by (left; lia).
  destruct (nth_error (d_observations dataset) (S n)) as [o |] eqn:E.
  - rewrite (@next_observation_inside Frame dataset n o E).
    rewrite (@firstn_S_nth_error Frame (tl (d_observations dataset)) n o)
      by (now rewrite nth_error_tl).
    now rewrite map_app.
  - apply nth_error_None in E. lia.
Qed.

Lemma map_Ok_inj {B : Type} (xs ys : list B) :
  map (@Ok B) xs = map (@Ok B) ys -> xs = ys.
Proof.
  revert ys. induction xs as [| x xs IH]; intros [| y ys] H;
    try discriminate; [reflexivity |].
  simpl in H. inversion H. f_equal. now apply IH.
Qed.

Lemma separate_games_look_ahead dataset (paths : list (Episode Frame Q)) :
  length (d_observations dataset) = length (d_rewards dataset) ->
  separate_games dataset = Ok paths ->
  exists rest,
    concat (map (@e_next_observations Frame Q) paths) ++ rest
    = firstn (length (sample_range dataset)) (tl (d_observations dataset)).
Proof.
  intros Hpar H. unfold separate_games in H.
  apply bind_ok in H as (st & Hrun & H). inversion H; subst; clear H.
  unfold sample_range in *. rewrite length_seq.
  apply separate_loop_stored in Hrun.
  rewrite look_ahead_inside in Hrun.
  - apply map_Ok_inj in Hrun. now exists (b_next_observations (s_data st)).
  - rewrite Hpar. unfold len.
    destruct (length (d_rewards dataset)) as [| m]; [now right | left].
    assert (Z.of_nat (S m) / 2 < Z.of_nat (S m))%Z
      by (apply Z.div_lt; lia).
    lia.
Qed.

End LookAhead.

(** X12.  For a dataset with as many observations as rewards the fallback
    of the look-ahead is never taken: every processed sample i has i+1
    inside the observation array, the look-ahead is the plain read of
    [observations[i+1]], and the next observations saved by the two loops
    are the observations 1, 2, ... of the dataset in order. *)
Theorem look_ahead_never_falls_back :
  forall (Frame : Type) (dataset : D4RL Frame),
    length (d_observations dataset) = length (d_rewards dataset) ->
    (forall i : nat,
        (i < length (sample_range dataset))%nat ->
        (S i < length (d_observations dataset))%nat /\
        next_observation dataset (Z.of_nat i)
        = py_index (d_observations dataset) (Z.of_nat i + 1)) /\
    (forall paths : list (Episode Frame Q),
        separate_games dataset = Ok paths ->
        exists rest,
          concat (map (@e_next_observations Frame Q) paths) ++ rest
          = firstn (length (sample_range dataset))
                   (tl (d_observations dataset))) /\
    (forall paths : list (Episode Frame fnum),
        mixed_games_one [] dataset = Ok paths ->
        exists rest,
          concat (map (@e_next_observations Frame fnum) paths) ++ rest
          = firstn (length (sample_range dataset))
                   (tl (d_observations dataset))).
Proof.
  intros Frame dataset Hpar. split; [| split].
  - intros i Hi. unfold sample_range in Hi. rewrite length_seq in Hi.
    assert (Hlt : (S i < length (d_observations dataset))%nat).
    { rewrite Hpar. unfold len in Hi.
      destruct (length (d_rewards dataset)) as [| m]; [simpl in Hi; lia |].
      assert (Z.of_nat (S m) / 2 < Z.of_nat (S m))%Z
        by (apply Z.div_lt; lia).
      lia. }
    split; [exact Hlt |].
    destruct (nth_error (d_observations dataset) (S i)) as [o |] eqn:E.
    + rewrite (@next_observation_inside Frame dataset i o E).
      symmetry. replace (Z.of_nat i + 1)%Z with (Z.of_nat (S i)) by lia.
      now apply py_index_nat.
    + apply nth_error_None in E. lia.
  - intros paths. now apply separate_games_look_ahead.
  - intros paths H. rewrite mixed_games_one_separate in H.
    apply bind_ok in H as (sp & Hsp & H). inversion H; subst; clear H.
    cbn [app]. rewrite map_map. cbn [normalize_episode e_next_observations].
    now apply separate_games_look_ahead.
Qed.

Lemma look_ahead_never_falls_back_witness :
  exists paths rest,
    separate_games idle_dataset = Ok paths /\
    concat (map (@e_next_observations string Q) paths) ++ rest
    = ["f1"; "f2"; "f3"; "f4"].
Proof.
  destruct (proj1 (proj2 (@look_ahead_never_falls_back string idle_dataset
                            eq_refl)) _ eq_refl) as (rest & Hrest).
  eexists. exists rest. split; [reflexivity | exact Hrest].
Defined.

Section SplitPolicy.
Variable Frame : Type.
Implicit Type dataset : D4RL Frame.

Lemma nth_error_zip_with {A B C : Type} (f : A -> B -> C) (xs : list A)
    (ys : list B) (k : nat) (x : A) (y : B) :
  nth_error xs k = Some x -> nth_error ys k = Some y ->
  nth_error (zip_with f xs ys) k = Some (f x y).
Proof.
  revert ys k. induction xs as [| x0 xs IH]; intros [| y0 ys] [| k] Hx Hy;
    simpl in *; try discriminate.
  - inversion Hx; inversion Hy; now subst.
  - now apply IH.
Qed.

Lemma separate_step_split dataset (timeouts : list bool)
    (st st' : SepState Frame) (k : nat) :
  d_timeouts dataset = Some timeouts ->
  separate_step dataset st k = Ok st' ->
  (forall tail,
      split_lengths 0 (firstn k (end_flags dataset timeouts) ++ tail)
      = map (fun p => length (e_rewards p)) (s_paths st)
        ++ split_lengths (length (b_rewards (s_data st))) tail) ->
  forall tail,
    split_lengths 0 (firstn (S k) (end_flags dataset timeouts) ++ tail)
    = map (fun p => length (e_rewards p)) (s_paths st')
      ++ split_lengths (length (b_rewards (s_data st'))) tail.
Proof.
  intros Hto Hstep IH tail.
  apply separate_step_inv in Hstep as (ends & data_ & He & Hd & ->).
  apply episode_ends_inv in He as (t & Ht & He). rewrite Hto in He.
  destruct He as (f & Hf & ->).
  apply append_sample_inv in Hd
    as (o & o' & a & r & t' & _ & _ & _ & _ & _ & ->).
  rewrite (@firstn_S_nth_error bool (end_flags dataset timeouts) k (t || f))
    by (unfold end_flags; now apply nth_error_zip_with).
  rewrite <- app_assoc. cbn [app]. rewrite IH. cbn [split_lengths].
  destruct (t || f); cbn [s_paths s_data b_rewards empty_buffer length].
  - rewrite map_app. cbn [map raw_episode e_rewards b_rewards].
    rewrite length_app, Nat.add_1_r, <- app_assoc. reflexivity.
  - rewrite length_app, Nat.add_1_r. reflexivity.
Qed.

Lemma separate_games_split dataset (timeouts : list bool)
    (paths : list (Episode Frame Q)) :
  d_timeouts dataset = Some timeouts ->
  separate_games dataset = Ok paths ->
  map (fun p => length (e_rewards p)) paths
  = split_lengths 0 (firstn (length (sample_range dataset))
                            (end_flags dataset timeouts)).
Proof.
  intros Hto H. unfold separate_games in H.
  apply bind_ok in H as (st & Hrun & H). inversion H; subst; clear H.
  unfold sample_range in *. rewrite length_seq.
  assert (Hinv :
    forall tail,
      split_lengths 0
        (firstn (Z.to_nat (len (d_rewards dataset) / 2))
                (end_flags dataset timeouts) ++ tail)
      = map (fun p => length (e_rewards p)) (s_paths st)
        ++ split_lengths (length (b_rewards (s_data st))) tail).
  { revert st Hrun.
    apply (run_loop_invariant (separate_step dataset)
             (fun k st =>
                forall tail,
                  split_lengths 0
                    (firstn k (end_flags dataset timeouts) ++ tail)
                  = map (fun p => length (e_rewards p)) (s_paths st)
                    ++ split_lengths (length (b_rewards (s_data st))) tail)).
    - intros tail. reflexivity.
    - intros k s s' _ IH Hstep.
      now apply (@separate_step_split dataset timeouts s s' k Hto Hstep). }
  specialize (Hinv []). rewrite !app_nil_r in Hinv. now symmetry.
Qed.

End SplitPolicy.

(** X13.  With a ['timeouts'] key the episodes end exactly at the samples
    whose terminal flag or timeout flag is set: the lengths of the saved
    episodes, in order, are the lengths of the runs that end at a set flag
    among the first N//2 samples, and what follows the last set flag is
    dropped; the same holds for the episodes one dataset adds in the
    mixed-games arm. *)
Theorem episodes_split_at_flags :
  forall (Frame : Type) (dataset : D4RL Frame) (timeouts : list bool),
    d_timeouts dataset = Some timeouts ->
    let flags := firstn (length (sample_range dataset))
                        (end_flags dataset timeouts) in
    (forall paths : list (Episode Frame Q),
        separate_games dataset = Ok paths ->
        map (fun p => length (e_rewards p)) paths = split_lengths 0 flags) /\
    (forall paths : list (Episode Frame fnum),
        mixed_games_one [] dataset = Ok paths ->
        map (fun p => length (e_rewards p)) paths = split_lengths 0 flags).
Proof.
  intros Frame dataset timeouts Hto flags. unfold flags. split.
  - intros paths. now apply separate_games_split.
  - intros paths H. rewrite mixed_games_one_separate in H.
    apply bind_ok in H as (sp & Hsp & H). inversion H; subst; clear H.
    cbn [app]. rewrite map_map.
    rewrite <- (@separate_games_split Frame dataset timeouts sp Hto Hsp).
    apply map_ext. intros p. unfold normalize_episode, normalized.
    cbn [e_rewards]. now rewrite length_map.
Qed.

Lemma episodes_split_at_flags_witness :
  exists paths,
    separate_games timed_dataset = Ok paths /\
    map (fun p => length (e_rewards p)) paths = [1; 3]%nat.
Proof.
  eexists. split; [reflexivity |].
  apply (proj1 (@episodes_split_at_flags string timed_dataset
                  [true; false; false; false; false; false; false; false]
                  eq_refl)).
  reflexivity.
Defined.

(* ------------------------------------------------------------------ *)
(** ** dt_model_pretrained.py: parameters, accepted shapes, attention *)

Lemma sum_map_const {A : Type} (f : A -> Z) (c : Z) (xs : list A) :
  (forall x, In x xs -> f x = c) ->
  fold_right Z.add 0%Z (map f xs) = (Z.of_nat (length xs) * c)%Z.
Proof.
  induction xs as [| x xs IH]; intros H; [reflexivity |].
  cbn [map fold_right length]. rewrite H by (now left).
  rewrite IH by (intros y Hy; apply H; now right). lia.
Qed.

(** X14.  The number of parameters that the constructor reports is
    n_blocks * (12 * h_dim^2 + 13 * h_dim) + 2 * h_dim, the parameters of the
    blocks and of the final layer norm (no block for a negative [n_blocks]);
    it depends neither on the context length, nor on the state and action
    dimensions, nor on the number of heads. *)
Theorem n_params_closed_form :
  forall (state_dim act_dim n_blocks h_dim context_len n_heads : Z)
         (drop_p : Q) (max_timestep : Z) (m : DecisionTransformer),
    DecisionTransformer_init state_dim act_dim n_blocks h_dim context_len
      n_heads drop_p max_timestep = Ok m ->
    n_params m
    = (Z.max 0 n_blocks * (12 * h_dim * h_dim + 13 * h_dim) + 2 * h_dim)%Z.
Proof.
  intros state_dim act_dim n_blocks h_dim context_len n_heads drop_p
    max_timestep m H.
  apply DecisionTransformer_init_ok in H
    as (_ & _ & _ & _ & Hlen & Hbs & _ & _ & _ & _ & _ & _ & _ & _ & Hf & _).
  unfold n_params. rewrite Hf.
  rewrite (@sum_map_const Block numel_Block
             (12 * h_dim * h_dim + 13 * h_dim)%Z).
  - rewrite Hlen. unfold numel_LayerNorm. cbn [normalized_shape]. lia.
  - intros b Hb. apply Hbs, Block_init_ok in Hb
      as (_ & _ & _ & _ & _ & E1 & E2 & E3 & E4 & E5 & E6).
    unfold numel_Block, numel_Linear, numel_LayerNorm.
    rewrite E1, E2, E3, E4, E5, E6.
    cbn [in_features out_features normalized_shape]. ring.
Qed.

Lemma n_params_closed_form_witness :
  exists m,
    DecisionTransformer_of_config scenario_config = Ok m /\
    n_params m = 3312%Z.
Proof.
  eexists. split; [reflexivity |].
  apply (@n_params_closed_form 84 4 1 16 30 2 (1 # 10) 1000)%Z.
  reflexivity.
Defined.

(** *** The sequence lengths a block accepts *)

Lemma sh_masked_fill_short (B N T M : Z) :
  (0 <= M < T)%Z -> M <> 1%Z ->
  sh_masked_fill [B; N; T; T] [1; 1; M; M]%Z = shape_error.
Proof.
  intros HM H1. unfold sh_masked_fill, sh_broadcast.
  cbn [rev app broadcast_rev].
  destruct (B =? 1)%Z eqn:EB; destruct (N =? 1)%Z eqn:EN;
    cbn [bind Ok];
    destruct (T =? M)%Z eqn:ETM; try (apply Z.eqb_eq in ETM; lia);
    destruct (M =? 1)%Z eqn:EM1; try (apply Z.eqb_eq in EM1; lia);
    destruct (T =? 1)%Z eqn:ET1; cbn [bind Ok]; try reflexivity;
    rewrite ?ETM, ?ET1, ?EM1; cbn [bind Ok rev app combine forallb fst snd];
    apply Z.eqb_eq in ET1; subst T;
    assert (M = 0%Z) by lia; subst M;
    cbn; rewrite ?andb_false_r; reflexivity.
Qed.

Lemma MaskedCausalAttention_init_max_T (h_dim max_T n_heads : Z) (drop_p : Q)
    (a : MaskedCausalAttention) :
  MaskedCausalAttention_init h_dim max_T n_heads drop_p = Ok a ->
  (0 <= max_T)%Z.
Proof.
  unfold MaskedCausalAttention_init. intros H.
  apply bind_ok in H as (r & _ & H).
  apply bind_ok in H as (u0 & _ & H).
  apply bind_ok in H as (c_attn & _ & H).
  apply bind_ok in H as (c_proj & _ & H).
  apply bind_ok in H as (u1 & _ & H).
  apply bind_ok in H as (u2 & _ & H).
  apply bind_ok in H as (u3 & Hm & _).
  apply torch_empty_ok_inv in Hm. now inversion Hm.
Qed.

(** The attention module up to the mask: what [masked_fill] is called on. *)
Lemma MaskedCausalAttention_forward_shape_mask (a : MaskedCausalAttention)
    (B T h N M : Z) :
  attn_n_heads a = N -> attn_h_dim a = h -> attn_max_T a = M ->
  attn_c_attn a = mkLinear h (3 * h) -> attn_c_proj a = mkLinear h h ->
  (0 < N)%Z -> (0 < h)%Z -> (N | h)%Z -> (0 <= B)%Z -> (0 <= T)%Z ->
  MaskedCausalAttention_forward_shape a [B; T; h]
  = (att <- sh_masked_fill [B; N; T; T] [1; 1; Z.min T M; Z.min T M]%Z ;;
     y <- sh_matmul att [B; N; T; (h / N)%Z] ;;
     y <- sh_transpose_1_2 y ;;
     attention <- sh_reshape y [B; T; (N * (h / N))%Z] ;;
     sh_Linear (mkLinear h h) attention).
Proof.
  intros EN Eh ET Ec Ep HN Hh Hdiv HB HT.
  unfold MaskedCausalAttention_forward_shape.
  rewrite EN, Eh, ET, Ec, Ep.
  unfold py_floordiv.
  destruct (N =? 0)%Z eqn:E0; [apply Z.eqb_eq in E0; lia |].
  cbn [bind Ok].
  rewrite sh_Linear_3. cbn [bind Ok].
  assert (HD : (N * (h / N) = h)%Z).
  { destruct Hdiv as [c Hc]. rewrite Hc, Z.div_mul by lia. lia. }
  assert (HD0 : (0 <= h / N)%Z) by (apply Z.div_pos; lia).
  unfold sh_split3_dim2.
  replace ((0 <? h) && (2 * h <? 3 * h) && (3 * h <=? 3 * h))%Z with true
    by (symmetry; rewrite !andb_true_iff; repeat split;
        [apply Z.ltb_lt | apply Z.ltb_lt | apply Z.leb_le]; lia).
  cbn [bind Ok].
  replace (3 * h - 2 * h)%Z with h by lia.
  rewrite (@sh_reshape_ok [B; T; h] [B; T; N; (h / N)%Z])
    by (try (repeat constructor; lia); unfold prodZ; simpl; nia).
  cbn [bind Ok sh_transpose_1_2 sh_transpose_2_3].
  rewrite !sh_matmul_ok. cbn [bind Ok].
  unfold math_sqrt_check.
  destruct (0 <=? h / N)%Z eqn:E1; [| apply Z.leb_gt in E1; lia].
  cbn [bind Ok]. unfold sh_mask_slice. reflexivity.
Qed.

Lemma Block_forward_shape_cases (b : Block) (B h N M : Z) (drop_p : Q) :
  Block_init h M N drop_p = Ok b ->
  (0 < N)%Z -> (0 < h)%Z -> (0 <= B)%Z ->
  (forall T, (0 <= T <= M)%Z ->
             Block_forward_shape b [B; T; h] = Ok [B; T; h]) /\
  (forall T, (M < T)%Z -> M <> 1%Z ->
             Block_forward_shape b [B; T; h] = shape_error) /\
  (forall T C, C <> h -> Block_forward_shape b [B; T; C] = shape_error).
Proof.
  intros Hb HN Hh HB.
  assert (HM : (0 <= M)%Z).
  { unfold Block_init in Hb. apply bind_ok in Hb as (a & Ha & _).
    now apply MaskedCausalAttention_init_max_T in Ha. }
  apply Block_init_ok in Hb
    as (E1 & E2 & E3 & E4 & E5 & E6 & E7 & E8 & E9 & E10 & E11).
  assert (HD : (N * (h / N) = h)%Z).
  { destruct E5 as [c Hc]. rewrite Hc, Z.div_mul by lia. lia. }
  assert (HD0 : (0 <= h / N)%Z) by (apply Z.div_pos; lia).
  split; [| split].
  - intros T HT. unfold Block_forward_shape. rewrite E8, E9, E10, E11.
    rewrite sh_LayerNorm_3. cbn [bind Ok].
    rewrite (@MaskedCausalAttention_forward_shape_mask (blk_attn b) B T h N M)
      by (assumption || lia).
    rewrite Z.min_l by lia.
    rewrite sh_masked_fill_causal. cbn [bind Ok].
    rewrite sh_matmul_ok. cbn [bind Ok sh_transpose_1_2].
    rewrite (@sh_reshape_ok [B; T; N; (h / N)%Z] [B; T; (N * (h / N))%Z])
      by (try (repeat constructor; nia); unfold prodZ; simpl; nia).
    cbn [bind Ok]. rewrite HD, sh_Linear_3.
    cbn [bind Ok]. rewrite sh_broadcast_same3. cbn [bind Ok].
    rewrite sh_LayerNorm_3. cbn [bind Ok].
    rewrite sh_Linear_3. cbn [bind Ok].
    rewrite sh_Linear_3. cbn [bind Ok].
    apply sh_broadcast_same3.
  - intros T HT H1. unfold Block_forward_shape. rewrite E8, E9, E10, E11.
    rewrite sh_LayerNorm_3. cbn [bind Ok].
    rewrite (@MaskedCausalAttention_forward_shape_mask (blk_attn b) B T h N M)
      by (assumption || lia).
    rewrite Z.min_r by lia.
    rewrite sh_masked_fill_short by lia. reflexivity.
  - intros T C HC. unfold Block_forward_shape. rewrite E10.
    unfold sh_LayerNorm. cbn [rev app normalized_shape].
    destruct (C =? h)%Z eqn:E; [apply Z.eqb_eq in E; contradiction |].
    reflexivity.
Qed.

(** X15.  A constructed block maps a tensor of shape (B, T, h_dim) to one
    of the same shape for every sequence length T up to the [max_T] it was
    built for; it refuses a longer sequence (the slice of the mask cannot be
    broadcast, for [max_T] other than 1) and a last axis other than [h_dim],
    each with a shape error. *)
Theorem Block_forward_shape_accepts :
  forall (b : Block) (B h_dim n_heads max_T : Z) (drop_p : Q),
    Block_init h_dim max_T n_heads drop_p = Ok b ->
    (0 < n_heads)%Z -> (0 < h_dim)%Z -> (0 <= B)%Z ->
    (forall T, (0 <= T <= max_T)%Z ->
               Block_forward_shape b [B; T; h_dim] = Ok [B; T; h_dim]) /\
    (forall T, (max_T < T)%Z -> max_T <> 1%Z ->
               Block_forward_shape b [B; T; h_dim] = shape_error) /\
    (forall T C, C <> h_dim ->
                 Block_forward_shape b [B; T; C] = shape_error).
Proof.
  intros b B h_dim n_heads max_T drop_p Hb HN Hh HB.
  exact (@Block_forward_shape_cases b B h_dim n_heads max_T drop_p Hb HN Hh HB).
Qed.

Lemma Block_forward_shape_accepts_witness :
  exists b,
    Block_init 16 90 2 (1 # 10) = Ok b /\
    Block_forward_shape b [5; 7; 16]%Z = Ok [5; 7; 16]%Z /\
    Block_forward_shape b [5; 91; 16]%Z = shape_error.
Proof.
  eexists. split; [reflexivity |].
  destruct (@Block_forward_shape_accepts _ 5 16 2 90 (1 # 10) eq_refl)%Z
    as (Hin & Hout & _); try lia.
  split; [apply Hin; lia | apply Hout; lia].
Defined.

(** *** The inputs a forward pass accepts *)

Lemma shape_at_0 (s : shape) (B : Z) :
  shape_at s 0 = Ok B -> exists rest, s = B :: rest.
Proof.
  unfold shape_at. rewrite py_index_head.
  destruct s as [| x rest]; [discriminate |].
  intros H. inversion H. now exists rest.
Qed.

Lemma sh_Conv2d_inv (c : Conv2d_) (s out : shape) :
  sh_Conv2d c s = Ok out ->
  exists front hgt wid,
    (front = [] \/ exists n, front = [n]) /\
    s = front ++ [in_channels c; hgt; wid] /\
    out = front ++ [out_channels c;
                    conv_out hgt (kernel_size c) (stride c);
                    conv_out wid (kernel_size c) (stride c)].
Proof.
  unfold sh_Conv2d. intros H.
  destruct s as [| n [| ch [| hgt [| wid [| x rest]]]]]; try discriminate.
  - destruct ((n =? in_channels c) && (kernel_size c <=? ch)
              && (kernel_size c <=? hgt))%Z eqn:E; [| discriminate].
    apply andb_true_iff in E as (E & _). apply andb_true_iff in E as (E & _).
    apply Z.eqb_eq in E. subst n. inversion H.
    exists [], ch, hgt. split; [now left | split; reflexivity].
  - destruct ((ch =? in_channels c) && (kernel_size c <=? hgt)
              && (kernel_size c <=? wid))%Z eqn:E; [| discriminate].
    apply andb_true_iff in E as (E & _). apply andb_true_iff in E as (E & _).
    apply Z.eqb_eq in E. subst ch. inversion H.
    exists [n], hgt, wid. split; [right; now exists n | split; reflexivity].
Qed.

Lemma sh_Linear_inv (l : Linear_) (s out : shape) :
  sh_Linear l s = Ok out ->
  exists front, s = front ++ [in_features l] /\ out = front ++ [out_features l].
Proof.
  unfold sh_Linear. intros H.
  destruct (rev s) as [| last front] eqn:E; [discriminate |].
  destruct (last =? in_features l)%Z eqn:El; [| discriminate].
  apply Z.eqb_eq in El. subst last. inversion H.
  exists (rev front). split; [| reflexivity].
  rewrite <- (rev_involutive s), E. reflexivity.
Qed.

(** What [embed_state] accepts: a batch of images (N, C, H, W), or one image
    (C, H, W), whose channels are then taken for the rows of the result. *)
Lemma sh_embed_state_inv (m : DecisionTransformer) (s out : shape) :
  sh_embed_state m s = Ok out ->
  (exists n hgt wid,
      s = [n; in_channels (dt_embed_state_conv1 m); hgt; wid] /\
      out = [n; out_features (dt_embed_state_fc m)]) \/
  (exists hgt wid,
      s = [in_channels (dt_embed_state_conv1 m); hgt; wid] /\
      out = [out_channels (dt_embed_state_conv3 m);
             out_features (dt_embed_state_fc m)]).
Proof.
  unfold sh_embed_state. intros H.
  apply bind_ok in H as (s1 & H1 & H).
  apply bind_ok in H as (s2 & H2 & H).
  apply bind_ok in H as (s3 & H3 & H).
  apply bind_ok in H as (s4 & H4 & H).
  apply sh_Conv2d_inv in H1 as (f1 & hgt & wid & Hf1 & -> & ->).
  apply sh_Conv2d_inv in H2 as (f2 & hgt2 & wid2 & Hf2 & E2 & ->).
  apply sh_Conv2d_inv in H3 as (f3 & hgt3 & wid3 & Hf3 & E3 & ->).
  apply sh_Linear_inv in H as (front & Ef & ->).
  destruct Hf1 as [-> | (n & ->)];
    destruct Hf2 as [-> | (n2 & ->)]; try discriminate;
    destruct Hf3 as [-> | (n3 & ->)]; try discriminate;
    cbn [app] in *.
  - right. exists hgt, wid. split; [reflexivity |].
    cbn [sh_Flatten] in H4. inversion H4 as [E4]. rewrite <- E4 in Ef.
    destruct front as [| x [| y front]]; try discriminate.
    + inversion Ef as [[Ex Ein]]. reflexivity.
    + destruct front; discriminate.
  - left. inversion E2 as [[En2 Eh2 Ew2]]. inversion E3 as [[En3 Eh3 Ew3]].
    cbn [sh_Flatten] in H4. inversion H4 as [E4]. rewrite <- E4 in Ef.
    destruct front as [| x [| y front]]; try discriminate.
    + cbn [app] in Ef. injection Ef as Ex _. do 3 eexists.
      split; [reflexivity | cbn [app]; now rewrite <- Ex].
    + destruct front; discriminate.
Qed.

(** X16.  A forward pass that returns was given a window of exactly
    [context_len] steps, with one exception.  For a constructed model with a
    positive hidden dimension, whatever the four inputs are, if [forward]
    returns with a non-empty batch then either [states] has the four axes
    (B, context_len, H, W) and [timesteps.shape[1]] is [context_len], or
    [states] has no batch axis: Conv2d takes a tensor of three axes
    (context_len, H, W) for a single image, the batch size read off
    [states.shape[0]] is then [context_len], and the window length
    [timesteps.shape[1]] is 64, the number of channels the last convolution
    leaves.  Every other window length or channel count makes the pass
    raise. *)
Theorem forward_refuses_other_windows :
  forall (state_dim act_dim n_blocks h_dim context_len n_heads : Z)
         (drop_p : Q) (max_timestep : Z) (m : DecisionTransformer)
         (timesteps : LongTensor) (states : shape) (actions : LongTensor)
         (returns_to_go : shape)
         (out : shape * shape * shape) (B T : Z),
    DecisionTransformer_init state_dim act_dim n_blocks h_dim context_len
      n_heads drop_p max_timestep = Ok m ->
    DecisionTransformer_forward_shape m timesteps states actions returns_to_go
    = Ok out ->
    shape_at states 0 = Ok B ->
    shape_at (lt_shape timesteps) 1 = Ok T ->
    (0 < h_dim)%Z -> (0 < B)%Z -> (0 <= T)%Z ->
    (T = context_len /\
     exists hgt wid, states = [B; context_len; hgt; wid]) \/
    (T = 64%Z /\ B = context_len /\
     exists hgt wid, states = [context_len; hgt; wid]).
Proof.
  intros state_dim act_dim n_blocks h_dim context_len n_heads drop_p
    max_timestep m timesteps states actions returns_to_go out B T
    Hinit Hfwd HB HT Hh HBpos HTpos.
  apply DecisionTransformer_init_ok in Hinit
    as (E1 & E2 & E3 & E4 & E5 & Hbs & E6 & E7 & E8 & E9 & E10 & E11 & _).
  unfold DecisionTransformer_forward_shape in Hfwd.
  rewrite HB, HT in Hfwd. cbn [bind Ok] in Hfwd.
  apply bind_ok in Hfwd as (te & _ & Hfwd).
  apply bind_ok in Hfwd as (time_embeddings & _ & Hfwd).
  apply bind_ok in Hfwd as (se & Hse & Hfwd).
  apply bind_ok in Hfwd as (se' & Hre & _).
  apply shape_at_0 in HB as (rest & HBs).
  unfold sh_reshape in Hre. rewrite E3 in Hre.
  destruct (reshape_ok (prodZ se) [B; T; h_dim]) eqn:Er; [| discriminate].
  rewrite reshape_ok_nonneg in Er by (repeat constructor; lia).
  apply Z.eqb_eq in Er.
  apply sh_embed_state_inv in Hse
    as [(n & hgt & wid & Hs & Hout) | (hgt & wid & Hs & Hout)];
    rewrite E8 in Hs; rewrite ?E10, E11 in Hout;
    cbn [in_channels out_channels out_features] in Hs, Hout;
    rewrite Hs in HBs; injection HBs as HB0 _;
    rewrite Hout in Er; unfold prodZ in Er; cbn [fold_right] in Er.
  - left. subst n. split; [| rewrite Hs; eauto].
    apply Z.mul_reg_l in Er; [| lia].
    assert (Er' : (h_dim * T = h_dim * context_len)%Z) by lia.
    apply Z.mul_reg_l in Er'; lia.
  - right. split; [| split; [now symmetry | rewrite Hs; eauto]].
    assert (Er' : (B * (h_dim * T) = B * (h_dim * 64))%Z)
      by (rewrite <- HB0 at 2; lia).
    apply Z.mul_reg_l in Er'; [| lia].
    apply Z.mul_reg_l in Er'; lia.
Qed.

Lemma forward_refuses_other_windows_witness :
  exists m,
    DecisionTransformer_of_config scenario_config = Ok m /\
    ((30%Z = cfg_context_len scenario_config /\
      exists hgt wid,
        [5; 30; 84; 84]%Z = [5; cfg_context_len scenario_config; hgt; wid]%Z) \/
     (30%Z = 64%Z /\ 5%Z = cfg_context_len scenario_config /\
      exists hgt wid,
        [5; 30; 84; 84]%Z = [cfg_context_len scenario_config; hgt; wid]%Z)).
Proof.
  eexists. split; [reflexivity |].
  eapply (@forward_refuses_other_windows 84 4 1 16 30 2 (1 # 10) 1000 _
           (mkLongTensor [5; 30] (repeat 0 150)) [5; 30; 84; 84]
           (mkLongTensor [5; 30] (repeat 0 150)) [5; 30]
           ([5; 30; 84; 84], [5; 30; 4], [5; 30; 1]) 5 30)%Z;
    try reflexivity; lia.
Defined.

(** The exception is real: a model without blocks, built for windows of 30
    steps, returns on one image of 30 channels and 476 x 476 pixels with
    timesteps and actions of shape (30, 64) and returns-to-go of shape
    (64, 30). *)
Lemma forward_single_image :
  exists m,
    DecisionTransformer_init 84 4 0 16 30 2 (1 # 10) 1000 = Ok m /\
    DecisionTransformer_forward_shape m
      (mkLongTensor [30; 64]%Z (repeat 0%Z 1920)) [30; 476; 476]%Z
      (mkLongTensor [30; 64]%Z (repeat 0%Z 1920)) [64; 30]%Z
    = Ok ([30; 64; 84; 84]%Z, [30; 64; 4]%Z, [30; 64; 1]%Z).
Proof. eexists. split; vm_compute; reflexivity. Qed.

Lemma nth_zip_with_seq {A B : Type} (f : nat -> A -> B) (d : B) (d' : A) :
  forall (xs : list A) (s n i : nat),
    (i < n)%nat -> (i < length xs)%nat ->
    nth i (zip_with f (seq s n) xs) d = f (s + i)%nat (nth i xs d').
Proof.
  induction xs as [| x xs IH]; intros s n i Hn Hx; [simpl in Hx; lia |].
  destruct n as [| n]; [lia |].
  destruct i as [| i]; cbn [seq zip_with nth].
  - now rewrite Nat.add_0_r.
  - rewrite IH by (simpl in Hx; lia). f_equal. lia.
Qed.

Lemma nth_imap {A B : Type} (f : nat -> A -> B) (xs : list A) (i : nat)
    (d : B) (d' : A) :
  (i < length xs)%nat -> nth i (imap f xs) d = f i (nth i xs d').
Proof.
  intros Hi. unfold imap. now rewrite (nth_zip_with_seq f d d') by lia.
Qed.

Lemma mask_at_tril (max_T i j : nat) :
  (i < max_T)%nat -> (j < max_T)%nat ->
  mask_at (tril_ones max_T) i j = (j <=? i)%nat.
Proof.
  intros Hi Hj. unfold mask_at, tril_ones.
  rewrite nth_map_seq by exact Hi. now rewrite nth_map_seq by exact Hj.
Qed.

Section SoftmaxFacts.
Local Open Scope R_scope.

Lemma exp_ext_nonneg (s : option R) : 0 <= exp_ext s.
Proof. destruct s as [a |]; simpl; [left; apply exp_pos | lra]. Qed.

Lemma sumR_nonneg (v : vec) : Forall (fun x => 0 <= x) v -> 0 <= sumR v.
Proof.
  unfold sumR. induction 1 as [| x v Hx _ IH]; simpl; lra.
Qed.

Lemma sumR_pos (v : vec) (i : nat) :
  Forall (fun x => 0 <= x) v -> 0 < nth i v 0 -> 0 < sumR v.
Proof.
  intros Hv. revert i. unfold sumR.
  induction Hv as [| x v Hx Hv IH]; intros i Hi.
  - destruct i; simpl in Hi; lra.
  - destruct i as [| i]; simpl in *.
    + pose proof (sumR_nonneg Hv). unfold sumR in *. lra.
    + specialize (IH i Hi). lra.
Qed.

Lemma sumR_map_div (v : vec) (s : R) :
  sumR (map (fun x => x / s) v) = sumR v / s.
Proof.
  unfold sumR. induction v as [| x v IH]; simpl.
  - unfold Rdiv. ring.
  - rewrite IH. unfold Rdiv. ring.
Qed.

(** A row with at least one unmasked score: its softmax is a distribution
    that gives masked positions no weight. *)
Lemma softmax_distribution (row : list (option R)) (i : nat) (a : R) :
  nth i row None = Some a ->
  sumR (softmax row) = 1 /\
  (forall j, 0 <= nth j (softmax row) 0) /\
  (forall j, nth j row None = None -> nth j (softmax row) 0 = 0).
Proof.
  intros Hi. unfold softmax.
  set (e := map exp_ext row).
  assert (He : Forall (fun x => 0 <= x) e).
  { unfold e. apply Forall_forall. intros x Hx.
    apply in_map_iff in Hx as (s & <- & _). apply exp_ext_nonneg. }
  assert (Hnth : forall j, nth j e 0 = exp_ext (nth j row None)).
  { intros j. unfold e. change 0 with (exp_ext None). apply map_nth. }
  assert (Hs : 0 < sumR e).
  { apply (sumR_pos i He). rewrite Hnth, Hi. simpl. apply exp_pos. }
  assert (Hdiv : forall j, nth j (map (fun v => v / sumR e) e) 0
                           = nth j e 0 / sumR e).
  { intros j. replace 0 with (0 / sumR e) at 1 by (unfold Rdiv; ring).
    apply (map_nth (fun v => v / sumR e)). }
  split; [| split].
  - rewrite sumR_map_div. field. lra.
  - intros j. rewrite Hdiv, Hnth.
    apply Rmult_le_pos; [apply exp_ext_nonneg |].
    left. now apply Rinv_0_lt_compat.
  - intros j Hj. rewrite Hdiv, Hnth, Hj. simpl. unfold Rdiv. ring.
Qed.

End SoftmaxFacts.

Lemma attention_weights_row (max_T D : nat) (q k : list vec) (i : nat) :
  (i < length q)%nat ->
  nth i (attention_weights max_T D q k) []
  = softmax (imap (mask_entry (tril_ones max_T) i)
                  (map (fun kj => (dot (nth i q []) kj / sqrt (INR D))%R) k)).
Proof.
  intros Hi. unfold attention_weights.
  change (@nil R) with (softmax []) at 1. rewrite map_nth. f_equal.
  unfold masked_fill.
  rewrite (@nth_imap _ _ _ _ i [] [])
    by (unfold scores; now rewrite length_map).
  unfold scores.
  rewrite (nth_indep _ [] ((fun qi => map (fun kj => (dot qi kj / sqrt (INR D))%R) k) []))
    by (now rewrite length_map).
  rewrite (map_nth (fun qi => map (fun kj => (dot qi kj / sqrt (INR D))%R) k)).
  reflexivity.
Qed.

(** X17.  The attention weights of a head (scores, causal mask, softmax)
    for a sequence no longer than [max_T]: row i has one weight per key, the
    weights are non-negative and sum to 1, and every key after position i
    has weight exactly 0. *)
Theorem attention_weights_causal_distribution :
  forall (max_T D : nat) (q k : list vec) (i : nat),
    length q = length k ->
    (length q <= max_T)%nat ->
    (i < length q)%nat ->
    let row := nth i (attention_weights max_T D q k) [] in
    length row = length k /\
    sumR row = 1%R /\
    (forall j, (0 <= nth j row 0)%R) /\
    (forall j, (i < j)%nat -> nth j row 0%R = 0%R).
Proof.
  intros max_T D q k i Hqk Hmax Hi row. unfold row.
  rewrite attention_weights_row by exact Hi.
  set (s := map (fun kj => (dot (nth i q []) kj / sqrt (INR D))%R) k).
  assert (Hls : length s = length k) by (unfold s; now rewrite length_map).
  assert (Hentry : forall j, (j < length k)%nat ->
             nth j (imap (mask_entry (tril_ones max_T) i) s) None
             = if (j <=? i)%nat then Some (nth j s 0%R) else None).
  { intros j Hj. rewrite (@nth_imap _ _ _ _ j None 0%R) by lia.
    unfold mask_entry. rewrite mask_at_tril by lia. reflexivity. }
  destruct (@softmax_distribution
              (imap (mask_entry (tril_ones max_T) i) s) i (nth i s 0%R))
    as (Hsum & Hpos & Hzero).
  { rewrite Hentry by lia. now rewrite Nat.leb_refl. }
  split; [| split; [exact Hsum | split; [exact Hpos |]]].
  - unfold softmax. now rewrite !length_map, imap_length.
  - intros j Hj.
    destruct (Nat.lt_ge_cases j (length k)) as [Hlt | Hge].
    + apply Hzero. rewrite Hentry by exact Hlt.
      destruct (Nat.leb_spec j i); [lia | reflexivity].
    + apply nth_overflow. unfold softmax.
      rewrite !length_map, imap_length. lia.
Qed.

Lemma attention_weights_causal_distribution_witness :
  sumR (nth 0 (attention_weights 3 1 [[1]; [2]] [[3]; [4]])%R []) = 1%R /\
  nth 1 (nth 0 (attention_weights 3 1 [[1]; [2]] [[3]; [4]])%R []) 0%R = 0%R.
Proof.
  destruct (@attention_weights_causal_distribution 3 1
              [[1]; [2]]%R [[3]; [4]]%R 0)
    as (_ & Hsum & _ & Hzero); try (simpl; lia).
  split; [exact Hsum | apply Hzero; lia].
Defined.

(** X18.  Causality of the attention module, of a block and of the whole
    stack of blocks with its two layer norms: two input sequences (no longer
    than [max_T]) that agree on their first n tokens give outputs that agree
    on their first n tokens; neither later tokens nor the length of the
    sequence have any influence on them. *)
Theorem transformer_stack_causal :
  forall (n : nat) (x x' : list vec),
    firstn n x = firstn n x' ->
    (forall a : AttentionW,
        (length x <= aw_max_T a)%nat -> (length x' <= aw_max_T a)%nat ->
        firstn n (MaskedCausalAttention_forward a x)
        = firstn n (MaskedCausalAttention_forward a x')) /\
    (forall b : BlockW,
        (length x <= aw_max_T (bw_attn b))%nat ->
        (length x' <= aw_max_T (bw_attn b))%nat ->
        firstn n (Block_forward b x) = firstn n (Block_forward b x')) /\
    (forall w : DecisionTransformerW,
        Forall (fun b => length x <= aw_max_T (bw_attn b)
                         /\ length x' <= aw_max_T (bw_attn b))%nat
               (w_blocks w) ->
        firstn n (transformer w x) = firstn n (transformer w x')).
Proof.
  intros n x x' H. split; [| split].
  - intros a _ _. now rewrite !MaskedCausalAttention_forward_prefix, H.
  - intros b _ _. now rewrite !Block_forward_prefix, H.
  - intros w _. now rewrite !transformer_prefix, H.
Qed.

Lemma transformer_stack_causal_witness :
  firstn 1 (Block_forward idle_block_2 [[1; 2]; [3; 4]]%R)
  = firstn 1 (Block_forward idle_block_2 [[1; 2]; [5; 6]; [7; 8]]%R).
Proof.
  apply (proj1 (proj2 (@transformer_stack_causal 1
                         [[1; 2]; [3; 4]]%R [[1; 2]; [5; 6]; [7; 8]]%R
                         eq_refl)) idle_block_2); simpl; lia.
Defined.

(** *** What the return and state predictions of a timestep read *)

Lemma lane_length {A : Type} (d : A) (l T : nat) (h : list A) :
  length (lane d l (group3 T h)) = T.
Proof.
  unfold lane, group3, reshape_rows. now rewrite !length_map, length_seq.
Qed.

Lemma return_preds_nth (w : DecisionTransformerW) (timesteps : list Z)
    (states : image) (actions : list Z) (returns_to_go : vec) (t : nat) :
  (t < length timesteps)%nat ->
  nth t (return_preds
           (DecisionTransformer_forward w timesteps states actions returns_to_go))
      []
  = linear (w_predict_rtg w)
      (nth (3 * t + 2)
           (transformer w
              (token_sequence (returns_embeddings w timesteps returns_to_go)
                              (state_embeddings w timesteps states)
                              (action_embeddings w timesteps actions)))
           []).
Proof.
  intros Ht. unfold DecisionTransformer_forward. cbv zeta.
  cbn [return_preds].
  rewrite (nth_indep _ [] (linear (w_predict_rtg w) []))
    by (rewrite length_map, lane_length; exact Ht).
  rewrite map_nth. f_equal. apply lane_group3; [lia | exact Ht].
Qed.

Lemma state_preds_nth (w : DecisionTransformerW) (timesteps : list Z)
    (states : image) (actions : list Z) (returns_to_go : vec) (t : nat) :
  (t < length timesteps)%nat ->
  nth t (state_preds
           (DecisionTransformer_forward w timesteps states actions returns_to_go))
      []
  = reshape_rows (w_state_dim w) (w_state_dim w)
      (linear (w_predict_state w)
         (nth (3 * t + 2)
              (transformer w
                 (token_sequence (returns_embeddings w timesteps returns_to_go)
                                 (state_embeddings w timesteps states)
                                 (action_embeddings w timesteps actions)))
              [])).
Proof.
  intros Ht. unfold DecisionTransformer_forward. cbv zeta.
  cbn [state_preds].
  rewrite (nth_indep _ []
             ((fun tok => reshape_rows (w_state_dim w) (w_state_dim w)
                            (linear (w_predict_state w) tok)) []))
    by (rewrite length_map, lane_length; exact Ht).
  rewrite (map_nth (fun tok => reshape_rows (w_state_dim w) (w_state_dim w)
                                 (linear (w_predict_state w) tok))).
  f_equal. f_equal. apply lane_group3; [lia | exact Ht].
Qed.

(** X19.  The return prediction and the state prediction of timestep t do
    not depend on the actions of later timesteps: two forward passes
    (dropout disabled) on inputs with the same timesteps, returns-to-go and
    states, and the same actions up to and including timestep t, give the
    same return prediction and the same state prediction at t. *)
Theorem return_and_state_predictions_ignore_later_actions :
  forall (w : DecisionTransformerW) (timesteps : list Z) (states : image)
         (returns_to_go : vec) (actions actions' : list Z) (t : nat),
    (t < length timesteps)%nat ->
    firstn (S t) actions = firstn (S t) actions' ->
    nth t (return_preds
             (DecisionTransformer_forward w timesteps states actions
                returns_to_go)) []
    = nth t (return_preds
               (DecisionTransformer_forward w timesteps states actions'
                  returns_to_go)) [] /\
    nth t (state_preds
             (DecisionTransformer_forward w timesteps states actions
                returns_to_go)) []
    = nth t (state_preds
               (DecisionTransformer_forward w timesteps states actions'
                  returns_to_go)) [].
Proof.
  intros w timesteps states returns_to_go actions actions' t Ht Hagree.
  assert (Hh : nth (3 * t + 2)
                 (transformer w
                    (token_sequence (returns_embeddings w timesteps returns_to_go)
                       (state_embeddings w timesteps states)
                       (action_embeddings w timesteps actions))) []
               = nth (3 * t + 2)
                   (transformer w
                      (token_sequence
                         (returns_embeddings w timesteps returns_to_go)
                         (state_embeddings w timesteps states)
                         (action_embeddings w timesteps actions'))) []).
  { apply (@transformer_agree w (2 * length timesteps + S t)%nat).
    - now apply token_sequence_prefix.
    - lia. }
  rewrite !return_preds_nth, !state_preds_nth by exact Ht.
  now rewrite Hh.
Qed.

Lemma return_and_state_predictions_ignore_later_actions_witness :
  nth 0 (return_preds
           (DecisionTransformer_forward leaky_model [0; 1]%Z zero_frames
              [0; 0]%Z [0; 1]%R)) []
  = nth 0 (return_preds
             (DecisionTransformer_forward leaky_model [0; 1]%Z zero_frames
                [0; 1]%Z [0; 1]%R)) [].
Proof.
  apply (@return_and_state_predictions_ignore_later_actions leaky_model
           [0; 1]%Z zero_frames [0; 1]%R [0; 0]%Z [0; 1]%Z 0);
    [simpl; lia | reflexivity].
Defined.

(** *** The tokens handed to the transformer are bounded *)

Section Bounded.
Local Open Scope R_scope.

Lemma tanh_bounds (x : R) : -1 < tanh x < 1.
Proof.
  unfold tanh, sinh, cosh.
  pose proof (exp_pos x) as Ha. pose proof (exp_pos (- x)) as Hb.
  set (a := exp x) in *. set (b := exp (- x)) in *.
  assert (Hc : 0 < (a + b) / 2) by lra.
  assert (E : (a - b) / 2 / ((a + b) / 2) * ((a + b) / 2) = (a - b) / 2)
    by (field; lra).
  split; apply (Rmult_lt_reg_r ((a + b) / 2)); try exact Hc; rewrite E; lra.
Qed.

Lemma Forall_zip_with {A B C : Type} (P : A -> Prop) (Q : B -> Prop)
    (U : C -> Prop) (f : A -> B -> C) (xs : list A) (ys : list B) :
  (forall x y, P x -> Q y -> U (f x y)) ->
  Forall P xs -> Forall Q ys -> Forall U (zip_with f xs ys).
Proof.
  intros Hf Hx. revert ys.
  induction Hx as [| x xs Hx0 _ IH]; intros ys Hy; [constructor |].
  destruct Hy as [| y ys Hy0 Hy]; [constructor |].
  simpl. constructor; [now apply Hf | now apply IH].
Qed.

Lemma Forall_map_tanh (v : vec) : Forall (fun x => -1 <= x <= 1) (map tanh v).
Proof.
  apply Forall_forall. intros x Hx.
  apply in_map_iff in Hx as (y & <- & _).
  pose proof (tanh_bounds y). lra.
Qed.

Lemma In_skipn {A : Type} (n : nat) (xs : list A) (x : A) :
  In x (skipn n xs) -> In x xs.
Proof.
  intros H. rewrite <- (firstn_skipn n xs). apply in_or_app. now right.
Qed.

Lemma Forall_reshape_rows {A : Type} (P : A -> Prop) (rows cols : nat)
    (flat : list A) :
  Forall P flat -> Forall (Forall P) (reshape_rows rows cols flat).
Proof.
  intros H. unfold reshape_rows. apply Forall_forall. intros row Hrow.
  apply in_map_iff in Hrow as (r & <- & _).
  apply Forall_forall. intros x Hx.
  rewrite Forall_forall in H. apply H.
  apply (In_skipn (r * cols)). rewrite <- (firstn_skipn cols (skipn _ _)).
  apply in_or_app. now left.
Qed.

Lemma tadd_bounded (a b : list vec) :
  Forall (Forall (fun x => -1 <= x <= 1)) a ->
  Forall (Forall (fun x => -1 <= x <= 1)) b ->
  Forall (Forall (fun x => -2 <= x <= 2)) (tadd a b).
Proof.
  intros Ha Hb. unfold tadd.
  apply (Forall_zip_with (P := Forall (fun x => -1 <= x <= 1))
           (Q := Forall (fun x => -1 <= x <= 1)) _ vadd); [| exact Ha | exact Hb].
  intros u v Hu Hv. unfold vadd.
  apply (Forall_zip_with (P := fun x => -1 <= x <= 1)
           (Q := fun x => -1 <= x <= 1) _ Rplus); [| exact Hu | exact Hv].
  intros x y Hx Hy. lra.
Qed.

Lemma time_embeddings_bounded (w : DecisionTransformerW) (timesteps : list Z) :
  Forall (Forall (fun x => -1 <= x <= 1)) (time_embeddings w timesteps).
Proof.
  unfold time_embeddings. apply Forall_forall. intros tok Htok.
  apply in_map_iff in Htok as (t & <- & _).
  unfold embed_timestep. apply Forall_map_tanh.
Qed.

End Bounded.

(** X20.  Every coordinate of every token handed to the transformer lies
    between -2 and 2, bounds included: each of the three embeddings is a
    hyperbolic tangent, which lies between -1 and 1, plus the hyperbolic
    tangent of the timestep embedding.  (The bounds are stated as attained:
    in float32 the hyperbolic tangent saturates to exactly -1 or 1.) *)
Theorem embeddings_bounded :
  forall (w : DecisionTransformerW) (timesteps : list Z) (states : image)
         (actions : list Z) (returns_to_go : vec),
    let bounded := Forall (Forall (fun x => -2 <= x <= 2)%R) in
    bounded (returns_embeddings w timesteps returns_to_go) /\
    bounded (state_embeddings w timesteps states) /\
    bounded (action_embeddings w timesteps actions) /\
    bounded (token_sequence (returns_embeddings w timesteps returns_to_go)
                            (state_embeddings w timesteps states)
                            (action_embeddings w timesteps actions)).
Proof.
  intros w timesteps states actions returns_to_go bounded. unfold bounded.
  assert (Hr : Forall (Forall (fun x => -2 <= x <= 2)%R)
                 (returns_embeddings w timesteps returns_to_go)).
  { unfold returns_embeddings. apply tadd_bounded.
    - apply Forall_reshape_rows. unfold embed_rtg. apply Forall_map_tanh.
    - apply time_embeddings_bounded. }
  assert (Hs : Forall (Forall (fun x => -2 <= x <= 2)%R)
                 (state_embeddings w timesteps states)).
  { unfold state_embeddings. apply tadd_bounded.
    - apply Forall_reshape_rows. unfold embed_state. apply Forall_map_tanh.
    - apply time_embeddings_bounded. }
  assert (Ha : Forall (Forall (fun x => -2 <= x <= 2)%R)
                 (action_embeddings w timesteps actions)).
  { unfold action_embeddings. apply tadd_bounded.
    - apply Forall_forall. intros tok Htok.
      apply in_map_iff in Htok as (a & <- & _).
      unfold embed_action. apply Forall_map_tanh.
    - apply time_embeddings_bounded. }
  repeat split; auto.
  rewrite token_sequence_lanes. apply Forall_app. split; [exact Hr |].
  apply Forall_app. split; assumption.
Qed.
